(** * A shallow embedding of the stripe-rag-demo ingestion pipeline

    The development follows the repository's four modules:
    - [rag_poc_function/utils.py]   : whitespace handling, HTML extraction,
      sliding-window chunking, the retried fetch and document assembly;
    - [rag_poc_function/main.py]    : header redaction and the ingestion
      endpoint with its exception handlers;
    - [rag_poc_function/vectorstore.py] : the upsert entry point;
    - [functions/embed-texts/main.py]   : the embedding proxy.

    Python [str] values are modelled by [string]; a character stands for a
    code point below 256.  Python [int] values are modelled by [Z].  A call
    that may raise or loop returns an [outcome]. *)

From Stdlib Require Import ZArith Ascii String List Lia Bool.
From stdpp Require Import base tactics option list strings gmap.

Local Open Scope string_scope.
Local Open Scope list_scope.
Local Open Scope Z_scope.

Set Warnings "-register-all".

(** ** Python strings *)

Module PyStr.

(** [str.isspace] on the code points below 256: TAB..CR, FS..US, SPACE,
    NEL (0x85) and NBSP (0xa0). *)
Definition is_space (c : ascii) : bool :=
  let n := nat_of_ascii c in
  ((9 <=? n)%nat && (n <=? 13)%nat)
  || ((28 <=? n)%nat && (n <=? 32)%nat)
  || (n =? 133)%nat || (n =? 160)%nat.

Definition starts_word (s : string) : bool :=
  match s with
  | String c _ => negb (is_space c)
  | EmptyString => false
  end.

(** [text.split()] with no separator: the maximal runs of characters that
    are not whitespace, in order. *)
Fixpoint split (s : string) : list string :=
  match s with
  | EmptyString => []
  | String c rest =>
      if is_space c then split rest
      else if starts_word rest then
             match split rest with
             | w :: ws => String c w :: ws
             | [] => [String c EmptyString]
             end
           else String c EmptyString :: split rest
  end.

(** [sep.join(parts)] *)
Fixpoint join (sep : string) (parts : list string) : string :=
  match parts with
  | [] => EmptyString
  | [w] => w
  | w :: ws => w +:+ sep +:+ join sep ws
  end.

(** [text[:n]] for [n >= 0] *)
Fixpoint prefix (n : nat) (s : string) : string :=
  match n, s with
  | S n', String c rest => String c (prefix n' rest)
  | _, _ => EmptyString
  end.

(** [str.lower] on the code points below 256: A-Z, and 0xC0-0xDE but for
    the multiplication sign 0xD7, move up by 32. *)
Definition lower_char (c : ascii) : ascii :=
  let n := nat_of_ascii c in
  if ((65 <=? n)%nat && (n <=? 90)%nat)
     || ((192 <=? n)%nat && (n <=? 222)%nat && negb (n =? 215)%nat)
  then ascii_of_nat (n + 32) else c.

Fixpoint lower (s : string) : string :=
  match s with
  | EmptyString => EmptyString
  | String c rest => String (lower_char c) (lower rest)
  end.

Fixpoint lstrip (s : string) : string :=
  match s with
  | String c rest => if is_space c then lstrip rest else s
  | EmptyString => EmptyString
  end.

Fixpoint all_space (s : string) : bool :=
  match s with
  | EmptyString => true
  | String c rest => is_space c && all_space rest
  end.

Fixpoint rstrip (s : string) : string :=
  match s with
  | EmptyString => EmptyString
  | String c rest => if all_space s then EmptyString else String c (rstrip rest)
  end.

(** [text.strip()] *)
Definition strip (s : string) : string := rstrip (lstrip s).

(** [text.split(",")]: the pieces between the separators, empty ones kept. *)
Fixpoint split_on (sep : ascii) (s : string) : list string :=
  match s with
  | EmptyString => [EmptyString]
  | String c rest =>
      if Ascii.eqb c sep then EmptyString :: split_on sep rest
      else match split_on sep rest with
           | w :: ws => String c w :: ws
           | [] => [String c EmptyString]
           end
  end.

(** [str(n)] for an integer *)
Definition digit (n : nat) : ascii := ascii_of_nat (48 + n).

Fixpoint str_pos_fuel (fuel : nat) (n : nat) (acc : string) : string :=
  match fuel with
  | O => acc
  | S f =>
      let acc' := String (digit (n mod 10)) acc in
      if (n <? 10)%nat then acc' else str_pos_fuel f (n / 10) acc'
  end.

Definition str_nat (n : nat) : string := str_pos_fuel (S n) n EmptyString.

Definition str_int (z : Z) : string :=
  if z <? 0 then String "-" (str_nat (Z.to_nat (- z))) else str_nat (Z.to_nat z).

End PyStr.

(** [seq[start:stop]] with Python's treatment of negative and
    out-of-range bounds. *)
Definition py_slice {A : Type} (l : list A) (start stop : Z) : list A :=
  let n := Z.of_nat (length l) in
  let norm i := if i <? 0 then Z.max (i + n) 0 else Z.min i n in
  let a := norm start in
  let b := norm stop in
  take (Z.to_nat (b - a)) (drop (Z.to_nat a) l).

(** ** Exceptions and outcomes *)

(** The exception classes the four modules raise, catch or let through.
    [utils.py] takes [retry] from tenacity, so an exhausted fetch raises
    tenacity's [RetryError], which carries [last_attempt]; [main.py] takes
    [RetryError] from [google.api_core.exceptions], a different class. *)
Inductive exn : Type :=
| HTTPError (status_code : option Z) (msg : string)
| RequestException (msg : string)
| TenacityRetryError (last_attempt : exn)
| GoogleRetryError (msg : string)
| RuntimeError (msg : string)
| ValueError (msg : string)
| KeyError (key : string)
| AttributeError (msg : string)
| OtherException (msg : string).

Inductive outcome (A : Type) : Type :=
| Returned (a : A)
| Raised (e : exn)
| Diverged.

Arguments Returned {A} a.
Arguments Raised {A} e.
Arguments Diverged {A}.

(** ** utils.py: chunking *)

Definition normalize_whitespace (text : string) : string :=
  PyStr.join " " (PyStr.split text).

(** The [while start < len(words)] loop of [chunk_text]; [fuel] bounds the
    number of iterations, and running out of it is [Diverged]. *)
Fixpoint chunk_loop (fuel : nat) (words : list string) (chunk_size step : Z)
    (start : Z) (chunks : list string) : outcome (list string) :=
  match fuel with
  | O => Diverged
  | S fuel' =>
      if start <? Z.of_nat (length words) then
        let end_ := Z.min (start + chunk_size) (Z.of_nat (length words)) in
        let chunk := PyStr.join " " (py_slice words start end_) in
        chunk_loop fuel' words chunk_size step (start + step) (chunks ++ [chunk])
      else Returned chunks
  end.

Definition chunk_text (fuel : nat) (text : string) (chunk_size overlap : Z)
    : outcome (list string) :=
  let words := PyStr.split text in
  match words with
  | [] => Returned []
  | _ => chunk_loop fuel words chunk_size (chunk_size - overlap) 0 []
  end.


(** ** Values exchanged with the outside *)

(** JSON values as [jsonify] and [get_json] see them.  A float is carried
    as its 64-bit pattern: the programs pass floats on and never compute
    on them. *)
Inductive json : Type :=
| JNull
| JBool (b : bool)
| JInt (z : Z)
| JFloat (bits : Z)
| JStr (s : string)
| JList (items : list json)
| JDict (fields : list (string * json)).

(** What a view function returns: [jsonify(body), status]; a bare
    [jsonify(body)] is status 200. *)
Record http_response : Type := mk_response {
  resp_body : json;
  resp_status : Z
}.

(** A parsed page: a [NavigableString] or a [Tag]. *)
Inductive node : Type :=
| Text (s : string)
| Tag (name : string) (attrs : list (string * string)) (children : list node).

(** The reply [requests.get] hands back. *)
Record response : Type := mk_origin_response {
  status_code : Z;
  reason : string;
  text : string
}.

Inductive get_result : Type :=
| GotResponse (r : response)
| GetFailed (e : exn).

Record section : Type := mk_section {
  sec_heading : string;
  sec_text : string
}.

Record extracted_page : Type := mk_page {
  title : string;
  paragraphs : list string;
  sections : list section;
  links : list string
}.

Record document : Type := mk_document {
  doc_id : string;
  doc_title : string;
  doc_url : string;
  doc_content : string;
  doc_section : string;
  doc_chunk_index : nat
}.

Inductive level : Type := INFO | WARNING | ERROR.

(** One call on a logger: [exc_info] is set by [logger.exception], which
    logs at ERROR with the exception being handled. *)
Record log_record : Type := mk_log {
  log_level : level;
  log_msg : string;
  log_args : list string;
  log_extra : list (string * json);
  log_exc_info : option exn
}.

(** The libraries and services the code calls into.  [requests_get n url]
    is the result of the [n]-th [requests.get] of the process, so an origin
    may answer differently from one attempt to the next. *)
Class World : Type := {
  environ : gmap string string;
  requests_get : nat -> string -> get_result;
  BeautifulSoup : string -> node;
  urljoin : string -> string -> string;
  uuid5_NAMESPACE_URL : string -> string;
  vertexai_init : string -> string -> option exn;
  from_pretrained : string -> option exn;
  get_embeddings : list json -> outcome (list (list Z))
}.

(** ** Stateful computations *)

(** The state of the ingestion process: requests issued so far, the log,
    the calls of [upsert_documents], the [_VERTEX_CLIENT_INITIALIZED] flag
    and the vector store (its classes, and its objects by uuid). *)
Record state : Type := mk_state {
  requests_made : nat;
  logged : list log_record;
  upsert_calls : list (list document);
  vertex_client_initialized : bool;
  store_classes : list string;
  store_objects : gmap string (document * list Z)
}.

Definition initial_state : state :=
  {| requests_made := 0; logged := []; upsert_calls := [];
     vertex_client_initialized := false; store_classes := [];
     store_objects := ∅ |}.

Definition M (A : Type) : Type := state -> outcome A * state.

Definition ret {A : Type} (a : A) : M A := fun st => (Returned a, st).

Definition raise {A : Type} (e : exn) : M A := fun st => (Raised e, st).

Definition bind {A B : Type} (m : M A) (k : A -> M B) : M B :=
  fun st =>
    match m st with
    | (Returned a, st') => k a st'
    | (Raised e, st') => (Raised e, st')
    | (Diverged, st') => (Diverged, st')
    end.

(** [try: m  except Exception as exc: handler exc]; a handler that does not
    match re-raises. *)
Definition try_except {A : Type} (m : M A) (handler : exn -> M A) : M A :=
  fun st =>
    match m st with
    | (Raised e, st') => handler e st'
    | r => r
    end.

Definition lift {A : Type} (o : outcome A) : M A := fun st => (o, st).

Notation "'let*' x := m 'in' k" := (bind m (fun x => k))
  (at level 10, x name, m at level 100, k at level 200).
Notation "m ;; k" := (bind m (fun _ => k))
  (at level 100, k at level 200, right associativity).

Definition add_log (r : log_record) (st : state) : state :=
  {| requests_made := requests_made st; logged := logged st ++ [r];
     upsert_calls := upsert_calls st;
     vertex_client_initialized := vertex_client_initialized st;
     store_classes := store_classes st;
     store_objects := store_objects st |}.

Definition count_request (st : state) : state :=
  {| requests_made := S (requests_made st); logged := logged st;
     upsert_calls := upsert_calls st;
     vertex_client_initialized := vertex_client_initialized st;
     store_classes := store_classes st;
     store_objects := store_objects st |}.

Definition emit (r : log_record) : M unit :=
  fun st => (Returned tt, add_log r st).

Definition logger_info (msg : string) (args : list string)
    (extra : list (string * json)) : M unit :=
  emit (mk_log INFO msg args extra None).

Definition logger_warning (msg : string) (args : list string)
    (extra : list (string * json)) : M unit :=
  emit (mk_log WARNING msg args extra None).

Definition logger_error (msg : string) (args : list string) : M unit :=
  emit (mk_log ERROR msg args [] None).

Definition logger_exception (exc : exn) (msg : string)
    (extra : list (string * json)) : M unit :=
  emit (mk_log ERROR msg [] extra (Some exc)).

(** Exception classes and what the handlers read off an exception. *)
Definition class_name (e : exn) : string :=
  match e with
  | HTTPError _ _ => "HTTPError"
  | RequestException _ => "RequestException"
  | TenacityRetryError _ => "RetryError"
  | GoogleRetryError _ => "RetryError"
  | RuntimeError _ => "RuntimeError"
  | ValueError _ => "ValueError"
  | KeyError _ => "KeyError"
  | AttributeError _ => "AttributeError"
  | OtherException _ => "Exception"
  end.

(** [str(exc)].  For tenacity's error the text is
    [RetryError[<Future ... raised Cls>]]; the address printed for the
    future is left out. *)
Definition str_exn (e : exn) : string :=
  match e with
  | HTTPError _ msg => msg
  | RequestException msg => msg
  | TenacityRetryError last =>
      "RetryError[<Future state=finished raised " +:+ class_name last +:+ ">]"
  | GoogleRetryError msg => msg
  | RuntimeError msg => msg
  | ValueError msg => msg
  | KeyError key => "'" +:+ key +:+ "'"
  | AttributeError msg => msg
  | OtherException msg => msg
  end.

(** [isinstance(exc, google.api_core.exceptions.RetryError)] *)
Definition is_google_RetryError (e : exn) : bool :=
  match e with GoogleRetryError _ => true | _ => false end.

(** [isinstance(exc, requests.exceptions.HTTPError)] *)
Definition is_HTTPError (e : exn) : bool :=
  match e with HTTPError _ _ => true | _ => false end.

(** [isinstance(exc, requests.exceptions.RequestException)]; [HTTPError]
    is one of its subclasses. *)
Definition is_RequestException (e : exn) : bool :=
  match e with HTTPError _ _ | RequestException _ => true | _ => false end.

(** [getattr(exc, "last_attempt", None)], already asked for its
    [.exception()]: only tenacity's error has the attribute. *)
Definition last_attempt_exception (e : exn) : option exn :=
  match e with TenacityRetryError last => Some last | _ => None end.

(** ** utils.py *)

Module Utils.

Section WithWorld.
Context {W : World}.

(** [get_env(name, default, required)]: [os.getenv] with the check on a
    required value. *)
Definition get_env (name : string) (default : option string)
    (required : bool) : outcome (option string) :=
  let value := match environ !! name with
               | Some v => Some v
               | None => default
               end in
  match value with
  | None =>
      if required
      then Raised (RuntimeError ("Missing required environment variable: " +:+ name))
      else Returned None
  | Some v =>
      if required && String.eqb v ""
      then Raised (RuntimeError ("Missing required environment variable: " +:+ name))
      else Returned (Some v)
  end.

(** [article.descendants]: every node below, in document order. *)
Fixpoint descendants (n : node) : list node :=
  match n with
  | Text _ => []
  | Tag _ _ children => flat_map (fun c => c :: descendants c) children
  end.

(** [elem.get_text()]: the strings below, concatenated. *)
Fixpoint get_text (n : node) : string :=
  match n with
  | Text s => s
  | Tag _ _ children =>
      fold_right (fun c acc => get_text c +:+ acc) EmptyString children
  end.

(** [elem.name]; a string has none. *)
Definition node_name (n : node) : option string :=
  match n with
  | Text _ => None
  | Tag name _ _ => Some name
  end.

Definition has_name (name : string) (n : node) : bool :=
  match node_name n with
  | Some m => String.eqb m name
  | None => false
  end.

(** [soup.find(name)]: the first tag of that name, in document order. *)
Definition find (name : string) (soup : node) : option node :=
  List.find (has_name name) (descendants soup).

Definition is_heading (n : node) : bool :=
  has_name "h1" n || has_name "h2" n || has_name "h3" n.

(** The variables of the loop over [article.descendants]. *)
Record walk : Type := mk_walk {
  current_heading : string;
  w_headings : list string;
  w_paragraphs : list string;
  w_sections : list section
}.

Definition walk_step (w : walk) (elem : node) : walk :=
  if is_heading elem then
    let h := normalize_whitespace (get_text elem) in
    mk_walk h (w_headings w ++ [h]) (w_paragraphs w) (w_sections w)
  else if has_name "p" elem then
    let t := normalize_whitespace (get_text elem) in
    if String.eqb t "" then w
    else mk_walk (current_heading w) (w_headings w)
           (w_paragraphs w ++ [t])
           (w_sections w ++ [mk_section (current_heading w) t])
  else w.

(** [a.get("href")] *)
Fixpoint get_attr (key : string) (attrs : list (string * string)) : option string :=
  match attrs with
  | [] => None
  | (k, v) :: rest => if String.eqb k key then Some v else get_attr key rest
  end.

Definition extract_text_from_html (markup : string) (base_url : string)
    : extracted_page :=
  let soup := BeautifulSoup markup in
  let title_tag := find "h1" soup in
  let title := match title_tag with
               | Some t => normalize_whitespace (get_text t)
               | None => "Untitled"
               end in
  let article := match find "article" soup with
                 | Some a => Some a
                 | None => find "body" soup
                 end in
  let w := match article with
           | Some a => fold_left walk_step (descendants a)
                         (mk_walk title [] [] [])
           | None => mk_walk title [] [] []
           end in
  let links :=
    omap (fun a => match a with
                   | Tag name attrs _ =>
                       if String.eqb name "a"
                       then urljoin base_url <$> get_attr "href" attrs
                       else None
                   | Text _ => None
                   end) (descendants soup) in
  mk_page title (w_paragraphs w) (w_sections w) links.

(** [response.raise_for_status()] *)
Definition raise_for_status (url : string) (r : response) : option exn :=
  if (400 <=? status_code r) && (status_code r <? 500) then
    Some (HTTPError (Some (status_code r))
            (PyStr.str_int (status_code r) +:+ " Client Error: " +:+ reason r
             +:+ " for url: " +:+ url))
  else if (500 <=? status_code r) && (status_code r <? 600) then
    Some (HTTPError (Some (status_code r))
            (PyStr.str_int (status_code r) +:+ " Server Error: " +:+ reason r
             +:+ " for url: " +:+ url))
  else None.

Definition do_request (url : string) : M get_result :=
  fun st => (Returned (requests_get (requests_made st) url), count_request st).

(** The body of [fetch_url]: one attempt. *)
Definition fetch_url_once (url : string) : M (option string) :=
  let* got := do_request url in
  match got with
  | GetFailed e => raise e
  | GotResponse r =>
      if status_code r =? 404 then
        logger_warning "URL %s 404 döndü, atlanıyor." [url] [] ;;
        ret None
      else
        match raise_for_status url r with
        | Some e => raise e
        | None => ret (Some (text r))
        end
  end.

(** The [@retry] decorator: an attempt that raises is made again, and when
    [attempts] of them have raised, tenacity raises its [RetryError] holding
    the last one.  The waits between attempts take time only. *)
Fixpoint retrying (attempts : nat) (url : string) : M (option string) :=
  match attempts with
  | O => raise (OtherException "no attempt")
  | S remaining =>
      try_except (fetch_url_once url)
        (fun e =>
           match remaining with
           | O => raise (TenacityRetryError e)
           | S _ => retrying remaining url
           end)
  end.

Definition stop_after_attempt : nat := 5.

Definition fetch_url (url : string) : M (option string) :=
  retrying stop_after_attempt url.

(** The documents of one page: the [for idx, chunk in enumerate(chunks)]
    loop, from index [idx] on. *)
Fixpoint assemble (url : string) (parsed : extracted_page) (idx : nat)
    (chunks : list string) : list document :=
  match chunks with
  | [] => []
  | chunk :: rest =>
      let doc_uuid_source :=
        url +:+ "-" +:+ PyStr.str_nat idx +:+ "-" +:+ PyStr.prefix 100 chunk in
      let doc_id := uuid5_NAMESPACE_URL doc_uuid_source in
      let heading := match sections parsed !! idx with
                     | Some s => sec_heading s
                     | None => title parsed
                     end in
      mk_document doc_id (title parsed) url chunk heading idx
        :: assemble url parsed (S idx) rest
  end.

Fixpoint prepare_loop (fuel : nat) (urls : list string)
    (chunk_size overlap : Z) (documents : list document) : M (list document) :=
  match urls with
  | [] => ret documents
  | url :: rest =>
      let* html := fetch_url url in
      match html with
      | None =>
          logger_info "URL %s ingest listesinde atlandı." [url] [] ;;
          prepare_loop fuel rest chunk_size overlap documents
      | Some markup =>
          let parsed := extract_text_from_html markup url in
          let full_text := PyStr.join " " (paragraphs parsed) in
          let* chunks := lift (chunk_text fuel full_text chunk_size overlap) in
          prepare_loop fuel rest chunk_size overlap
            (documents ++ assemble url parsed 0 chunks)
      end
  end.

Definition prepare_documents (fuel : nat) (urls : list string)
    (chunk_size overlap : Z) : M (list document) :=
  prepare_loop fuel urls chunk_size overlap [].

End WithWorld.

End Utils.

(** ** Python built-ins used by the endpoints *)

(** [int(text)] on a string: surrounding whitespace, a sign, decimal
    digits, single underscores between digits.  The text the [ValueError]
    shows quotes the argument without escaping it. *)
Fixpoint parse_digits (s : string) (acc : Z) (after_digit : bool) : option Z :=
  match s with
  | EmptyString => if after_digit then Some acc else None
  | String c rest =>
      let n := nat_of_ascii c in
      if (48 <=? n)%nat && (n <=? 57)%nat
      then parse_digits rest (10 * acc + Z.of_nat (n - 48)) true
      else if Ascii.eqb c "_" && after_digit then parse_digits rest acc false
      else None
  end.

Definition py_int (s : string) : outcome Z :=
  let body := PyStr.strip s in
  let parsed :=
    match body with
    | String "-" rest => Z.opp <$> parse_digits rest 0 false
    | String "+" rest => parse_digits rest 0 false
    | _ => parse_digits body 0 false
    end in
  match parsed with
  | Some z => Returned z
  | None =>
      Raised (ValueError ("invalid literal for int() with base 10: '" +:+ s +:+ "'"))
  end.

(** [bool(value)] on a JSON value: [None], [False], zero, and the empty
    string, list and dict are false. *)
Definition truthy (v : json) : bool :=
  match v with
  | JNull => false
  | JBool b => b
  | JInt z => negb (z =? 0)
  | JFloat bits => negb ((bits =? 0) || (bits =? 2 ^ 63))
  | JStr s => negb (String.eqb s "")
  | JList items => match items with [] => false | _ => true end
  | JDict fields => match fields with [] => false | _ => true end
  end.

(** A [dict] with string keys and values, in insertion order.
    [d[k] = v] keeps the place of a key already there. *)
Fixpoint dict_set (k v : string) (d : list (string * string))
    : list (string * string) :=
  match d with
  | [] => [(k, v)]
  | (k', v') :: rest =>
      if String.eqb k' k then (k', v) :: rest else (k', v') :: dict_set k v rest
  end.

Fixpoint dict_get {V : Type} (k : string) (d : list (string * V)) : option V :=
  match d with
  | [] => None
  | (k', v) :: rest => if String.eqb k' k then Some v else dict_get k rest
  end.

(** A Flask request: its headers as (name, value) pairs, and what
    [get_json(force=True)] makes of the body ([None] when it raises). *)
Record request : Type := mk_request {
  headers : list (string * string);
  body_json : option json
}.

(** [dict(request.headers)] *)
Definition dict_of_headers (hs : list (string * string)) : list (string * string) :=
  fold_left (fun d kv => dict_set kv.1 kv.2 d) hs [].

(** [request.headers.get(name)]: header names compare without case. *)
Fixpoint headers_get (name : string) (hs : list (string * string)) : option string :=
  match hs with
  | [] => None
  | (k, v) :: rest =>
      if String.eqb (PyStr.lower k) (PyStr.lower name) then Some v
      else headers_get name rest
  end.

Definition option_string_eqb (a b : option string) : bool :=
  match a, b with
  | Some x, Some y => String.eqb x y
  | None, None => true
  | _, _ => false
  end.

(** ** vectorstore.py *)

Module Vectorstore.

Section WithWorld.
Context {W : World}.

Definition set_vertex_initialized : M unit :=
  fun st =>
    (Returned tt,
     {| requests_made := requests_made st; logged := logged st;
        upsert_calls := upsert_calls st;
        vertex_client_initialized := true;
        store_classes := store_classes st;
        store_objects := store_objects st |}).

(** The credentials file, when there is one, is read by [vertexai_init]'s
    caller; both branches end in the same call. *)
Definition init_vertex_client : M unit :=
  fun st =>
    if vertex_client_initialized st then (Returned tt, st)
    else
      (let* project_id := lift (Utils.get_env "VERTEX_PROJECT_ID" None true) in
       let* location := lift (Utils.get_env "VERTEX_LOCATION" None true) in
       match vertexai_init (default "" project_id) (default "" location) with
       | Some e => raise e
       | None => set_vertex_initialized
       end) st.

Definition build_embeddings (texts : list string) : M (list (list Z)) :=
  init_vertex_client ;;
  match from_pretrained "text-embedding-004" with
  | Some e => raise e
  | None => lift (get_embeddings (JStr <$> texts))
  end.

Definition init_weaviate_client : M (string * string) :=
  let* endpoint := lift (Utils.get_env "WEAVIATE_ENDPOINT" None true) in
  let* api_key := lift (Utils.get_env "WEAVIATE_API_KEY" None true) in
  ret (default "" endpoint, default "" api_key).

Definition ensure_schema : M unit :=
  fun st =>
    if bool_decide ("StripeDocPage" ∈ store_classes st) then (Returned tt, st)
    else
      (Returned tt,
       {| requests_made := requests_made st; logged := logged st;
          upsert_calls := upsert_calls st;
          vertex_client_initialized := vertex_client_initialized st;
          store_classes := store_classes st ++ ["StripeDocPage"];
          store_objects := store_objects st |}).

Definition add_data_object (doc : document) (vector : list Z) : M unit :=
  fun st =>
    (Returned tt,
     {| requests_made := requests_made st; logged := logged st;
        upsert_calls := upsert_calls st;
        vertex_client_initialized := vertex_client_initialized st;
        store_classes := store_classes st;
        store_objects := <[doc_id doc := (doc, vector)]> (store_objects st) |}).

Fixpoint add_all (pairs : list (document * list Z)) : M unit :=
  match pairs with
  | [] => ret tt
  | (doc, vector) :: rest => add_data_object doc vector ;; add_all rest
  end.

Definition add_upsert_call (documents : list document) (st : state) : state :=
  {| requests_made := requests_made st; logged := logged st;
     upsert_calls := upsert_calls st ++ [documents];
     vertex_client_initialized := vertex_client_initialized st;
     store_classes := store_classes st;
     store_objects := store_objects st |}.

Definition note_upsert_call (documents : list document) : M unit :=
  fun st => (Returned tt, add_upsert_call documents st).

(** Every call is noted in [upsert_calls], also the one that returns at
    once on an empty list. *)
Definition upsert_documents (documents : list document) : M unit :=
  note_upsert_call documents ;;
  match documents with
  | [] => ret tt
  | _ =>
      init_weaviate_client ;;
      ensure_schema ;;
      let* embeddings := build_embeddings (doc_content <$> documents) in
      add_all (zip documents embeddings)
  end.

End WithWorld.

End Vectorstore.

(** ** rag_poc_function/main.py *)

Module Main.

Definition REDACTED : string := "***REDACTED***".

Definition is_sensitive (lowered : string) : bool :=
  String.eqb lowered "authorization" || String.eqb lowered "x-ingest-token".

(** The loop of [_redact_headers] over [headers.items()], filling
    [redacted]. *)
Definition redact_step (redacted : list (string * string))
    (item : string * string) : list (string * string) :=
  let lowered := PyStr.lower item.1 in
  if is_sensitive lowered then dict_set item.1 REDACTED redacted
  else dict_set item.1 item.2 redacted.

Definition _redact_headers (hs : list (string * string)) : list (string * string) :=
  fold_left redact_step hs [].

Definition _unwrap_retry_http_error (exc : exn) : option exn :=
  match last_attempt_exception exc with
  | None => None
  | Some root_exc => if is_HTTPError root_exc then Some root_exc else None
  end.

Record skip_record : Type := mk_skip {
  skip_url : string;
  skip_status : string
}.

Definition skip_json (s : skip_record) : json :=
  JDict [("url", JStr (skip_url s)); ("status", JStr (skip_status s))].

Definition option_json (o : option string) : json :=
  match o with
  | Some s => JStr s
  | None => JNull
  end.

Definition _skip_url (url status : string) (detail : option string) : M skip_record :=
  logger_warning "URL skipped" []
    [("url", JStr url); ("status", JStr status); ("detail", option_json detail)] ;;
  ret (mk_skip url status).

(** [exc.response.status_code == 404] for an [HTTPError] with a response *)
Definition is_404 (e : exn) : bool :=
  match e with
  | HTTPError (Some code) _ => code =? 404
  | _ => false
  end.

Definition newline : string := String (ascii_of_nat 10) EmptyString.

(** [traceback.format_exception]: the frames are left out, the closing
    line is kept. *)
Definition format_exception (e : exn) : string :=
  class_name e +:+ ": " +:+ str_exn e +:+ newline.

Section WithWorld.
Context {W : World}.

(** A required variable read with [get_env(name)]. *)
Definition get_env_required (name : string) : M string :=
  let* value := lift (Utils.get_env name None true) in
  match value with
  | Some v => ret v
  | None => raise (AttributeError "'NoneType' object")
  end.

(** The handlers around one [prepare_documents([url], ...)]. *)
Definition on_prepare_error (url : string) (all_documents : list document)
    (skipped_urls : list skip_record) (exc : exn)
    : M (list document * list skip_record) :=
  if is_google_RetryError exc then
    match _unwrap_retry_http_error exc with
    | Some http_error =>
        if is_404 http_error then
          let* rec := _skip_url url "404" (Some (str_exn http_error)) in
          ret (all_documents, skipped_urls ++ [rec])
        else
          logger_exception exc "RetryError raised during document preparation"
            [("url", JStr url)] ;;
          raise exc
    | None =>
        logger_exception exc "RetryError raised during document preparation"
          [("url", JStr url)] ;;
        raise exc
    end
  else if is_HTTPError exc then
    if is_404 exc then
      let* rec := _skip_url url "404" (Some (str_exn exc)) in
      ret (all_documents, skipped_urls ++ [rec])
    else
      logger_exception exc "HTTPError raised during document preparation"
        [("url", JStr url);
         ("status_code", match exc with
                         | HTTPError (Some code) _ => JInt code
                         | _ => JStr "unknown"
                         end)] ;;
      raise exc
  else if is_RequestException exc then
    logger_exception exc "RequestException raised during document preparation"
      [("url", JStr url)] ;;
    raise exc
  else raise exc.

(** [for url in urls: try: ... except ...] *)
Fixpoint ingest_loop (fuel : nat) (urls : list string) (chunk_size overlap : Z)
    (all_documents : list document) (skipped_urls : list skip_record)
    : M (list document * list skip_record) :=
  match urls with
  | [] => ret (all_documents, skipped_urls)
  | url :: rest =>
      let* acc :=
        try_except
          (let* docs := Utils.prepare_documents fuel [url] chunk_size overlap in
           logger_info "Prepared documents for URL" []
             [("url", JStr url);
              ("document_count", JInt (Z.of_nat (length docs)))] ;;
           ret (all_documents ++ docs, skipped_urls))
          (on_prepare_error url all_documents skipped_urls) in
      ingest_loop fuel rest chunk_size overlap acc.1 acc.2
  end.

Definition parse_urls (urls_csv : string) : list string :=
  PyStr.strip <$>
    filter (fun url => PyStr.strip url <> "") (PyStr.split_on "," urls_csv).

(** The end of the [try] block, once the loop over the URLs is through:
    the all-skipped answer, or the upsert and the [ok] answer. *)
Definition respond (all_documents : list document)
    (skipped_urls : list skip_record) : M http_response :=
  match all_documents, skipped_urls with
  | [], _ :: _ =>
      logger_warning
        "No documents ingested; every URL failed and was skipped" []
        [("skipped_count", JInt (Z.of_nat (length skipped_urls)))] ;;
      ret (mk_response
             (JDict [("status", JStr "skipped"); ("ingested", JInt 0);
                     ("skipped", JList (skip_json <$> skipped_urls))])
             207)
  | _, _ =>
      logger_info "Upserting documents" []
        [("document_count", JInt (Z.of_nat (length all_documents)));
         ("skipped_count", JInt (Z.of_nat (length skipped_urls)))] ;;
      Vectorstore.upsert_documents all_documents ;;
      logger_info "Ingestion completed successfully" []
        [("ingested_documents", JInt (Z.of_nat (length all_documents)));
         ("skipped_urls", JList (skip_json <$> skipped_urls))] ;;
      ret (mk_response
             (JDict [("status", JStr "ok");
                     ("ingested", JInt (Z.of_nat (length all_documents)));
                     ("skipped", JList (skip_json <$> skipped_urls))])
             200)
  end.

(** The [try] block of [ingest_stripe_docs]. *)
Definition ingest_body (fuel : nat) (req : request) : M http_response :=
  let auth_header := headers_get "X-Ingest-Token" (headers req) in
  let* expected_token := lift (Utils.get_env "INGEST_FUNCTION_TOKEN" None false) in
  if truthy (option_json expected_token)
     && negb (option_string_eqb auth_header expected_token)
  then
    logger_warning "Unauthorized request: missing or invalid X-Ingest-Token" [] [] ;;
    ret (mk_response (JDict [("error", JStr "Unauthorized")]) 401)
  else
    let* urls_csv := get_env_required "STRIPE_DOC_URLS" in
    let* chunk_size_text := get_env_required "CHUNK_SIZE" in
    let* chunk_size := lift (py_int chunk_size_text) in
    let* overlap_text := get_env_required "CHUNK_OVERLAP" in
    let* overlap := lift (py_int overlap_text) in
    let urls := parse_urls urls_csv in
    match urls with
    | [] =>
        logger_warning "No URLs provided after parsing STRIPE_DOC_URLS env" [] [] ;;
        ret (mk_response (JDict [("error", JStr "No URLs provided")]) 400)
    | _ =>
        logger_info "Preparing documents" []
          [("url_count", JInt (Z.of_nat (length urls)));
           ("chunk_size", JInt chunk_size); ("overlap", JInt overlap)] ;;
        let* acc := ingest_loop fuel urls chunk_size overlap [] [] in
        respond acc.1 acc.2
    end.

(** The two handlers that close the [try] block. *)
Definition on_ingest_error (exc : exn) : M http_response :=
  if is_google_RetryError exc then
    logger_exception exc "RetryError raised during document ingestion" [] ;;
    match last_attempt_exception exc with
    | Some root_exc =>
        logger_error "Underlying exception for RetryError: %s" [str_exn root_exc] ;;
        logger_error ("Underlying traceback:" +:+ newline +:+ "%s")
          [format_exception root_exc]
    | None => ret tt
    end ;;
    ret (mk_response
           (JDict [("error", JStr "RetryError"); ("details", JStr (str_exn exc))])
           500)
  else
    logger_exception exc "Unhandled exception during ingestion" [] ;;
    ret (mk_response (JDict [("error", JStr (str_exn exc))]) 500).

Definition headers_json (d : list (string * string)) : json :=
  JDict ((fun kv => (kv.1, JStr kv.2)) <$> d).

Definition ingest_stripe_docs (fuel : nat) (req : request) : M http_response :=
  logger_info "Ingest request received" []
    [("headers", headers_json (_redact_headers (dict_of_headers (headers req))))] ;;
  try_except (ingest_body fuel req) on_ingest_error.

End WithWorld.

End Main.

(** ** functions/embed-texts/main.py *)

Module EmbedTexts.

Section WithWorld.
Context {W : World}.

(** The module keeps [vertex_client_initialized]; [embedding_model] is set
    exactly when the flag is.  A computation takes the flag and returns it. *)
Definition init_vertex_client (initialized : bool) : outcome unit * bool :=
  if initialized then (Returned tt, initialized)
  else
    match environ !! "VERTEX_PROJECT_ID" with
    | None => (Raised (KeyError "VERTEX_PROJECT_ID"), initialized)
    | Some project_id =>
        match environ !! "VERTEX_LOCATION" with
        | None => (Raised (KeyError "VERTEX_LOCATION"), initialized)
        | Some location =>
            match vertexai_init project_id location with
            | Some e => (Raised e, initialized)
            | None =>
                match from_pretrained "text-embedding-004" with
                | Some e => (Raised e, initialized)
                | None => (Returned tt, true)
                end
            end
        end
    end.

(** [payload.get("texts")]: only a dict has [get]. *)
Definition payload_get (payload : json) (key : string) : outcome json :=
  match payload with
  | JDict fields => Returned (default JNull (dict_get key fields))
  | _ => Raised (AttributeError "object has no attribute 'get'")
  end.

Definition is_list (v : json) : bool :=
  match v with JList _ => true | _ => false end.

Definition list_items (v : json) : list json :=
  match v with JList items => items | _ => [] end.

Definition vectors_json (vectors : list (list Z)) : json :=
  JList ((fun values => JList (JFloat <$> values)) <$> vectors).

(** [embed], after [init_vertex_client()] has returned. *)
Definition embed_checked (req : request) : outcome http_response :=
  let token := headers_get "X-Internal-Token" (headers req) in
  let expected := environ !! "EMBED_FUNCTION_TOKEN" in
  if truthy (Main.option_json expected) && negb (option_string_eqb token expected)
  then Returned (mk_response (JDict [("error", JStr "Unauthorized")]) 401)
  else
    match body_json req with
    | None => Returned (mk_response (JDict [("error", JStr "Invalid JSON payload")]) 400)
    | Some payload =>
        match payload_get payload "texts" with
        | Raised e => Raised e
        | Diverged => Diverged
        | Returned texts =>
            if negb (truthy texts) || negb (is_list texts)
            then Returned (mk_response
                             (JDict [("error", JStr "Missing 'texts' array")]) 400)
            else
              match get_embeddings (list_items texts) with
              | Raised e => Raised e
              | Diverged => Diverged
              | Returned vectors =>
                  Returned (mk_response
                              (JDict [("embeddings", vectors_json vectors)]) 200)
              end
        end
    end.

Definition embed (req : request) (initialized : bool)
    : outcome http_response * bool :=
  match init_vertex_client initialized with
  | (Returned _, initialized') => (embed_checked req, initialized')
  | (Raised e, initialized') => (Raised e, initialized')
  | (Diverged, initialized') => (Diverged, initialized')
  end.

(** A process serving requests one after the other, from a cold start. *)
Fixpoint serve (reqs : list request) (initialized : bool)
    : list (outcome http_response) :=
  match reqs with
  | [] => []
  | req :: rest =>
      let r := embed req initialized in
      r.1 :: serve rest r.2
  end.

End WithWorld.

End EmbedTexts.

(** ** Vocabulary of the theorems *)

(** A word: not empty, and free of whitespace. *)
Fixpoint no_space (s : string) : bool :=
  match s with
  | EmptyString => true
  | String c rest => negb (PyStr.is_space c) && no_space rest
  end.

Definition is_word (w : string) : Prop := w <> EmptyString /\ no_space w = true.

(** The text ["0 1 2 ..."] of [n] words. *)
Definition numbered_words (n : nat) : string :=
  PyStr.join " " (PyStr.str_nat <$> seq 0 n).

(** Two names are the same header name when they agree once lowered. *)
Definition same_name (a b : string) : Prop := PyStr.lower a = PyStr.lower b.

Definition redact_item (item : string * string) : string * string :=
  (item.1, if Main.is_sensitive (PyStr.lower item.1) then Main.REDACTED else item.2).

(** Following the spec's words for a chunk's section, "the nearest
    preceding heading text at the point the chunk's underlying paragraph
    appears": the heading current at the paragraph that holds word number
    [k] of the page's text. *)
Fixpoint heading_of_word (secs : list section) (k : nat) : option string :=
  match secs with
  | [] => None
  | s :: rest =>
      let n := length (PyStr.split (sec_text s)) in
      if (k <? n)%nat then Some (sec_heading s)
      else heading_of_word rest (k - n)
  end.

(** The seed of a chunk's identifier. *)
Definition uuid_seed (url : string) (idx : nat) (chunk : string) : string :=
  url +:+ "-" +:+ PyStr.str_nat idx +:+ "-" +:+ PyStr.prefix 100 chunk.

(** The section label [prepare_documents] gives the chunk at [idx]. *)
Definition section_label (parsed : extracted_page) (idx : nat) : string :=
  match sections parsed !! idx with
  | Some s => sec_heading s
  | None => title parsed
  end.

(** *** Worlds to run the code in *)

Definition demo_page : node :=
  Tag "[document]" []
    [Tag "html" []
       [Tag "body" []
          [Tag "h1" [] [Text "Billing"];
           Tag "h2" [] [Text "A"];
           Tag "p" [] [Text "w1 w2 w3 w4"];
           Tag "h2" [] [Text "B"];
           Tag "p" [] [Text "x1 x2"]]]].

Definition demo_environ : gmap string string :=
  list_to_map
    [("STRIPE_DOC_URLS", "https://a, https://b");
     ("CHUNK_SIZE", "2"); ("CHUNK_OVERLAP", "0");
     ("WEAVIATE_ENDPOINT", "https://store"); ("WEAVIATE_API_KEY", "key");
     ("VERTEX_PROJECT_ID", "project"); ("VERTEX_LOCATION", "region")].

Definition demo_world (env : gmap string string)
    (origin : nat -> string -> get_result) : World :=
  {| environ := env;
     requests_get := origin;
     BeautifulSoup := fun _ => demo_page;
     urljoin := fun _ href => href;
     uuid5_NAMESPACE_URL := fun name => "uuid5:" +:+ name;
     vertexai_init := fun _ _ => None;
     from_pretrained := fun _ => None;
     get_embeddings := fun items => Returned ((fun _ => [0]) <$> items) |}.

Definition origin_404 : nat -> string -> get_result :=
  fun _ _ => GotResponse (mk_origin_response 404 "Not Found" "").

Definition origin_500 : nat -> string -> get_result :=
  fun _ _ => GotResponse (mk_origin_response 500 "Internal Server Error" "").

Definition origin_ok : nat -> string -> get_result :=
  fun _ _ => GotResponse (mk_origin_response 200 "OK" "<html>").

(** [https://a] is not found, every other page is served. *)
Definition origin_mixed : nat -> string -> get_result :=
  fun _ url =>
    if String.eqb url "https://a"
    then GotResponse (mk_origin_response 404 "Not Found" "")
    else GotResponse (mk_origin_response 200 "OK" "<html>").

Definition demo_doc2 : document :=
  mk_document "uuid5:https://a-2-x1 x2" "Billing" "https://a" "x1 x2" "Billing" 2.

(** *** The conditions the endpoint theorems speak of *)

Section Conditions.
Context {W : World}.

(** The request passes the token check of [ingest_stripe_docs]: no token is
    configured, or an empty one, or the header carries it. *)
Definition authorized (req : request) : Prop :=
  match environ !! "INGEST_FUNCTION_TOKEN" with
  | None => True
  | Some token =>
      token = "" \/ headers_get "X-Ingest-Token" (headers req) = Some token
  end.

(** The environment holds a URL list that parses to [urls], not empty, and
    a chunk size and an overlap that [int] reads. *)
Definition configured (urls : list string) (chunk_size overlap : Z) : Prop :=
  exists urls_csv size_text overlap_text,
    environ !! "STRIPE_DOC_URLS" = Some urls_csv
    /\ Main.parse_urls urls_csv = urls /\ urls <> []
    /\ environ !! "CHUNK_SIZE" = Some size_text
    /\ py_int size_text = Returned chunk_size
    /\ environ !! "CHUNK_OVERLAP" = Some overlap_text
    /\ py_int overlap_text = Returned overlap.

(** The origin answers 404. *)
Definition not_found (g : get_result) : Prop :=
  match g with
  | GotResponse r => status_code r = 404
  | GetFailed _ => False
  end.

(** What one attempt of [fetch_url] raises on the result of its request. *)
Definition attempt_error (url : string) (g : get_result) : option exn :=
  match g with
  | GetFailed e => Some e
  | GotResponse r =>
      if status_code r =? 404 then None else Utils.raise_for_status url r
  end.

End Conditions.

(** The log records of the ingestion run. *)
Definition log_received (req : request) : log_record :=
  mk_log INFO "Ingest request received" []
    [("headers",
      Main.headers_json (Main._redact_headers (dict_of_headers (headers req))))]
    None.

Definition log_preparing (urls : list string) (chunk_size overlap : Z) : log_record :=
  mk_log INFO "Preparing documents" []
    [("url_count", JInt (Z.of_nat (length urls)));
     ("chunk_size", JInt chunk_size); ("overlap", JInt overlap)] None.

Definition log_404 (url : string) : log_record :=
  mk_log WARNING "URL %s 404 döndü, atlanıyor." [url] [] None.

Definition log_left_out (url : string) : log_record :=
  mk_log INFO "URL %s ingest listesinde atlandı." [url] [] None.

Definition log_prepared (url : string) (count : nat) : log_record :=
  mk_log INFO "Prepared documents for URL" []
    [("url", JStr url); ("document_count", JInt (Z.of_nat count))] None.

Definition log_unhandled (exc : exn) : log_record :=
  mk_log ERROR "Unhandled exception during ingestion" [] [] (Some exc).

Definition log_upserting (documents skipped : nat) : log_record :=
  mk_log INFO "Upserting documents" []
    [("document_count", JInt (Z.of_nat documents));
     ("skipped_count", JInt (Z.of_nat skipped))] None.

Definition log_completed (documents : nat) (skipped : list Main.skip_record)
    : log_record :=
  mk_log INFO "Ingestion completed successfully" []
    [("ingested_documents", JInt (Z.of_nat documents));
     ("skipped_urls", JList (Main.skip_json <$> skipped))] None.

(** The answers of the endpoint. *)
Definition ok_response (ingested : nat) (skipped : list Main.skip_record)
    : http_response :=
  mk_response
    (JDict [("status", JStr "ok"); ("ingested", JInt (Z.of_nat ingested));
            ("skipped", JList (Main.skip_json <$> skipped))])
    200.

Definition skipped_response (skipped : list Main.skip_record) : http_response :=
  mk_response
    (JDict [("status", JStr "skipped"); ("ingested", JInt 0);
            ("skipped", JList (Main.skip_json <$> skipped))])
    207.

Definition retry_error_response (details : string) : http_response :=
  mk_response (JDict [("error", JStr "RetryError"); ("details", JStr details)]) 500.

Definition error_response (message : string) : http_response :=
  mk_response (JDict [("error", JStr message)]) 500.

(** The state after [n] more requests. *)
Fixpoint count_requests (n : nat) (st : state) : state :=
  match n with
  | O => st
  | S n' => count_requests n' (count_request st)
  end.


(** From [st] to [st'] the run wrote no ERROR record and called
    [upsert_documents] not once. *)
Definition extends_quietly (st st' : state) : Prop :=
  upsert_calls st' = upsert_calls st
  /\ exists new, logged st' = logged st ++ new
                 /\ Forall (fun r => log_level r <> ERROR) new.

(** *** The conditions the proxy theorems speak of *)

Section ProxyConditions.
Context {W : World}.

(** The request passes the token check of [embed]. *)
Definition embed_authorized (req : request) : Prop :=
  match environ !! "EMBED_FUNCTION_TOKEN" with
  | None => True
  | Some token =>
      token = "" \/ headers_get "X-Internal-Token" (headers req) = Some token
  end.

(** The [texts] field is absent, or not a list, or the empty list. *)
Definition texts_missing (fields : list (string * json)) : Prop :=
  dict_get "texts" fields = None
  \/ (exists v, dict_get "texts" fields = Some v /\ EmbedTexts.is_list v = false)
  \/ dict_get "texts" fields = Some (JList []).

End ProxyConditions.

(** The [texts] field of a parsed body; a body that is not a JSON object
    has none. *)
Definition texts_field (payload : json) : option json :=
  match payload with
  | JDict fields => dict_get "texts" fields
  | _ => None
  end.

Definition invalid_json_response : http_response :=
  mk_response (JDict [("error", JStr "Invalid JSON payload")]) 400.

Definition missing_texts_response : http_response :=
  mk_response (JDict [("error", JStr "Missing 'texts' array")]) 400.

Definition unauthorized_response : http_response :=
  mk_response (JDict [("error", JStr "Unauthorized")]) 401.

Definition embeddings_response (vectors : list (list Z)) : http_response :=
  mk_response (JDict [("embeddings", EmbedTexts.vectors_json vectors)]) 200.

(** A world whose embedding service is down. *)
Definition model_down_world : World :=
  {| environ := demo_environ;
     requests_get := origin_ok;
     BeautifulSoup := fun _ => demo_page;
     urljoin := fun _ href => href;
     uuid5_NAMESPACE_URL := fun name => "uuid5:" +:+ name;
     vertexai_init := fun _ _ => None;
     from_pretrained := fun _ => None;
     get_embeddings := fun _ => Raised (OtherException "503 Service Unavailable") |}.

(** A world with a proxy token and no Vertex configuration. *)
Definition unconfigured_environ : gmap string string :=
  list_to_map [("EMBED_FUNCTION_TOKEN", "secret")].

Definition texts_request (token : list (string * string)) (texts : json) : request :=
  mk_request token (Some (JDict [("texts", texts)])).

(** *** Vocabulary of the further properties *)

(** The words the chunk at position [i] holds: [chunk_size] of them from
    word [i * step] on, or as many as are left. *)
Definition chunk_words (words : list string) (chunk_size step : Z) (i : nat)
    : list string :=
  take (Z.to_nat chunk_size) (drop (i * Z.to_nat step) words).

(** The number of windows that start inside [n] words: [n / step], rounded
    up. *)
Definition chunk_count (n : nat) (step : Z) : nat :=
  Z.to_nat ((Z.of_nat n + step - 1) / step).

(** An element of the walk that yields a paragraph: a [p] that is not a
    heading and whose text is not blank. *)
Definition yields_paragraph (elem : node) : bool :=
  negb (Utils.is_heading elem) && Utils.has_name "p" elem
  && negb (String.eqb (normalize_whitespace (Utils.get_text elem)) "").

(** What an attempt of [fetch_url] returns on the result of its request,
    when it raises nothing: no value on a 404, the body otherwise. *)
Definition attempt_value (g : get_result) : option string :=
  match g with
  | GotResponse r => if status_code r =? 404 then None else Some (text r)
  | GetFailed _ => None
  end.

(** The record an attempt logs on the result of its request. *)
Definition attempt_log (url : string) (g : get_result) (st : state) : state :=
  match g with
  | GotResponse r => if status_code r =? 404 then add_log (log_404 url) st else st
  | GetFailed _ => st
  end.

(** A computation keeps [R] when [R] links every state it starts in to the
    state it leaves. *)
Definition keeps (R : state -> state -> Prop) {A : Type} (m : M A) : Prop :=
  forall st, R st (m st).2.

(** From [st] to [st'] only requests were made and records logged: the
    vector store, the calls of [upsert_documents] and the initialisation
    flag are as they were. *)
Definition only_fetches (st st' : state) : Prop :=
  upsert_calls st' = upsert_calls st
  /\ vertex_client_initialized st' = vertex_client_initialized st
  /\ store_classes st' = store_classes st
  /\ store_objects st' = store_objects st
  /\ (requests_made st <= requests_made st')%nat
  /\ exists new, logged st' = logged st ++ new.

(** From [st] to [st'] the log only grew. *)
Definition log_grows (st st' : state) : Prop :=
  exists new, logged st' = logged st ++ new.

(** An origin whose third answer is the first to get through. *)
Definition origin_flaky : nat -> string -> get_result :=
  fun n _ =>
    if (n <? 2)%nat then GetFailed (RequestException "connection reset")
    else GotResponse (mk_origin_response 200 "OK" "<html>").


Definition log_unauthorized : log_record :=
  mk_log WARNING "Unauthorized request: missing or invalid X-Ingest-Token" [] [] None.

Definition log_no_urls : log_record :=
  mk_log WARNING "No URLs provided after parsing STRIPE_DOC_URLS env" [] [] None.

Definition no_urls_response : http_response :=
  mk_response (JDict [("error", JStr "No URLs provided")]) 400.

(** Every character is whitespace or a comma. *)
Fixpoint only_separators (s : string) : bool :=
  match s with
  | EmptyString => true
  | String c rest => (PyStr.is_space c || Ascii.eqb c ",") && only_separators rest
  end.

(** A world with a token for the ingestion endpoint. *)
Definition token_environ : gmap string string :=
  list_to_map [("INGEST_FUNCTION_TOKEN", "secret")].

(** A world whose URL list holds separators only. *)
Definition blank_urls_environ : gmap string string :=
  list_to_map [("STRIPE_DOC_URLS", " , ,"); ("CHUNK_SIZE", "800");
               ("CHUNK_OVERLAP", "120")].



(** The environment lacks [name], or holds the empty string for it. *)
Definition unset `{World} (name : string) : Prop :=
  environ !! name = None \/ environ !! name = Some "".

(** The embedding client of the ingestion process is initialised, or can
    be: the two Vertex variables are set and [vertexai_init] accepts them. *)
Definition vertex_ready `{World} (st : state) : Prop :=
  vertex_client_initialized st = true
  \/ exists project_id location,
       environ !! "VERTEX_PROJECT_ID" = Some project_id /\ project_id <> ""
       /\ environ !! "VERTEX_LOCATION" = Some location /\ location <> ""
       /\ vertexai_init project_id location = None.

(** The identifiers of the documents that get a vector. *)
Definition written_ids (documents : list document) (vectors : list (list Z))
    : list string :=
  doc_id <$> take (length vectors) documents.

Definition demo_doc0 : document :=
  mk_document "uuid5:https://a-0-w1 w2" "Billing" "https://a" "w1 w2" "A" 0.

Definition demo_doc1 : document :=
  mk_document "uuid5:https://a-1-w3 w4" "Billing" "https://a" "w3 w4" "B" 1.

(** The store after the pairs were written in order, each under the
    identifier of its document. *)
Definition put_all (pairs : list (document * list Z))
    (objects : gmap string (document * list Z)) : gmap string (document * list Z) :=
  fold_left (fun m p => <[doc_id p.1 := p]> m) pairs objects.


(** A JSON value that is not an object. *)
Definition not_object (v : json) : Prop :=
  match v with
  | JDict _ => False
  | _ => True
  end.

(** A world with a proxy token and the Vertex configuration. *)
Definition proxy_environ : gmap string string :=
  list_to_map [("EMBED_FUNCTION_TOKEN", "secret");
               ("VERTEX_PROJECT_ID", "project"); ("VERTEX_LOCATION", "region")].

(** [m] ends: from every state it returns or raises. *)
Definition ends {A : Type} (m : M A) : Prop := forall st, (m st).1 <> Diverged.


(** Decimal numerals: made of digits only, and the number they write. *)
Fixpoint all_digits (s : string) : bool :=
  match s with
  | EmptyString => true
  | String c rest =>
      (48 <=? nat_of_ascii c)%nat && (nat_of_ascii c <=? 57)%nat && all_digits rest
  end.

Fixpoint digits_value (s : string) (acc : nat) : nat :=
  match s with
  | EmptyString => acc
  | String c rest => digits_value rest (10 * acc + (nat_of_ascii c - 48))
  end.

(** * Theorems *)

(** ** Facts about splitting and joining *)

Section SplitJoin.

#[local] Arguments PyStr.is_space : simpl never.

Lemma append_empty (s : string) : s +:+ EmptyString = s.
Proof.
  induction s as [|c s IH]; [reflexivity|].
  change (String c s +:+ EmptyString) with (String c (s +:+ EmptyString)).
  rewrite IH. reflexivity.
Qed.

Lemma split_word_then (w rest : string) :
  is_word w -> PyStr.starts_word rest = false ->
  PyStr.split (w +:+ rest) = w :: PyStr.split rest.
Proof.
  intros [Hne Hns]. revert Hne Hns rest.
  induction w as [|c w IH]; [congruence|].
  intros _ Hns rest Hrest. cbn in Hns.
  apply andb_true_iff in Hns as [Hc Hw].
  apply negb_true_iff in Hc.
  change (String c w +:+ rest) with (String c (w +:+ rest)).
  cbn [PyStr.split]. rewrite Hc.
  destruct w as [|c' w'].
  - change (EmptyString +:+ rest) with rest. rewrite Hrest. reflexivity.
  - assert (Hsw : PyStr.starts_word (String c' w' +:+ rest) = true).
    { change (String c' w' +:+ rest) with (String c' (w' +:+ rest)).
      cbn in Hw |- *. apply andb_true_iff in Hw as [Hc' _]. exact Hc'. }
    rewrite Hsw, IH; [reflexivity|congruence|exact Hw|exact Hrest].
Qed.

Lemma split_words (s : string) : Forall is_word (PyStr.split s).
Proof.
  induction s as [|c s IH]; cbn [PyStr.split]; [constructor|].
  destruct (PyStr.is_space c) eqn:Hc; [exact IH|].
  assert (Hone : is_word (String c EmptyString)).
  { split; [congruence|]. cbn. rewrite Hc. reflexivity. }
  destruct (PyStr.starts_word s).
  - destruct (PyStr.split s) as [|w ws]; [constructor; [exact Hone|constructor]|].
    inversion IH as [|? ? [Hne Hw] Hws]; subst.
    constructor; [|exact Hws].
    split; [congruence|]. cbn. rewrite Hc, Hw. reflexivity.
  - constructor; [exact Hone|exact IH].
Qed.

Lemma split_join (ws : list string) :
  Forall is_word ws -> PyStr.split (PyStr.join " " ws) = ws.
Proof.
  induction 1 as [|w ws Hw Hws IH]; [reflexivity|].
  destruct ws as [|w' ws'].
  - cbn [PyStr.join].
    pose proof (split_word_then w EmptyString Hw eq_refl) as Hsplit.
    rewrite append_empty in Hsplit. exact Hsplit.
  - change (PyStr.join " " (w :: w' :: ws'))
      with (w +:+ (String " " (PyStr.join " " (w' :: ws')))).
    rewrite split_word_then; [|exact Hw|reflexivity].
    f_equal. exact IH.
Qed.

End SplitJoin.

(** ** Facts about the chunking loop *)

Section ChunkLoop.

Variables (words : list string) (chunk_size step : Z).

Lemma chunk_loop_returns (n : nat) :
  0 < step ->
  forall start chunks,
    (Z.to_nat (Z.of_nat (length words) - start) <= n)%nat ->
    exists result, forall fuel, (n < fuel)%nat ->
      chunk_loop fuel words chunk_size step start chunks = Returned result.
Proof.
  intros Hstep. induction n as [|n IH]; intros start chunks Hn.
  - exists chunks. intros [|fuel] Hfuel; [lia|]. cbn [chunk_loop].
    destruct (Z.ltb_spec start (Z.of_nat (length words))); [lia|reflexivity].
  - destruct (Z.ltb_spec start (Z.of_nat (length words))) as [Hlt|Hge].
    + destruct (IH (start + step)
                  (chunks ++ [PyStr.join " "
                     (py_slice words start
                        (Z.min (start + chunk_size) (Z.of_nat (length words))))]))
        as [result Hres]; [lia|].
      exists result. intros [|fuel] Hfuel; [lia|]. cbn [chunk_loop].
      destruct (Z.ltb_spec start (Z.of_nat (length words))); [|lia].
      apply Hres. lia.
    + exists chunks. intros [|fuel] Hfuel; [lia|]. cbn [chunk_loop].
      destruct (Z.ltb_spec start (Z.of_nat (length words))); [lia|reflexivity].
Qed.

Lemma chunk_loop_stuck (fuel : nat) :
  step <= 0 ->
  forall start chunks,
    start < Z.of_nat (length words) -> start <= 0 ->
    chunk_loop fuel words chunk_size step start chunks = Diverged.
Proof.
  intros Hstep. induction fuel as [|fuel IH]; intros start chunks Hlt Hle;
    [reflexivity|].
  cbn [chunk_loop].
  destruct (Z.ltb_spec start (Z.of_nat (length words))); [|lia].
  apply IH; lia.
Qed.

Lemma chunk_loop_never_raises (fuel : nat) :
  forall start chunks e,
    chunk_loop fuel words chunk_size step start chunks <> Raised e.
Proof.
  induction fuel as [|fuel IH]; intros start chunks e; cbn [chunk_loop];
    [discriminate|].
  destruct (start <? Z.of_nat (length words)); [apply IH|discriminate].
Qed.

End ChunkLoop.

Lemma chunk_text_returns (text : string) (chunk_size overlap : Z) :
  overlap < chunk_size ->
  exists chunks, forall fuel,
    (length (PyStr.split text) < fuel)%nat ->
    chunk_text fuel text chunk_size overlap = Returned chunks.
Proof.
  intros Hstep. unfold chunk_text.
  destruct (PyStr.split text) as [|w ws] eqn:Hwords; [by exists []|].
  destruct (chunk_loop_returns (w :: ws) chunk_size (chunk_size - overlap)
              (length (w :: ws)) ltac:(lia) 0 []) as [result Hres]; [lia|].
  exists result. exact Hres.
Qed.

Lemma chunk_text_diverges (text : string) (chunk_size overlap : Z) (fuel : nat) :
  chunk_size <= overlap -> PyStr.split text <> [] ->
  chunk_text fuel text chunk_size overlap = Diverged.
Proof.
  intros Hstep Hwords. unfold chunk_text.
  destruct (PyStr.split text) as [|w ws]; [congruence|].
  apply chunk_loop_stuck; cbn [length]; lia.
Qed.

Lemma chunk_text_never_raises (text : string) (chunk_size overlap : Z)
    (fuel : nat) (e : exn) :
  chunk_text fuel text chunk_size overlap <> Raised e.
Proof.
  unfold chunk_text.
  destruct (PyStr.split text) as [|w ws]; [discriminate|].
  apply chunk_loop_never_raises.
Qed.

(** C4, as amended. [chunk_text] has no guard on the step: with
    [chunk_size > overlap] it returns on every text, the same chunks for
    every fuel above the number of words; with [overlap >= chunk_size] it
    returns the empty list on a text without words and never returns on any
    other text; and it raises on no input at all. *)
Theorem chunk_text_by_step (text : string) (chunk_size overlap : Z) :
  (overlap < chunk_size ->
     exists chunks, forall fuel,
       (length (PyStr.split text) < fuel)%nat ->
       chunk_text fuel text chunk_size overlap = Returned chunks)
  /\ (chunk_size <= overlap -> PyStr.split text = [] ->
        forall fuel, chunk_text fuel text chunk_size overlap = Returned [])
  /\ (chunk_size <= overlap -> PyStr.split text <> [] ->
        forall fuel, chunk_text fuel text chunk_size overlap = Diverged)
  /\ (forall fuel e, chunk_text fuel text chunk_size overlap <> Raised e).
Proof.
  repeat split.
  - apply chunk_text_returns.
  - intros _ Hwords fuel. unfold chunk_text. rewrite Hwords. reflexivity.
  - intros Hstep Hwords fuel. apply chunk_text_diverges; assumption.
  - intros fuel e. apply chunk_text_never_raises.
Qed.

Lemma chunk_text_by_step_witness :
  (exists chunks, forall fuel, (7 < fuel)%nat ->
     chunk_text fuel "a b c d e f g" 3 1 = Returned chunks)
  /\ (forall fuel, chunk_text fuel "   " 1 1 = Returned [])
  /\ (forall fuel, chunk_text fuel "a b" 1 2 = Diverged).
Proof.
  split; [|split].
  - apply (chunk_text_by_step "a b c d e f g" 3 1). lia.
  - apply (chunk_text_by_step "   " 1 1); [lia|reflexivity].
  - apply (chunk_text_by_step "a b" 1 2); [lia|discriminate].
Defined.

(** C4 as it is worded fails: with [overlap = chunk_size = 1] and the text
    ["a"] no amount of fuel makes [chunk_text] raise; it runs on for ever. *)
Lemma chunk_text_no_guard :
  (1 <= 1)
  /\ ~ (exists fuel e, chunk_text fuel "a" 1 1 = Raised e)
  /\ (forall fuel, chunk_text fuel "a" 1 1 = Diverged).
Proof.
  split; [lia|split].
  - intros (fuel & e & H). exact (chunk_text_never_raises _ _ _ _ _ H).
  - intros fuel. apply chunk_text_diverges; [lia|discriminate].
Qed.

Section Overlap.

Variable words : list string.
Hypothesis words_len : length words = 2000%nat.

Lemma chunk_loop_2000 (fuel : nat) :
  (4 <= fuel)%nat ->
  chunk_loop fuel words 800 (800 - 120) 0 [] =
  Returned [PyStr.join " " (take 800 words);
            PyStr.join " " (take 800 (drop 680 words));
            PyStr.join " " (take 640 (drop 1360 words))].
Proof.
  intros Hfuel.
  do 4 (destruct fuel as [|fuel]; [lia|]). clear Hfuel.
  assert (Hlen : Z.of_nat (length words) = 2000) by (rewrite words_len; reflexivity).
  cbn [chunk_loop]. unfold py_slice. rewrite !Hlen.
  change (0 <? 2000) with true. cbv iota.
  change (0 + (800 - 120) <? 2000) with true. cbv iota.
  change (0 + (800 - 120) + (800 - 120) <? 2000) with true. cbv iota.
  change (0 + (800 - 120) + (800 - 120) + (800 - 120) <? 2000) with false.
  cbv iota.
  change (Z.to_nat (Z.min (Z.min (0 + 800) 2000) 2000 - Z.min 0 2000)) with 800%nat.
  change (Z.to_nat (Z.min 0 2000)) with 0%nat.
  reflexivity.
Qed.

End Overlap.

Lemma words_of_chunk (words : list string) (a n : nat) :
  Forall is_word words ->
  PyStr.split (PyStr.join " " (take n (drop a words))) = take n (drop a words).
Proof.
  intros Hw. apply split_join, Forall_take, Forall_drop, Hw.
Qed.

Lemma take_120_of_next (words : list string) (a : nat) :
  take 120 (take 800 (drop (a + 680) words)) = drop 680 (take 800 (drop a words)).
Proof.
  rewrite take_take, skipn_firstn_comm, drop_drop. reflexivity.
Qed.

(** C6. A text of exactly 2000 words, cut with [chunk_size = 800] and
    [overlap = 120], gives exactly three chunks: the single-space joins of
    words 0-799, of words 680-1479 and of words 1360-1999 of the text, so of
    800, 800 and 640 words.  The second and the third chunk begin with
    exactly the last 120 words of the chunk before: their first 120 words
    are what is left of the 800 words of that chunk after its first 680. *)
Theorem chunk_text_overlap_2000 (text : string) :
  length (PyStr.split text) = 2000%nat ->
  exists c0 c1 c2,
    (forall fuel, (4 <= fuel)%nat ->
       chunk_text fuel text 800 120 = Returned [c0; c1; c2])
    /\ (c0 = PyStr.join " " (take 800 (PyStr.split text))
        /\ c1 = PyStr.join " " (take 800 (drop 680 (PyStr.split text)))
        /\ c2 = PyStr.join " " (drop 1360 (PyStr.split text)))
    /\ (PyStr.split c0 = take 800 (PyStr.split text)
        /\ PyStr.split c1 = take 800 (drop 680 (PyStr.split text))
        /\ PyStr.split c2 = drop 1360 (PyStr.split text))
    /\ (length (PyStr.split c0) = 800
        /\ length (PyStr.split c1) = 800
        /\ length (PyStr.split c2) = 640)%nat
    /\ (take 120 (PyStr.split c1) = drop (800 - 120) (PyStr.split c0)
        /\ length (drop (800 - 120) (PyStr.split c0)) = 120%nat)
    /\ (take 120 (PyStr.split c2) = drop (800 - 120) (PyStr.split c1)
        /\ length (drop (800 - 120) (PyStr.split c1)) = 120%nat).
Proof.
  intros Hlen.
  pose proof (split_words text) as Hwords.
  set (words := PyStr.split text) in *.
  assert (Hlast : take 640 (drop 1360 words) = drop 1360 words).
  { apply take_ge. rewrite length_drop, Hlen. lia. }
  assert (H0 : PyStr.split (PyStr.join " " (take 800 words)) = take 800 words).
  { rewrite <- (drop_0 words). apply words_of_chunk, Hwords. }
  assert (H1 : PyStr.split (PyStr.join " " (take 800 (drop 680 words)))
               = take 800 (drop 680 words)).
  { apply words_of_chunk, Hwords. }
  assert (H2 : PyStr.split (PyStr.join " " (drop 1360 words)) = drop 1360 words).
  { rewrite <- Hlast. apply words_of_chunk, Hwords. }
  exists (PyStr.join " " (take 800 words)),
         (PyStr.join " " (take 800 (drop 680 words))),
         (PyStr.join " " (drop 1360 words)).
  rewrite H0, H1, H2.
  split; [|split; [|split; [|split; [|split]]]].
  - intros fuel Hfuel. unfold chunk_text. fold words.
    destruct words as [|w ws] eqn:Hw; [discriminate|]. rewrite <- Hw in *.
    rewrite <- Hlast. apply chunk_loop_2000; assumption.
  - repeat split.
  - repeat split.
  - rewrite !length_take, !length_drop, Hlen. repeat split; lia.
  - change (800 - 120)%nat with 680%nat. split.
    + rewrite <- (drop_0 words) at 2. apply (take_120_of_next words 0).
    + rewrite length_drop, length_take, Hlen. lia.
  - change (800 - 120)%nat with 680%nat. split.
    + rewrite <- Hlast.
      rewrite <- (take_120_of_next words 680). change (680 + 680)%nat with 1360%nat.
      rewrite !take_take. reflexivity.
    + rewrite length_drop, length_take, length_drop, Hlen. lia.
Qed.

Lemma chunk_text_overlap_2000_witness :
  exists c0 c1 c2,
    (forall fuel, (4 <= fuel)%nat ->
       chunk_text fuel (numbered_words 2000) 800 120 = Returned [c0; c1; c2])
    /\ (c0 = PyStr.join " " (take 800 (PyStr.split (numbered_words 2000)))
        /\ c1 = PyStr.join " " (take 800 (drop 680 (PyStr.split (numbered_words 2000))))
        /\ c2 = PyStr.join " " (drop 1360 (PyStr.split (numbered_words 2000))))
    /\ (PyStr.split c0 = take 800 (PyStr.split (numbered_words 2000))
        /\ PyStr.split c1 = take 800 (drop 680 (PyStr.split (numbered_words 2000)))
        /\ PyStr.split c2 = drop 1360 (PyStr.split (numbered_words 2000)))
    /\ (length (PyStr.split c0) = 800
        /\ length (PyStr.split c1) = 800
        /\ length (PyStr.split c2) = 640)%nat
    /\ (take 120 (PyStr.split c1) = drop (800 - 120) (PyStr.split c0)
        /\ length (drop (800 - 120) (PyStr.split c0)) = 120%nat)
    /\ (take 120 (PyStr.split c2) = drop (800 - 120) (PyStr.split c1)
        /\ length (drop (800 - 120) (PyStr.split c1)) = 120%nat).
Proof.
  apply (chunk_text_overlap_2000 (numbered_words 2000)).
  vm_compute. reflexivity.
Defined.

(** ** Header redaction *)

Lemma is_sensitive_iff (k : string) :
  Main.is_sensitive (PyStr.lower k) = true
  <-> same_name k "authorization" \/ same_name k "x-ingest-token".
Proof.
  unfold Main.is_sensitive, same_name.
  rewrite orb_true_iff, !String.eqb_eq. reflexivity.
Qed.

Lemma dict_set_fresh (k v : string) (d : list (string * string)) :
  k ∉ d.*1 -> dict_set k v d = d ++ [(k, v)].
Proof.
  induction d as [|[k' v'] d IH]; intros Hk; [reflexivity|].
  cbn [dict_set]. rewrite fmap_cons, not_elem_of_cons in Hk.
  destruct Hk as [Hne Hk]. cbn in Hne.
  destruct (String.eqb_spec k' k); [congruence|].
  rewrite IH by exact Hk. reflexivity.
Qed.

Lemma redact_step_fresh (acc : list (string * string)) (item : string * string) :
  item.1 ∉ acc.*1 -> Main.redact_step acc item = acc ++ [redact_item item].
Proof.
  intros Hk. unfold Main.redact_step, redact_item.
  destruct (Main.is_sensitive (PyStr.lower item.1)); apply dict_set_fresh, Hk.
Qed.

Lemma redact_fold (hs acc : list (string * string)) :
  NoDup (acc.*1 ++ hs.*1) ->
  fold_left Main.redact_step hs acc = acc ++ (redact_item <$> hs).
Proof.
  revert acc. induction hs as [|item hs IH]; intros acc Hnd.
  - cbn. rewrite app_nil_r. reflexivity.
  - cbn [fold_left]. rewrite fmap_cons in Hnd.
    apply NoDup_app in Hnd as (Hacc & Hdisj & Hhs).
    apply NoDup_cons in Hhs as [Hnotin Hhs].
    rewrite redact_step_fresh.
    + rewrite IH.
      * rewrite <- app_assoc. reflexivity.
      * rewrite fmap_app. cbn. apply NoDup_app. split; [|split].
        -- apply NoDup_app. split; [exact Hacc|split].
           ++ intros x Hx Hx'. apply list_elem_of_singleton in Hx'. subst x.
              apply (Hdisj _ Hx). left.
           ++ apply NoDup_singleton.
        -- intros x Hx Hx'. apply elem_of_app in Hx as [Hx|Hx].
           ++ apply (Hdisj _ Hx). right. exact Hx'.
           ++ apply list_elem_of_singleton in Hx. subst x. exact (Hnotin Hx').
        -- exact Hhs.
    + intros Hin. apply (Hdisj _ Hin). left.
Qed.

Lemma redact_headers_map (hs : list (string * string)) :
  NoDup hs.*1 -> Main._redact_headers hs = redact_item <$> hs.
Proof.
  intros Hnd. unfold Main._redact_headers. rewrite redact_fold; [reflexivity|].
  exact Hnd.
Qed.

Lemma dict_get_fmap_NoDup (f : string * string -> string) (hs : list (string * string))
    (k v : string) :
  NoDup hs.*1 -> (k, v) ∈ hs ->
  dict_get k ((fun item => (item.1, f item)) <$> hs) = Some (f (k, v)).
Proof.
  induction hs as [|[k' v'] hs IH]; intros Hnd Hin.
  - apply elem_of_nil in Hin. contradiction.
  - rewrite fmap_cons in Hnd. apply NoDup_cons in Hnd as [Hnotin Hnd].
    rewrite fmap_cons. cbn [dict_get fst].
    apply elem_of_cons in Hin as [Heq|Hin].
    + inversion Heq; subst. rewrite String.eqb_refl. reflexivity.
    + destruct (String.eqb_spec k' k) as [->|Hne].
      * exfalso. apply Hnotin. apply list_elem_of_fmap. exists (k, v). done.
      * apply IH; assumption.
Qed.

(** The dict built from the request's headers has each key once, so it is a
    header map in the sense of the theorem below. *)
Lemma dict_set_keys (k v : string) (d : list (string * string)) :
  (dict_set k v d).*1 = if bool_decide (k ∈ d.*1) then d.*1 else d.*1 ++ [k].
Proof.
  induction d as [|[k' v'] d IH]; [reflexivity|].
  cbn [dict_set]. destruct (String.eqb_spec k' k) as [->|Hne].
  - rewrite bool_decide_eq_true_2; [reflexivity|]. rewrite fmap_cons. left.
  - rewrite !fmap_cons, IH. cbn [fst].
    destruct (bool_decide_reflect (k ∈ d.*1)) as [Hin|Hnin].
    + rewrite bool_decide_eq_true_2; [reflexivity|]. right. exact Hin.
    + rewrite bool_decide_eq_false_2; [reflexivity|].
      intros Hin. apply elem_of_cons in Hin as [?|?]; [congruence|contradiction].
Qed.

Lemma dict_of_headers_NoDup (hs : list (string * string)) :
  NoDup (dict_of_headers hs).*1.
Proof.
  unfold dict_of_headers.
  assert (Hgen : forall acc, NoDup acc.*1 ->
            NoDup (fold_left (fun d kv => dict_set kv.1 kv.2 d) hs acc).*1).
  { induction hs as [|[k v] hs IH]; intros acc Hacc; [exact Hacc|].
    cbn [fold_left fst snd]. apply IH. rewrite dict_set_keys.
    destruct (bool_decide_reflect (k ∈ acc.*1)) as [Hin|Hnin]; [exact Hacc|].
    apply NoDup_app. split; [exact Hacc|split].
    - intros x Hx Hx'. apply list_elem_of_singleton in Hx'. subst x. contradiction.
    - apply NoDup_singleton. }
  apply Hgen. constructor.
Qed.

(** C9. On a header map (a dict: each name once), [_redact_headers] keeps
    the names and their order; a header whose name is, case aside,
    [authorization] or [x-ingest-token] gets the value [***REDACTED***], and
    every other header keeps its value. *)
Theorem redact_headers_correct (hs : list (string * string)) :
  NoDup hs.*1 ->
  (Main._redact_headers hs).*1 = hs.*1
  /\ forall k v, (k, v) ∈ hs ->
       ((same_name k "authorization" \/ same_name k "x-ingest-token") ->
          dict_get k (Main._redact_headers hs) = Some "***REDACTED***")
       /\ (~ (same_name k "authorization" \/ same_name k "x-ingest-token") ->
          dict_get k (Main._redact_headers hs) = Some v).
Proof.
  intros Hnd. rewrite (redact_headers_map hs Hnd). split.
  - rewrite <- list_fmap_compose. apply list_fmap_ext. intros _ [k v] _. reflexivity.
  - intros k v Hin.
    pose proof (dict_get_fmap_NoDup
                  (fun item => if Main.is_sensitive (PyStr.lower item.1)
                               then Main.REDACTED else item.2)
                  hs k v Hnd Hin) as Hget.
    cbn [fst snd] in Hget. fold (redact_item) in Hget.
    split; intros Hname.
    + apply is_sensitive_iff in Hname. rewrite Hname in Hget. exact Hget.
    + destruct (Main.is_sensitive (PyStr.lower k)) eqn:Hs; [|exact Hget].
      apply is_sensitive_iff in Hs. contradiction.
Qed.

Lemma redact_headers_correct_witness :
  Main._redact_headers
    [("Authorization", "Bearer abc"); ("X-Ingest-Token", "t");
     ("Content-Type", "application/json")]
  = [("Authorization", "***REDACTED***"); ("X-Ingest-Token", "***REDACTED***");
     ("Content-Type", "application/json")]
  /\ (Main._redact_headers
        [("Authorization", "Bearer abc"); ("X-Ingest-Token", "t");
         ("Content-Type", "application/json")]).*1
     = ["Authorization"; "X-Ingest-Token"; "Content-Type"].
Proof.
  split; [reflexivity|].
  apply (redact_headers_correct
           [("Authorization", "Bearer abc"); ("X-Ingest-Token", "t");
            ("Content-Type", "application/json")]).
  apply (bool_decide_unpack _). vm_compute. exact I.
Defined.

(** ** Document assembly *)

Section Assembly.
Context {W : World}.

Lemma prepare_documents_single (fuel : nat) (url : string) (chunk_size overlap : Z)
    (st : state) :
  Utils.prepare_documents fuel [url] chunk_size overlap st =
  match Utils.fetch_url url st with
  | (Returned (Some markup), st1) =>
      let parsed := Utils.extract_text_from_html markup url in
      match chunk_text fuel (PyStr.join " " (paragraphs parsed)) chunk_size overlap with
      | Returned chunks => (Returned (Utils.assemble url parsed 0 chunks), st1)
      | Raised e => (Raised e, st1)
      | Diverged => (Diverged, st1)
      end
  | (Returned None, st1) =>
      (Returned [],
       add_log (mk_log INFO "URL %s ingest listesinde atlandı." [url] [] None) st1)
  | (Raised e, st1) => (Raised e, st1)
  | (Diverged, st1) => (Diverged, st1)
  end.
Proof.
  unfold Utils.prepare_documents. cbn [Utils.prepare_loop]. unfold bind at 1.
  destruct (Utils.fetch_url url st) as [[[markup|]| |] st1]; reflexivity.
Qed.

Lemma assemble_lookup (url : string) (parsed : extracted_page) (chunks : list string) :
  forall start idx doc,
    Utils.assemble url parsed start chunks !! idx = Some doc ->
    exists chunk,
      chunks !! idx = Some chunk
      /\ doc = mk_document (uuid5_NAMESPACE_URL (uuid_seed url (start + idx) chunk))
                 (title parsed) url chunk (section_label parsed (start + idx))
                 (start + idx).
Proof.
  induction chunks as [|chunk chunks IH]; intros start idx doc Hdoc;
    [discriminate|].
  destruct idx as [|idx]; cbn in Hdoc.
  - inversion Hdoc; subst. exists chunk. split; [reflexivity|].
    rewrite Nat.add_0_r. reflexivity.
  - destruct (IH (S start) idx doc Hdoc) as (c & Hc & ->).
    exists c. split; [exact Hc|].
    replace (S start + idx)%nat with (start + S idx)%nat by lia. reflexivity.
Qed.

Lemma assemble_length (url : string) (parsed : extracted_page) (chunks : list string) :
  forall start, length (Utils.assemble url parsed start chunks) = length chunks.
Proof.
  induction chunks as [|chunk chunks IH]; intros start; [reflexivity|].
  cbn. rewrite IH. reflexivity.
Qed.

End Assembly.

Lemma chunk_loop_fuel_mono (words : list string) (chunk_size step : Z) (fuel : nat) :
  forall start chunks result,
    chunk_loop fuel words chunk_size step start chunks = Returned result ->
    forall fuel', (fuel <= fuel')%nat ->
      chunk_loop fuel' words chunk_size step start chunks = Returned result.
Proof.
  induction fuel as [|fuel IH]; intros start chunks result Hrun fuel' Hle;
    [discriminate|].
  destruct fuel' as [|fuel']; [lia|]. cbn [chunk_loop] in Hrun |- *.
  destruct (start <? Z.of_nat (length words)); [|exact Hrun].
  apply (IH _ _ _ Hrun). lia.
Qed.

Lemma chunk_text_deterministic (text : string) (chunk_size overlap : Z)
    (fuel1 fuel2 : nat) (r1 r2 : list string) :
  chunk_text fuel1 text chunk_size overlap = Returned r1 ->
  chunk_text fuel2 text chunk_size overlap = Returned r2 ->
  r1 = r2.
Proof.
  unfold chunk_text. destruct (PyStr.split text) as [|w ws]; [congruence|].
  intros H1 H2.
  apply (chunk_loop_fuel_mono _ _ _ _ _ _ _) with (fuel' := Nat.max fuel1 fuel2) in H1;
    [|lia].
  apply (chunk_loop_fuel_mono _ _ _ _ _ _ _) with (fuel' := Nat.max fuel1 fuel2) in H2;
    [|lia].
  congruence.
Qed.

Section AssemblyTheorems.
Context {W : World}.

Lemma walk_aligned (elems : list node) :
  forall w, sec_text <$> Utils.w_sections w = Utils.w_paragraphs w ->
    sec_text <$> Utils.w_sections (fold_left Utils.walk_step elems w)
    = Utils.w_paragraphs (fold_left Utils.walk_step elems w).
Proof.
  induction elems as [|elem elems IH]; intros w Hw; [exact Hw|].
  cbn [fold_left]. apply IH. unfold Utils.walk_step.
  destruct (Utils.is_heading elem); [exact Hw|].
  destruct (Utils.has_name "p" elem); [|exact Hw].
  destruct (String.eqb _ _); [exact Hw|].
  cbn. rewrite fmap_app, Hw. reflexivity.
Qed.

(** The sections list runs along the paragraph list: entry [i] holds the
    text of paragraph [i] and the heading current when it was met. *)
Lemma sections_aligned (markup base_url : string) :
  sec_text <$> sections (Utils.extract_text_from_html markup base_url)
  = paragraphs (Utils.extract_text_from_html markup base_url).
Proof.
  unfold Utils.extract_text_from_html. cbn [sections paragraphs].
  destruct (match Utils.find "article" (BeautifulSoup markup) with
            | Some a => Some a
            | None => Utils.find "body" (BeautifulSoup markup)
            end); [|reflexivity].
  apply walk_aligned. reflexivity.
Qed.

(** C5, as amended. The chunk at position [idx] of a page's documents has
    [chunk_index = idx], and its section is the heading stored at index
    [idx] of the page's sections list when there is one, and the page title
    otherwise. *)
Theorem section_is_indexed_heading (fuel : nat) (url : string)
    (chunk_size overlap : Z) (st st1 st' : state) (markup : string)
    (docs : list document) :
  Utils.fetch_url url st = (Returned (Some markup), st1) ->
  Utils.prepare_documents fuel [url] chunk_size overlap st = (Returned docs, st') ->
  forall idx doc, docs !! idx = Some doc ->
    doc_chunk_index doc = idx
    /\ doc_section doc =
       match sections (Utils.extract_text_from_html markup url) !! idx with
       | Some s => sec_heading s
       | None => title (Utils.extract_text_from_html markup url)
       end.
Proof.
  intros Hfetch Hrun idx doc Hdoc.
  rewrite prepare_documents_single, Hfetch in Hrun. cbv zeta in Hrun.
  destruct (chunk_text fuel _ chunk_size overlap) as [chunks| |];
    inversion Hrun; subst.
  destruct (assemble_lookup _ _ _ _ _ _ Hdoc) as (chunk & _ & ->).
  split; reflexivity.
Qed.


End AssemblyTheorems.

Lemma section_is_indexed_heading_witness :
  doc_chunk_index demo_doc2 = 2%nat /\ doc_section demo_doc2 = "Billing".
Proof.
  refine (section_is_indexed_heading (W := demo_world demo_environ origin_ok)
            10 "https://a" 2 0 initial_state _ _ "<html>" _ _ _ 2%nat demo_doc2 _);
    vm_compute; reflexivity.
Defined.

(** C5 as it is worded fails. With chunks of two words and no overlap over
    the page [h2 A, p "w1 w2 w3 w4", h2 B, p "x1 x2"], the second chunk is
    ["w3 w4"], both of whose words stand in the paragraph under [A], and its
    section is [B]; the third chunk stands under [B] and gets the title. *)
Lemma section_not_own_heading :
  exists d0 d1 d2 st',
    Utils.prepare_documents (W := demo_world demo_environ origin_ok)
      10 ["https://a"] 2 0 initial_state = (Returned [d0; d1; d2], st')
    /\ doc_content d1 = "w3 w4"
    /\ heading_of_word
         (sections (Utils.extract_text_from_html
                      (W := demo_world demo_environ origin_ok) "<html>" "https://a"))
         2 = Some "A"
    /\ heading_of_word
         (sections (Utils.extract_text_from_html
                      (W := demo_world demo_environ origin_ok) "<html>" "https://a"))
         3 = Some "A"
    /\ doc_section d1 = "B"
    /\ doc_section d1 <> "A"
    /\ doc_content d2 = "x1 x2"
    /\ heading_of_word
         (sections (Utils.extract_text_from_html
                      (W := demo_world demo_environ origin_ok) "<html>" "https://a"))
         4 = Some "B"
    /\ doc_section d2 = "Billing".
Proof.
  do 4 eexists. split; [vm_compute; reflexivity|].
  repeat split; try reflexivity. discriminate.
Qed.


(** ** The fetch and its retries *)

Section Fetch.
Context {W : World}.

Lemma fetch_once_not_found (url : string) (st : state) :
  not_found (requests_get (requests_made st) url) ->
  Utils.fetch_url_once url st
  = (Returned None, add_log (log_404 url) (count_request st)).
Proof.
  unfold not_found, Utils.fetch_url_once, bind, Utils.do_request.
  destruct (requests_get (requests_made st) url) as [r|e]; [|contradiction].
  intros ->. reflexivity.
Qed.

Lemma fetch_once_raises (url : string) (st st' : state) (e : exn) :
  Utils.fetch_url_once url st = (Raised e, st') ->
  attempt_error url (requests_get (requests_made st) url) = Some e
  /\ st' = count_request st.
Proof.
  unfold Utils.fetch_url_once, bind, Utils.do_request, attempt_error.
  destruct (requests_get (requests_made st) url) as [r|e0].
  - destruct (status_code r =? 404); [discriminate|].
    destruct (Utils.raise_for_status url r); inversion 1; subst; done.
  - inversion 1; subst; done.
Qed.

Lemma fetch_once_fails (url : string) (st : state) (e : exn) :
  attempt_error url (requests_get (requests_made st) url) = Some e ->
  Utils.fetch_url_once url st = (Raised e, count_request st).
Proof.
  unfold Utils.fetch_url_once, bind, Utils.do_request, attempt_error.
  destruct (requests_get (requests_made st) url) as [r|e0].
  - destruct (status_code r =? 404); [discriminate|].
    intros ->. reflexivity.
  - inversion 1; subst; reflexivity.
Qed.

(** A fetch whose first request meets a 404 returns no value at once. *)
Lemma fetch_url_not_found (url : string) (st : state) :
  not_found (requests_get (requests_made st) url) ->
  Utils.fetch_url url st
  = (Returned None, add_log (log_404 url) (count_request st)).
Proof.
  intros H404. unfold Utils.fetch_url, Utils.stop_after_attempt.
  cbn [Utils.retrying]. unfold try_except at 1.
  rewrite (fetch_once_not_found url st H404). reflexivity.
Qed.

(** Whatever an attempt raises, what leaves [fetch_url] is tenacity's error. *)
Lemma retrying_raises (attempts : nat) (url : string) :
  forall st st' e,
    attempts <> 0%nat ->
    Utils.retrying attempts url st = (Raised e, st') ->
    exists root, e = TenacityRetryError root.
Proof.
  induction attempts as [|remaining IH]; intros st st' e Hne Hrun; [congruence|].
  cbn [Utils.retrying] in Hrun. unfold try_except in Hrun.
  destruct (Utils.fetch_url_once url st) as [[v|e0|] st0] eqn:Hone;
    try discriminate.
  destruct remaining as [|remaining'].
  - inversion Hrun; subst. exists e0. reflexivity.
  - apply (IH st0 st' e); [congruence|exact Hrun].
Qed.

Lemma fetch_url_raises (url : string) (st st' : state) (e : exn) :
  Utils.fetch_url url st = (Raised e, st') ->
  exists root, e = TenacityRetryError root.
Proof.
  apply retrying_raises. unfold Utils.stop_after_attempt. congruence.
Qed.

Lemma requests_made_count (n : nat) :
  forall st, requests_made (count_requests n st) = (requests_made st + n)%nat.
Proof.
  induction n as [|n IH]; intros st; cbn [count_requests].
  - lia.
  - rewrite IH. cbn. lia.
Qed.

(** When every request for [url] fails, the fetch makes its five attempts
    and raises tenacity's error around what the fifth one raised. *)
Lemma retrying_exhausted (attempts : nat) (url : string) :
  (forall n, attempt_error url (requests_get n url) <> None) ->
  forall st,
    exists root,
      attempt_error url (requests_get (requests_made st + attempts) url) = Some root
      /\ Utils.retrying (S attempts) url st
         = (Raised (TenacityRetryError root), count_requests (S attempts) st).
Proof.
  intros Hfail. induction attempts as [|remaining IH]; intros st.
  - destruct (attempt_error url (requests_get (requests_made st) url)) as [e|] eqn:He;
      [|exfalso; exact (Hfail _ He)].
    exists e. rewrite Nat.add_0_r. split; [exact He|].
    cbn [Utils.retrying]. unfold try_except.
    rewrite (fetch_once_fails url st e He). reflexivity.
  - destruct (attempt_error url (requests_get (requests_made st) url)) as [e|] eqn:He;
      [|exfalso; exact (Hfail _ He)].
    destruct (IH (count_request st)) as (root & Hroot & Hrun).
    exists root. split.
    + cbn [requests_made count_request] in Hroot.
      replace (requests_made st + S remaining)%nat
        with (S (requests_made st) + remaining)%nat by lia.
      exact Hroot.
    + change (Utils.retrying (S (S remaining)) url st)
        with (try_except (Utils.fetch_url_once url)
                (fun _ => Utils.retrying (S remaining) url) st).
      unfold try_except. rewrite (fetch_once_fails url st e He).
      rewrite Hrun. reflexivity.
Qed.

End Fetch.

(** ** The ingestion endpoint *)

Section Ingest.
Context {W : World}.

Lemma prepare_documents_raises (fuel : nat) (url : string) (chunk_size overlap : Z)
    (st st' : state) (e : exn) :
  Utils.prepare_documents fuel [url] chunk_size overlap st = (Raised e, st') ->
  exists root, e = TenacityRetryError root.
Proof.
  rewrite prepare_documents_single.
  destruct (Utils.fetch_url url st) as [[[markup|]|e0|] st1] eqn:Hfetch;
    try discriminate.
  - cbv zeta.
    destruct (chunk_text fuel _ chunk_size overlap) as [chunks|e1|] eqn:Hchunks;
      try discriminate.
    exfalso. exact (chunk_text_never_raises _ _ _ _ _ Hchunks).
  - inversion 1; subst. exact (fetch_url_raises _ _ _ _ Hfetch).
Qed.

(** Tenacity's error meets none of the three [except] clauses of the loop:
    it is raised again as it came, the state untouched. *)
Lemma on_prepare_error_tenacity (url : string) (docs : list document)
    (skipped : list Main.skip_record) (root : exn) (st : state) :
  Main.on_prepare_error url docs skipped (TenacityRetryError root) st
  = (Raised (TenacityRetryError root), st).
Proof. reflexivity. Qed.

Lemma ingest_loop_cons (fuel : nat) (url : string) (rest : list string)
    (chunk_size overlap : Z) (docs : list document)
    (skipped : list Main.skip_record) (st : state) :
  Main.ingest_loop fuel (url :: rest) chunk_size overlap docs skipped st =
  match Utils.prepare_documents fuel [url] chunk_size overlap st with
  | (Returned new, st1) =>
      Main.ingest_loop fuel rest chunk_size overlap (docs ++ new) skipped
        (add_log (log_prepared url (length new)) st1)
  | (Raised e, st1) =>
      match Main.on_prepare_error url docs skipped e st1 with
      | (Returned acc, st2) =>
          Main.ingest_loop fuel rest chunk_size overlap acc.1 acc.2 st2
      | (Raised e', st2) => (Raised e', st2)
      | (Diverged, st2) => (Diverged, st2)
      end
  | (Diverged, st1) => (Diverged, st1)
  end.
Proof.
  cbn [Main.ingest_loop]. unfold bind at 1. unfold try_except. unfold bind at 1.
  destruct (Utils.prepare_documents fuel [url] chunk_size overlap st)
    as [[new|e|] st1]; reflexivity.
Qed.

(** The skip list leaves the loop as it entered: no path of the model adds
    a record to it. *)
Lemma ingest_loop_skips_nothing (fuel : nat) (urls : list string)
    (chunk_size overlap : Z) :
  forall docs skipped st docs' skipped' st',
    Main.ingest_loop fuel urls chunk_size overlap docs skipped st
    = (Returned (docs', skipped'), st') ->
    skipped' = skipped.
Proof.
  induction urls as [|url rest IH]; intros docs skipped st docs' skipped' st' Hrun.
  - inversion Hrun; subst. reflexivity.
  - rewrite ingest_loop_cons in Hrun.
    destruct (Utils.prepare_documents fuel [url] chunk_size overlap st)
      as [[new|e|] st1] eqn:Hprep; try discriminate.
    + exact (IH _ _ _ _ _ _ Hrun).
    + destruct (prepare_documents_raises _ _ _ _ _ _ _ Hprep) as [root ->].
      rewrite on_prepare_error_tenacity in Hrun. discriminate.
Qed.

(** A URL whose fetch brings no value adds no document and no skip record,
    and the loop goes on with the rest. *)
Lemma ingest_loop_not_found (fuel : nat) (url : string) (rest : list string)
    (chunk_size overlap : Z) (docs : list document)
    (skipped : list Main.skip_record) (st st1 : state) :
  Utils.fetch_url url st = (Returned None, st1) ->
  Main.ingest_loop fuel (url :: rest) chunk_size overlap docs skipped st
  = Main.ingest_loop fuel rest chunk_size overlap docs skipped
      (add_log (log_prepared url 0) (add_log (log_left_out url) st1)).
Proof.
  intros Hfetch. rewrite ingest_loop_cons, prepare_documents_single, Hfetch.
  rewrite app_nil_r. reflexivity.
Qed.

Lemma get_env_optional (name : string) :
  Utils.get_env name None false = Returned (environ !! name).
Proof.
  unfold Utils.get_env. destruct (environ !! name); reflexivity.
Qed.

Lemma get_env_required_set (name value : string) (st : state) :
  environ !! name = Some value -> value <> "" ->
  Main.get_env_required name st = (Returned value, st).
Proof.
  intros Henv Hne. unfold Main.get_env_required, bind, lift, Utils.get_env.
  rewrite Henv. destruct (String.eqb_spec value ""); [contradiction|reflexivity].
Qed.

Lemma py_int_not_empty (s : string) (z : Z) : py_int s = Returned z -> s <> "".
Proof. intros Hint ->. discriminate. Qed.

Lemma parse_urls_not_empty (urls_csv : string) :
  Main.parse_urls urls_csv <> [] -> urls_csv <> "".
Proof. intros Hne ->. apply Hne. reflexivity. Qed.

Lemma authorized_passes (req : request) :
  authorized req ->
  truthy (Main.option_json (environ !! "INGEST_FUNCTION_TOKEN"))
  && negb (option_string_eqb (headers_get "X-Ingest-Token" (headers req))
             (environ !! "INGEST_FUNCTION_TOKEN")) = false.
Proof.
  unfold authorized.
  destruct (environ !! "INGEST_FUNCTION_TOKEN") as [token|]; [|reflexivity].
  intros [-> | ->]; [reflexivity|].
  cbn. rewrite String.eqb_refl. apply andb_false_r.
Qed.

(** With the token check passed and the configuration read, the [try]
    block is the loop over the URLs followed by the answer. *)
Lemma ingest_body_configured (fuel : nat) (req : request) (urls : list string)
    (chunk_size overlap : Z) (st : state) :
  authorized req -> configured urls chunk_size overlap ->
  Main.ingest_body fuel req st =
  bind (Main.ingest_loop fuel urls chunk_size overlap [] [])
    (fun acc => Main.respond acc.1 acc.2)
    (add_log (log_preparing urls chunk_size overlap) st).
Proof.
  intros Hauth (urls_csv & size_text & overlap_text
                & Hcsv & Hparse & Hne & Hsize & Hsz & Hoverlap & Hov).
  unfold Main.ingest_body. unfold bind at 1. unfold lift at 1.
  rewrite get_env_optional. rewrite (authorized_passes req Hauth).
  unfold bind at 1.
  rewrite (get_env_required_set _ _ st Hcsv);
    [|apply parse_urls_not_empty; rewrite Hparse; exact Hne].
  unfold bind at 1.
  rewrite (get_env_required_set _ _ st Hsize (py_int_not_empty _ _ Hsz)).
  unfold bind at 1. unfold lift at 1. rewrite Hsz.
  unfold bind at 1.
  rewrite (get_env_required_set _ _ st Hoverlap (py_int_not_empty _ _ Hov)).
  unfold bind at 1. unfold lift at 1. rewrite Hov.
  cbv zeta. rewrite Hparse.
  destruct urls as [|url rest]; [congruence|]. reflexivity.
Qed.

Lemma ingest_loop_all_not_found (fuel : nat) (urls : list string)
    (chunk_size overlap : Z) :
  (forall url n, url ∈ urls -> not_found (requests_get n url)) ->
  forall docs skipped st,
    exists st',
      Main.ingest_loop fuel urls chunk_size overlap docs skipped st
      = (Returned (docs, skipped), st')
      /\ upsert_calls st' = upsert_calls st.
Proof.
  induction urls as [|url rest IH]; intros H404 docs skipped st.
  - exists st. split; reflexivity.
  - rewrite (ingest_loop_not_found fuel url rest chunk_size overlap docs skipped st _
               (fetch_url_not_found url st (H404 url _ ltac:(left)))).
    destruct (IH (fun u n Hin => H404 u n ltac:(right; exact Hin)) docs skipped
                (add_log (log_prepared url 0)
                   (add_log (log_left_out url)
                      (add_log (log_404 url) (count_request st)))))
      as (st' & Hrun & Hcalls).
    exists st'. split; [exact Hrun|]. rewrite Hcalls. reflexivity.
Qed.

End Ingest.

Section IngestTheorems.
Context {W : World}.

Lemma extends_quietly_refl (st : state) : extends_quietly st st.
Proof.
  split; [reflexivity|]. exists []. rewrite app_nil_r. split; [reflexivity|constructor].
Qed.

Lemma extends_quietly_trans (st1 st2 st3 : state) :
  extends_quietly st1 st2 -> extends_quietly st2 st3 -> extends_quietly st1 st3.
Proof.
  intros [Hc1 (n1 & Hl1 & Hq1)] [Hc2 (n2 & Hl2 & Hq2)]. split; [congruence|].
  exists (n1 ++ n2). rewrite Hl2, Hl1, app_assoc. split; [reflexivity|].
  apply Forall_app. split; assumption.
Qed.

Lemma extends_quietly_log (r : log_record) (st : state) :
  log_level r <> ERROR -> extends_quietly st (add_log r st).
Proof.
  intros Hr. split; [reflexivity|]. exists [r]. split; [reflexivity|].
  constructor; [exact Hr|constructor].
Qed.

Lemma extends_quietly_request (st : state) : extends_quietly st (count_request st).
Proof.
  split; [reflexivity|]. exists []. cbn. rewrite app_nil_r.
  split; [reflexivity|constructor].
Qed.

Lemma extends_quietly_log_after (r : log_record) (st st' : state) :
  log_level r <> ERROR -> extends_quietly st st' -> extends_quietly st (add_log r st').
Proof.
  intros Hr Hq. eapply extends_quietly_trans; [exact Hq|].
  apply extends_quietly_log, Hr.
Qed.

Lemma extends_quietly_request_after (st st' : state) :
  extends_quietly st st' -> extends_quietly st (count_request st').
Proof.
  intros Hq. eapply extends_quietly_trans; [exact Hq|].
  apply extends_quietly_request.
Qed.

Ltac quiet :=
  repeat first
    [ assumption
    | apply extends_quietly_refl
    | apply extends_quietly_request_after
    | apply extends_quietly_log_after; [discriminate|] ].

Lemma ingest_loop_all_not_found_quietly (fuel : nat) (urls : list string)
    (chunk_size overlap : Z) :
  (forall url n, url ∈ urls -> not_found (requests_get n url)) ->
  forall rest docs skipped st,
    exists st',
      extends_quietly st st'
      /\ Main.ingest_loop fuel (urls ++ rest) chunk_size overlap docs skipped st
         = Main.ingest_loop fuel rest chunk_size overlap docs skipped st'.
Proof.
  induction urls as [|url urls IH]; intros H404 rest docs skipped st.
  - exists st. split; [apply extends_quietly_refl|reflexivity].
  - cbn [app].
    rewrite (ingest_loop_not_found fuel url (urls ++ rest) chunk_size overlap
               docs skipped st _
               (fetch_url_not_found url st (H404 url _ ltac:(left)))).
    destruct (IH (fun u n Hin => H404 u n ltac:(right; exact Hin)) rest docs skipped
                (add_log (log_prepared url 0)
                   (add_log (log_left_out url)
                      (add_log (log_404 url) (count_request st)))))
      as (st' & Hquiet & Hrun).
    exists st'. split; [|exact Hrun].
    eapply extends_quietly_trans; [|exact Hquiet]. quiet.
Qed.

(** C1, on the code. When every configured URL is answered with 404, the
    endpoint does not give the 207 answer: no skip record was made, so it
    calls [upsert_documents] with the empty list and answers 200 with
    status [ok], [ingested] 0 and an empty skip list. *)
Theorem all_not_found_answers_ok (fuel : nat) (req : request) (urls : list string)
    (chunk_size overlap : Z) (st : state) :
  authorized req -> configured urls chunk_size overlap ->
  (forall url n, url ∈ urls -> not_found (requests_get n url)) ->
  exists st',
    Main.ingest_stripe_docs fuel req st = (Returned (ok_response 0 []), st')
    /\ upsert_calls st' = upsert_calls st ++ [[]].
Proof.
  intros Hauth Hconf H404.
  unfold Main.ingest_stripe_docs. unfold bind at 1.
  change (logger_info _ _ _ st) with (Returned tt, add_log (log_received req) st).
  cbv iota. unfold try_except.
  rewrite (ingest_body_configured fuel req urls chunk_size overlap _ Hauth Hconf).
  unfold bind at 1.
  destruct (ingest_loop_all_not_found fuel urls chunk_size overlap H404 [] []
              (add_log (log_preparing urls chunk_size overlap)
                 (add_log (log_received req) st)))
    as (st1 & Hrun & Hcalls).
  rewrite Hrun. eexists. split; [reflexivity|].
  cbn. rewrite Hcalls. reflexivity.
Qed.

(** C2, on the code. A URL whose fetch brings no value (a 404) makes
    [prepare_documents] return the empty list without raising, and the
    loop of the endpoint goes on to the remaining URLs; but the skip list
    goes on unchanged, and is unchanged whenever the loop returns: no Skip
    Record is made for the URL. *)
Theorem not_found_leaves_no_record (fuel : nat) (url : string) (rest : list string)
    (chunk_size overlap : Z) (docs : list document)
    (skipped : list Main.skip_record) (st st1 : state) :
  Utils.fetch_url url st = (Returned None, st1) ->
  Utils.prepare_documents fuel [url] chunk_size overlap st
  = (Returned [], add_log (log_left_out url) st1)
  /\ Main.ingest_loop fuel (url :: rest) chunk_size overlap docs skipped st
     = Main.ingest_loop fuel rest chunk_size overlap docs skipped
         (add_log (log_prepared url 0) (add_log (log_left_out url) st1))
  /\ forall docs' skipped' st',
       Main.ingest_loop fuel (url :: rest) chunk_size overlap docs skipped st
       = (Returned (docs', skipped'), st') ->
       skipped' = skipped.
Proof.
  intros Hfetch. split; [|split].
  - rewrite prepare_documents_single, Hfetch. reflexivity.
  - apply ingest_loop_not_found, Hfetch.
  - intros docs' skipped' st'. apply ingest_loop_skips_nothing.
Qed.

(** C3, on the code. When preparation for some URL exhausts the five
    attempts on a cause that is not a 404 (the URLs before it all answered
    404), the error that reaches the handlers is tenacity's, which the
    [except RetryError] clause does not match: the answer is the one of the
    catch-all clause, 500 with the single key [error], and the only ERROR
    record of the run is that clause's, so the root cause is not logged
    apart. *)
Theorem retry_exhaustion_unhandled (fuel : nat) (req : request)
    (before : list string) (url : string) (after : list string)
    (chunk_size overlap : Z) (st : state) :
  authorized req -> configured (before ++ url :: after) chunk_size overlap ->
  (forall u n, u ∈ before -> not_found (requests_get n u)) ->
  (forall n, attempt_error url (requests_get n url) <> None) ->
  exists root st1,
    (exists n, attempt_error url (requests_get n url) = Some root)
    /\ extends_quietly st st1
    /\ Main.ingest_stripe_docs fuel req st
       = (Returned (error_response (str_exn (TenacityRetryError root))),
          add_log (log_unhandled (TenacityRetryError root)) st1)
    /\ forall details,
         error_response (str_exn (TenacityRetryError root))
         <> retry_error_response details.
Proof.
  intros Hauth Hconf H404 Hfail.
  unfold Main.ingest_stripe_docs. unfold bind at 1.
  change (logger_info _ _ _ st) with (Returned tt, add_log (log_received req) st).
  cbv iota. unfold try_except.
  rewrite (ingest_body_configured fuel req _ chunk_size overlap _ Hauth Hconf).
  unfold bind at 1.
  destruct (ingest_loop_all_not_found_quietly fuel before chunk_size overlap H404
              (url :: after) [] []
              (add_log (log_preparing (before ++ url :: after) chunk_size overlap)
                 (add_log (log_received req) st)))
    as (st0 & Hquiet & Hrun).
  rewrite Hrun, ingest_loop_cons, prepare_documents_single.
  destruct (retrying_exhausted 4 url Hfail st0) as (root & Hroot & Hretry).
  unfold Utils.fetch_url, Utils.stop_after_attempt. rewrite Hretry.
  exists root, (count_requests 5 st0). split; [eauto|]. split; [|split].
  - cbn [count_requests]. quiet.
    eapply extends_quietly_trans; [|exact Hquiet]. quiet.
  - reflexivity.
  - intros details. discriminate.
Qed.

End IngestTheorems.

Section NeverSkipped.
Context {W : World}.

Lemma respond_status (docs : list document) (st st' : state) (r : http_response) :
  Main.respond docs [] st = (Returned r, st') -> resp_status r = 200.
Proof.
  unfold Main.respond.
  assert (Hgen :
    (bind (logger_info "Upserting documents" []
             [("document_count", JInt (Z.of_nat (length docs)));
              ("skipped_count", JInt (Z.of_nat (@length Main.skip_record [])))])
       (fun _ =>
          bind (Vectorstore.upsert_documents docs)
            (fun _ =>
               bind (logger_info "Ingestion completed successfully" []
                       [("ingested_documents", JInt (Z.of_nat (length docs)));
                        ("skipped_urls",
                         JList (Main.skip_json <$> @nil Main.skip_record))])
                 (fun _ => ret (ok_response (length docs) [])))) st
     = (Returned r, st')) -> resp_status r = 200).
  { unfold bind at 1. cbn [logger_info emit]. unfold bind at 1.
    destruct (Vectorstore.upsert_documents docs _) as [[[]|e|] st1];
      try discriminate.
    inversion 1; subst. reflexivity. }
  destruct docs; exact Hgen.
Qed.

Lemma on_ingest_error_status (exc : exn) (st st' : state) (r : http_response) :
  Main.on_ingest_error exc st = (Returned r, st') -> resp_status r = 500.
Proof.
  unfold Main.on_ingest_error.
  destruct (is_google_RetryError exc).
  - destruct (last_attempt_exception exc); inversion 1; subst; reflexivity.
  - inversion 1; subst. reflexivity.
Qed.

Lemma ingest_body_status (fuel : nat) (req : request) (st st' : state)
    (r : http_response) :
  Main.ingest_body fuel req st = (Returned r, st') ->
  resp_status r = 401 \/ resp_status r = 400 \/ resp_status r = 200.
Proof.
  unfold Main.ingest_body. unfold bind at 1. unfold lift at 1.
  rewrite get_env_optional.
  destruct (truthy _ && negb _).
  { inversion 1; subst. left. reflexivity. }
  unfold bind at 1.
  destruct (Main.get_env_required "STRIPE_DOC_URLS" st) as [[urls_csv|e|] s1];
    try discriminate.
  unfold bind at 1.
  destruct (Main.get_env_required "CHUNK_SIZE" s1) as [[size_text|e|] s2];
    try discriminate.
  unfold bind at 1. unfold lift at 1.
  destruct (py_int size_text) as [chunk_size|e|]; try discriminate.
  unfold bind at 1.
  destruct (Main.get_env_required "CHUNK_OVERLAP" s2) as [[overlap_text|e|] s3];
    try discriminate.
  unfold bind at 1. unfold lift at 1.
  destruct (py_int overlap_text) as [overlap|e|]; try discriminate.
  cbv zeta.
  destruct (Main.parse_urls urls_csv) as [|url rest].
  { inversion 1; subst. right. left. reflexivity. }
  unfold bind at 1. cbn [logger_info emit]. unfold bind at 1.
  destruct (Main.ingest_loop fuel (url :: rest) chunk_size overlap [] [] _)
    as [[[docs skipped]|e|] s4] eqn:Hloop; try discriminate.
  apply ingest_loop_skips_nothing in Hloop. subst skipped.
  intros Hrespond. right. right. exact (respond_status _ _ _ _ Hrespond).
Qed.

(** No run of the endpoint answers 207: the skip list is empty whenever
    the loop over the URLs returns. *)
Lemma ingest_never_207 (fuel : nat) (req : request) (st st' : state)
    (r : http_response) :
  Main.ingest_stripe_docs fuel req st = (Returned r, st') -> resp_status r <> 207.
Proof.
  unfold Main.ingest_stripe_docs. unfold bind at 1. cbn [logger_info emit].
  unfold try_except.
  destruct (Main.ingest_body fuel req _) as [[r0|e|] s1] eqn:Hbody.
  - inversion 1; subst.
    destruct (ingest_body_status _ _ _ _ _ Hbody) as [Hs|[Hs|Hs]]; rewrite Hs; lia.
  - intros Hhandler. rewrite (on_ingest_error_status _ _ _ _ Hhandler). lia.
  - discriminate.
Qed.

End NeverSkipped.

Lemma all_not_found_answers_ok_witness :
  exists st',
    Main.ingest_stripe_docs (W := demo_world demo_environ origin_404)
      10 (mk_request [] None) initial_state
    = (Returned (ok_response 0 []), st')
    /\ upsert_calls st' = [[]].
Proof.
  apply (all_not_found_answers_ok (W := demo_world demo_environ origin_404)
           10 (mk_request [] None) ["https://a"; "https://b"] 2 0 initial_state).
  - vm_compute. exact I.
  - exists "https://a, https://b", "2", "0".
    repeat split; try (vm_compute; reflexivity). discriminate.
  - intros url n _. reflexivity.
Defined.

Lemma not_found_leaves_no_record_witness :
  Utils.prepare_documents (W := demo_world demo_environ origin_mixed)
    10 ["https://a"] 2 0 initial_state
  = (Returned [],
     add_log (log_left_out "https://a")
       (add_log (log_404 "https://a") (count_request initial_state)))
  /\ Main.ingest_loop (W := demo_world demo_environ origin_mixed)
       10 ["https://a"; "https://b"] 2 0 [] [] initial_state
     = Main.ingest_loop (W := demo_world demo_environ origin_mixed)
         10 ["https://b"] 2 0 [] []
         (add_log (log_prepared "https://a" 0)
            (add_log (log_left_out "https://a")
               (add_log (log_404 "https://a") (count_request initial_state)))).
Proof.
  destruct (not_found_leaves_no_record (W := demo_world demo_environ origin_mixed)
              10 "https://a" ["https://b"] 2 0 [] [] initial_state
              (add_log (log_404 "https://a") (count_request initial_state))
              eq_refl) as (Hprepare & Hloop & _).
  split; [exact Hprepare|exact Hloop].
Defined.

Lemma retry_exhaustion_unhandled_witness :
  exists root st1,
    (exists n, attempt_error "https://a" (origin_500 n "https://a") = Some root)
    /\ extends_quietly initial_state st1
    /\ Main.ingest_stripe_docs (W := demo_world demo_environ origin_500)
         10 (mk_request [] None) initial_state
       = (Returned (error_response (str_exn (TenacityRetryError root))),
          add_log (log_unhandled (TenacityRetryError root)) st1)
    /\ forall details,
         error_response (str_exn (TenacityRetryError root))
         <> retry_error_response details.
Proof.
  apply (retry_exhaustion_unhandled (W := demo_world demo_environ origin_500)
           10 (mk_request [] None) [] "https://a" ["https://b"] 2 0 initial_state).
  - vm_compute. exact I.
  - exists "https://a, https://b", "2", "0".
    repeat split; try (vm_compute; reflexivity). discriminate.
  - intros u n Hin. apply elem_of_nil in Hin. contradiction.
  - intros n. vm_compute. discriminate.
Defined.

(** The runs behind C1, C2 and C3, evaluated. *)
Example run_all_not_found :
  (Main.ingest_stripe_docs (W := demo_world demo_environ origin_404)
     10 (mk_request [] None) initial_state).1
  = Returned (ok_response 0 []).
Proof. vm_compute. reflexivity. Qed.

Example run_one_not_found :
  (Main.ingest_stripe_docs (W := demo_world demo_environ origin_mixed)
     10 (mk_request [] None) initial_state).1
  = Returned (ok_response 3 []).
Proof. vm_compute. reflexivity. Qed.

Example run_retries_exhausted :
  (Main.ingest_stripe_docs (W := demo_world demo_environ origin_500)
     10 (mk_request [] None) initial_state).1
  = Returned (error_response "RetryError[<Future state=finished raised HTTPError>]").
Proof. vm_compute. reflexivity. Qed.

(** ** The embedding proxy *)

Section Proxy.
Context {W : World}.

Lemma embed_authorized_passes (req : request) :
  embed_authorized req ->
  truthy (Main.option_json (environ !! "EMBED_FUNCTION_TOKEN"))
  && negb (option_string_eqb (headers_get "X-Internal-Token" (headers req))
             (environ !! "EMBED_FUNCTION_TOKEN")) = false.
Proof.
  unfold embed_authorized.
  destruct (environ !! "EMBED_FUNCTION_TOKEN") as [token|]; [|reflexivity].
  intros [-> | ->]; [reflexivity|].
  cbn. rewrite String.eqb_refl. apply andb_false_r.
Qed.

Lemma embed_initialised (req : request) (initialized : bool) :
  (EmbedTexts.init_vertex_client initialized).1 = Returned tt ->
  (EmbedTexts.embed req initialized).1 = EmbedTexts.embed_checked req.
Proof.
  unfold EmbedTexts.embed.
  destruct (EmbedTexts.init_vertex_client initialized) as [[[]|e|] flag];
    cbn; congruence.
Qed.

Lemma texts_missing_rejected (fields : list (string * json)) :
  texts_missing fields ->
  let texts := default JNull (dict_get "texts" fields) in
  negb (truthy texts) || negb (EmbedTexts.is_list texts) = true.
Proof.
  intros [Habsent|[(v & Hv & Hlist)|Hempty]]; cbv zeta.
  - rewrite Habsent. reflexivity.
  - rewrite Hv. cbn. rewrite Hlist. apply orb_true_r.
  - rewrite Hempty. reflexivity.
Qed.

(** X27. For an authorized request served with the client initialised: a
    body that is not JSON gets 400 [Invalid JSON payload]; a JSON object
    whose [texts] is absent, not a list or the empty list gets 400
    [Missing 'texts' array]; a JSON object whose [texts] is a list that is
    not empty gets, when the embedding call returns, 200 with the vectors
    the model returned, in the model's order, and when the call raises, no
    response: the error goes through. *)
Theorem embed_validation (req : request) (initialized : bool) :
  embed_authorized req ->
  (EmbedTexts.init_vertex_client initialized).1 = Returned tt ->
  (body_json req = None ->
     (EmbedTexts.embed req initialized).1 = Returned invalid_json_response)
  /\ (forall fields,
        body_json req = Some (JDict fields) -> texts_missing fields ->
        (EmbedTexts.embed req initialized).1 = Returned missing_texts_response)
  /\ (forall fields items,
        body_json req = Some (JDict fields) ->
        dict_get "texts" fields = Some (JList items) -> items <> [] ->
        (forall vectors,
           get_embeddings items = Returned vectors ->
           (EmbedTexts.embed req initialized).1
           = Returned (embeddings_response vectors))
        /\ (forall e,
              get_embeddings items = Raised e ->
              (EmbedTexts.embed req initialized).1 = Raised e)).
Proof.
  intros Hauth Hinit. rewrite (embed_initialised req initialized Hinit).
  unfold EmbedTexts.embed_checked. rewrite (embed_authorized_passes req Hauth).
  split; [|split].
  - intros ->. reflexivity.
  - intros fields -> Hmissing. cbn [EmbedTexts.payload_get].
    rewrite (texts_missing_rejected fields Hmissing). reflexivity.
  - intros fields items -> Htexts Hne. cbn [EmbedTexts.payload_get].
    rewrite Htexts. destruct items as [|item items]; [congruence|]. cbn.
    split.
    + intros vectors ->. reflexivity.
    + intros e ->. reflexivity.
Qed.

(** C8, on the code. [embed] reads [texts] with [payload.get], which only
    a JSON object has.  Take an authorized request, served with the client
    initialised, whose body parses to JSON in which the [texts] field is
    absent.  When the body is an object the response is 400
    [Missing 'texts' array], as the claim says.  When it is anything else (a
    list, a string, a number, [true], [null]) the call [payload.get] raises
    [AttributeError], which nothing catches: the request gets no response,
    and so not the 400 the test on [texts] right after is there to give. *)
Theorem embed_texts_absent (req : request) (initialized : bool) (payload : json) :
  embed_authorized req ->
  (EmbedTexts.init_vertex_client initialized).1 = Returned tt ->
  body_json req = Some payload ->
  texts_field payload = None ->
  ((exists fields, payload = JDict fields) ->
     (EmbedTexts.embed req initialized).1 = Returned missing_texts_response)
  /\ (not_object payload ->
        (EmbedTexts.embed req initialized).1
        = Raised (AttributeError "object has no attribute 'get'")
        /\ forall response,
             (EmbedTexts.embed req initialized).1 <> Returned response).
Proof.
  intros Hauth Hinit Hbody Habsent.
  rewrite (embed_initialised req initialized Hinit).
  unfold EmbedTexts.embed_checked.
  rewrite (embed_authorized_passes req Hauth), Hbody.
  split.
  - intros [fields ->]. cbn [EmbedTexts.payload_get].
    cbn [texts_field] in Habsent. rewrite Habsent. reflexivity.
  - intros Hother.
    assert (Hget : EmbedTexts.payload_get payload "texts"
                   = Raised (AttributeError "object has no attribute 'get'")).
    { destruct payload; try contradiction; reflexivity. }
    rewrite Hget. split; [reflexivity|discriminate].
Qed.

Lemma init_without_config :
  environ !! "VERTEX_PROJECT_ID" = None \/ environ !! "VERTEX_LOCATION" = None ->
  exists key, EmbedTexts.init_vertex_client false = (Raised (KeyError key), false).
Proof.
  unfold EmbedTexts.init_vertex_client. intros [Hproject|Hlocation].
  - rewrite Hproject. eauto.
  - destruct (environ !! "VERTEX_PROJECT_ID"); [|eauto].
    rewrite Hlocation. eauto.
Qed.

(** C10. [embed] calls [init_vertex_client] before it looks at the token
    or the body.  In a process whose environment lacks [VERTEX_PROJECT_ID]
    or [VERTEX_LOCATION], every request, whatever its token and body, ends
    in an unhandled [KeyError]: none gets a response, so none gets 401 or
    400, and the flag stays unset. *)
Theorem embed_unconfigured (reqs : list request) :
  environ !! "VERTEX_PROJECT_ID" = None \/ environ !! "VERTEX_LOCATION" = None ->
  length (EmbedTexts.serve reqs false) = length reqs
  /\ Forall (fun o => exists key, o = Raised (KeyError key))
       (EmbedTexts.serve reqs false)
  /\ forall req, (EmbedTexts.embed req false).2 = false.
Proof.
  intros Hmissing. destruct (init_without_config Hmissing) as [key Hinit].
  assert (Hone : forall req, EmbedTexts.embed req false = (Raised (KeyError key), false)).
  { intros req. unfold EmbedTexts.embed. rewrite Hinit. reflexivity. }
  split; [|split].
  - induction reqs as [|req reqs IH]; [reflexivity|].
    cbn [EmbedTexts.serve]. rewrite Hone. cbn. rewrite IH. reflexivity.
  - induction reqs as [|req reqs IH]; [constructor|].
    cbn [EmbedTexts.serve]. rewrite Hone. cbn. constructor; [eauto|exact IH].
  - intros req. rewrite Hone. reflexivity.
Qed.

End Proxy.

Lemma embed_validation_witness :
  (EmbedTexts.embed (W := demo_world demo_environ origin_ok)
     (texts_request [] (JList [])) false).1
  = Returned missing_texts_response
  /\ (EmbedTexts.embed (W := demo_world demo_environ origin_ok)
        (texts_request [] (JList [JStr "a"; JStr "b"])) false).1
     = Returned (embeddings_response [[0]; [0]]).
Proof.
  split.
  - apply (embed_validation (W := demo_world demo_environ origin_ok)
             (texts_request [] (JList [])) false I eq_refl)
        with (fields := [("texts", JList [])]); [reflexivity|].
    right. right. reflexivity.
  - apply (embed_validation (W := demo_world demo_environ origin_ok)
             (texts_request [] (JList [JStr "a"; JStr "b"])) false I eq_refl)
        with (fields := [("texts", JList [JStr "a"; JStr "b"])])
             (items := [JStr "a"; JStr "b"]);
      [reflexivity|reflexivity|discriminate|reflexivity].
Defined.

Lemma embed_texts_absent_witness :
  (EmbedTexts.embed (W := demo_world proxy_environ origin_ok)
     (mk_request [("X-Internal-Token", "secret")] (Some (JList []))) false).1
  = Raised (AttributeError "object has no attribute 'get'")
  /\ (EmbedTexts.embed (W := demo_world proxy_environ origin_ok)
        (mk_request [("X-Internal-Token", "secret")] (Some JNull)) false).1
     = Raised (AttributeError "object has no attribute 'get'")
  /\ (EmbedTexts.embed (W := demo_world proxy_environ origin_ok)
        (mk_request [("X-Internal-Token", "secret")] (Some (JDict []))) false).1
     = Returned missing_texts_response.
Proof.
  split; [|split].
  - apply (embed_texts_absent (W := demo_world proxy_environ origin_ok)
             (mk_request [("X-Internal-Token", "secret")] (Some (JList [])))
             false (JList []));
      first [reflexivity|exact I|(right; reflexivity)].
  - apply (embed_texts_absent (W := demo_world proxy_environ origin_ok)
             (mk_request [("X-Internal-Token", "secret")] (Some JNull))
             false JNull);
      first [reflexivity|exact I|(right; reflexivity)].
  - apply (embed_texts_absent (W := demo_world proxy_environ origin_ok)
             (mk_request [("X-Internal-Token", "secret")] (Some (JDict [])))
             false (JDict []));
      first [reflexivity|(right; reflexivity)|(exists []; reflexivity)].
Defined.

(** An authorized request with a list of one text, sent while the
    embedding service is down, gets no 200 response; the error of the call
    goes through. *)
Lemma embed_model_down :
  embed_authorized (W := model_down_world) (texts_request [] (JList [JStr "a"]))
  /\ (EmbedTexts.embed (W := model_down_world)
        (texts_request [] (JList [JStr "a"])) false).1
     = Raised (OtherException "503 Service Unavailable")
  /\ ~ (exists vectors,
          (EmbedTexts.embed (W := model_down_world)
             (texts_request [] (JList [JStr "a"])) false).1
          = Returned (embeddings_response vectors)).
Proof.
  split; [exact I|]. split; [reflexivity|].
  intros [vectors H]. discriminate H.
Qed.

(** A body that is JSON but not an object: [payload.get] raises. *)
Example embed_list_body :
  (EmbedTexts.embed (W := demo_world demo_environ origin_ok)
     (mk_request [] (Some (JList []))) true).1
  = Raised (AttributeError "object has no attribute 'get'").
Proof. reflexivity. Qed.

Lemma embed_unconfigured_witness :
  EmbedTexts.embed_checked (W := demo_world unconfigured_environ origin_ok)
    (texts_request [("X-Internal-Token", "wrong")] (JList [JStr "a"]))
  = Returned unauthorized_response
  /\ Forall (fun o => exists key, o = Raised (KeyError key))
       (EmbedTexts.serve (W := demo_world unconfigured_environ origin_ok)
          [texts_request [("X-Internal-Token", "wrong")] (JList [JStr "a"]);
           mk_request [("X-Internal-Token", "secret")] None;
           texts_request [("X-Internal-Token", "secret")] (JList [])]
          false).
Proof.
  split; [reflexivity|].
  apply (embed_unconfigured (W := demo_world unconfigured_environ origin_ok)).
  left. reflexivity.
Defined.

(** * Further properties of the code *)

(** ** Chunking in closed form *)

Section ChunkClosedForm.

Variables (words : list string) (chunk_size step : Z).
Hypothesis step_pos : 0 < step.
Hypothesis size_nonneg : 0 <= chunk_size.

Lemma py_slice_window (start : Z) :
  0 <= start < Z.of_nat (length words) ->
  py_slice words start (Z.min (start + chunk_size) (Z.of_nat (length words)))
  = take (Z.to_nat chunk_size) (drop (Z.to_nat start) words).
Proof.
  intros Hstart. unfold py_slice.
  destruct (Z.ltb_spec start 0); [lia|].
  destruct (Z.ltb_spec (Z.min (start + chunk_size) (Z.of_nat (length words))) 0);
    [lia|].
  rewrite (Z.min_l start) by lia.
  rewrite Z.min_l by lia.
  destruct (Z.le_ge_cases (start + chunk_size) (Z.of_nat (length words))) as [Hle|Hge].
  - rewrite Z.min_l by lia. f_equal. lia.
  - rewrite Z.min_r by lia.
    rewrite (take_ge _ (Z.to_nat chunk_size)) by (rewrite length_drop; lia).
    apply take_ge. rewrite length_drop. lia.
Qed.

Lemma ceil_div_step (a : Z) :
  0 < a -> (a + step + step - 1) / step = (a + step - 1) / step + 1.
Proof.
  intros _. replace (a + step + step - 1) with ((a + step - 1) + 1 * step) by lia.
  apply Z.div_add. lia.
Qed.

Lemma ceil_div_done (a : Z) : a <= 0 -> Z.to_nat ((a + step - 1) / step) = 0%nat.
Proof.
  intros Ha. assert ((a + step - 1) / step <= 0); [|lia].
  apply Z.lt_succ_r. apply Z.div_lt_upper_bound; lia.
Qed.

(** What the loop adds from [start] on: one window per multiple of [step]
    below the number of words. *)
Lemma chunk_loop_closed (fuel : nat) :
  forall start chunks result,
    0 <= start ->
    chunk_loop fuel words chunk_size step start chunks = Returned result ->
    result
    = chunks
      ++ ((fun k => PyStr.join " "
                      (take (Z.to_nat chunk_size)
                         (drop (Z.to_nat (start + Z.of_nat k * step)) words)))
            <$> seq 0 (Z.to_nat ((Z.of_nat (length words) - start + step - 1) / step))).
Proof.
  induction fuel as [|fuel IH]; intros start chunks result Hstart Hrun;
    [discriminate|].
  cbn [chunk_loop] in Hrun.
  destruct (Z.ltb_spec start (Z.of_nat (length words))) as [Hlt|Hge].
  - rewrite py_slice_window in Hrun by lia.
    apply IH in Hrun; [|lia]. rewrite Hrun, <- app_assoc. f_equal.
    replace (Z.of_nat (length words) - start + step - 1)
      with ((Z.of_nat (length words) - (start + step)) + step + step - 1) by lia.
    destruct (Z.le_gt_cases (Z.of_nat (length words) - (start + step)) 0) as [Hlast|Hmore].
    + rewrite (ceil_div_done _ Hlast).
      replace (Z.to_nat ((Z.of_nat (length words) - (start + step) + step + step - 1) / step))
        with 1%nat.
      { cbn. rewrite Z.add_0_r. reflexivity. }
      symmetry. assert (Hq : (Z.of_nat (length words) - (start + step) + step + step - 1) / step = 1);
        [|rewrite Hq; reflexivity].
      symmetry. apply Z.div_unique with (r := Z.of_nat (length words) - start - 1); lia.
    + rewrite (ceil_div_step _ Hmore).
      rewrite Z2Nat.inj_add by (try apply Z.div_pos; lia).
      rewrite Nat.add_comm. change (Z.to_nat 1) with 1%nat. cbn [Nat.add seq].
      rewrite fmap_cons. cbn [app]. rewrite Z.add_0_r. f_equal.
      rewrite <- fmap_S_seq, <- list_fmap_compose.
      apply list_fmap_ext. intros _ k _. cbn. do 4 f_equal. lia.
  - inversion Hrun; subst.
    rewrite ceil_div_done by lia. cbn. rewrite app_nil_r. reflexivity.
Qed.

End ChunkClosedForm.

Lemma chunk_count_lt (n : nat) (step : Z) (i : nat) :
  0 < step -> (i < chunk_count n step)%nat <-> (i * Z.to_nat step < n)%nat.
Proof.
  intros Hstep. unfold chunk_count.
  pose proof (Z.div_mod (Z.of_nat n + step - 1) step ltac:(lia)) as Hdm.
  pose proof (Z.mod_pos_bound (Z.of_nat n + step - 1) step Hstep) as Hmod.
  assert (0 <= (Z.of_nat n + step - 1) / step) by (apply Z.div_pos; lia).
  split; intros Hlt.
  - assert (Z.of_nat i + 1 <= (Z.of_nat n + step - 1) / step) by lia.
    assert (Z.of_nat i * step < Z.of_nat n) by nia.
    apply Nat2Z.inj_lt. rewrite Nat2Z.inj_mul, Z2Nat.id by lia. lia.
  - apply Nat2Z.inj_lt in Hlt. rewrite Nat2Z.inj_mul, Z2Nat.id in Hlt by lia.
    assert (Z.of_nat i < (Z.of_nat n + step - 1) / step) by nia. lia.
Qed.

Lemma chunk_text_closed (text : string) (chunk_size overlap : Z) (fuel : nat) :
  overlap < chunk_size -> 0 <= chunk_size ->
  (length (PyStr.split text) < fuel)%nat ->
  chunk_text fuel text chunk_size overlap
  = Returned
      ((fun i => PyStr.join " "
                   (chunk_words (PyStr.split text) chunk_size (chunk_size - overlap) i))
         <$> seq 0 (chunk_count (length (PyStr.split text)) (chunk_size - overlap))).
Proof.
  intros Hstep Hsize Hfuel.
  destruct (chunk_text_returns text chunk_size overlap Hstep) as [chunks Hchunks].
  specialize (Hchunks fuel Hfuel). rewrite Hchunks. f_equal.
  unfold chunk_text in Hchunks.
  destruct (PyStr.split text) as [|w ws] eqn:Hwords.
  - inversion Hchunks; subst. unfold chunk_count. cbn [length]. rewrite ceil_div_done by lia.
    reflexivity.
  - apply chunk_loop_closed in Hchunks; [|lia|lia|lia].
    rewrite Hchunks. cbn [app]. unfold chunk_count, chunk_words.
    replace (Z.of_nat (length (w :: ws)) - 0 + (chunk_size - overlap) - 1)
      with (Z.of_nat (length (w :: ws)) + (chunk_size - overlap) - 1) by lia.
    apply list_fmap_ext. intros _ k _. cbn beta. do 3 f_equal.
    rewrite Z.add_0_l, Z2Nat.inj_mul, Nat2Z.id by lia. reflexivity.
Qed.

Lemma chunk_words_are_words (text : string) (chunk_size step : Z) (i : nat) :
  PyStr.split (PyStr.join " " (chunk_words (PyStr.split text) chunk_size step i))
  = chunk_words (PyStr.split text) chunk_size step i.
Proof. apply words_of_chunk, split_words. Qed.

(** X1. With [overlap < chunk_size] and [chunk_size >= 0], [chunk_text]
    returns one chunk per multiple of the step below the number of words,
    that is the number of words over the step, rounded up; the chunk at
    position [i] joins the [chunk_size] words from word [i * step] on, or
    the ones that are left. *)
Theorem chunk_text_closed_form (text : string) (chunk_size overlap : Z) (fuel : nat) :
  overlap < chunk_size -> 0 <= chunk_size ->
  (length (PyStr.split text) < fuel)%nat ->
  exists chunks,
    chunk_text fuel text chunk_size overlap = Returned chunks
    /\ length chunks = chunk_count (length (PyStr.split text)) (chunk_size - overlap)
    /\ forall i chunk, chunks !! i = Some chunk ->
         chunk = PyStr.join " "
                   (take (Z.to_nat chunk_size)
                      (drop (i * Z.to_nat (chunk_size - overlap)) (PyStr.split text))).
Proof.
  intros Hstep Hsize Hfuel. eexists. split; [|split].
  - apply chunk_text_closed; assumption.
  - rewrite length_fmap, length_seq. reflexivity.
  - intros i chunk Hi. rewrite list_lookup_fmap in Hi.
    destruct (seq _ _ !! i) as [k|] eqn:Hk; [|discriminate].
    apply lookup_seq in Hk as [-> _]. inversion Hi; subst. reflexivity.
Qed.

Lemma chunk_text_closed_form_witness :
  exists chunks,
    chunk_text 8 "a b c d e f g" 3 1 = Returned chunks
    /\ length chunks = 4%nat
    /\ forall i chunk, chunks !! i = Some chunk ->
         chunk = PyStr.join " " (take 3 (drop (i * 2) ["a"; "b"; "c"; "d"; "e"; "f"; "g"])).
Proof.
  apply (chunk_text_closed_form "a b c d e f g" 3 1 8); [lia|lia|vm_compute; lia].
Defined.

Lemma chunk_sizes (text : string) (chunk_size overlap : Z) (fuel : nat)
    (chunks : list string) :
  overlap < chunk_size -> 0 < chunk_size ->
  chunk_text fuel text chunk_size overlap = Returned chunks ->
  Forall (fun chunk => (1 <= length (PyStr.split chunk))%nat
                       /\ Z.of_nat (length (PyStr.split chunk)) <= chunk_size)
    chunks.
Proof.
  intros Hstep Hsize Hrun. apply Forall_forall. intros chunk Hin.
  pose proof (chunk_text_closed text chunk_size overlap
                (S (Nat.max fuel (length (PyStr.split text)))) Hstep ltac:(lia)
                ltac:(lia)) as Hclosed.
  rewrite (chunk_text_deterministic _ _ _ _ _ _ _ Hrun Hclosed) in Hin.
  apply list_elem_of_fmap in Hin as (i & -> & Hi).
  apply elem_of_seq in Hi as [_ Hi]. cbn in Hi.
  apply chunk_count_lt in Hi; [|lia].
  rewrite chunk_words_are_words. unfold chunk_words.
  rewrite length_take, length_drop. lia.
Qed.

(** X2. With [0 < chunk_size] and [overlap < chunk_size], no chunk is
    empty and none holds more than [chunk_size] words. *)
Theorem chunk_text_sizes (text : string) (chunk_size overlap : Z) (fuel : nat)
    (chunks : list string) :
  overlap < chunk_size -> 0 < chunk_size ->
  chunk_text fuel text chunk_size overlap = Returned chunks ->
  forall chunk, chunk ∈ chunks ->
    (1 <= length (PyStr.split chunk))%nat
    /\ Z.of_nat (length (PyStr.split chunk)) <= chunk_size.
Proof.
  intros Hstep Hsize Hrun chunk Hin.
  pose proof (chunk_sizes text chunk_size overlap fuel chunks Hstep Hsize Hrun) as Hall.
  rewrite Forall_forall in Hall. exact (Hall chunk Hin).
Qed.

Lemma chunk_text_sizes_witness :
  (1 <= length (PyStr.split "g"))%nat /\ Z.of_nat (length (PyStr.split "g")) <= 3.
Proof.
  apply (chunk_text_sizes "a b c d e f g" 3 1 8 ["a b c"; "c d e"; "e f g"; "g"]);
    [lia|lia|reflexivity|].
  apply (bool_decide_unpack _). vm_compute. exact I.
Defined.

(** X3. With [0 <= overlap < chunk_size] no word is lost: word [j] of the
    text stands in the chunk at position [j / step], at place [j mod step]. *)
Theorem chunk_text_covers (text : string) (chunk_size overlap : Z) (fuel : nat)
    (chunks : list string) :
  0 <= overlap < chunk_size ->
  chunk_text fuel text chunk_size overlap = Returned chunks ->
  forall j word, PyStr.split text !! j = Some word ->
    exists chunk,
      chunks !! (j / Z.to_nat (chunk_size - overlap))%nat = Some chunk
      /\ PyStr.split chunk !! (j mod Z.to_nat (chunk_size - overlap))%nat = Some word.
Proof.
  intros Hov Hrun j word Hj.
  pose proof (chunk_text_closed text chunk_size overlap
                (S (Nat.max fuel (length (PyStr.split text)))) ltac:(lia) ltac:(lia)
                ltac:(lia)) as Hclosed.
  rewrite (chunk_text_deterministic _ _ _ _ _ _ _ Hrun Hclosed).
  set (s := Z.to_nat (chunk_size - overlap)).
  assert (Hs : (0 < s)%nat) by (subst s; lia).
  assert (Hn : (j < length (PyStr.split text))%nat) by (eapply lookup_lt_Some; eauto).
  pose proof (Nat.div_mod_eq j s) as Hdm.
  pose proof (Nat.mod_upper_bound j s ltac:(lia)) as Hmod.
  eexists. split.
  - rewrite list_lookup_fmap, lookup_seq_lt; [reflexivity|].
    apply chunk_count_lt; [lia|]. fold s. nia.
  - cbn [Nat.add]. rewrite chunk_words_are_words. unfold chunk_words. fold s.
    rewrite lookup_take_lt by lia. rewrite lookup_drop.
    replace (j `div` s * s + j `mod` s)%nat with j by lia. exact Hj.
Qed.

Lemma chunk_text_covers_witness :
  exists chunk,
    ["a b c"; "c d e"; "e f g"; "g"] !! (5 / Z.to_nat (3 - 1))%nat = Some chunk
    /\ PyStr.split chunk !! (5 mod Z.to_nat (3 - 1))%nat = Some "f".
Proof.
  apply (chunk_text_covers "a b c d e f g" 3 1 8 ["a b c"; "c d e"; "e f g"; "g"]);
    [lia|reflexivity|reflexivity].
Defined.

(** X4. With [overlap < chunk_size] and [chunk_size >= 0], two neighbours
    overlap as far as the first one reaches: what is left of a chunk's words
    after the first [step] of them opens the next chunk.  For a chunk of
    [chunk_size] words these are [overlap] words. *)
Theorem chunk_text_neighbours (text : string) (chunk_size overlap : Z) (fuel : nat)
    (chunks : list string) (i : nat) (chunk next : string) :
  overlap < chunk_size -> 0 <= chunk_size ->
  chunk_text fuel text chunk_size overlap = Returned chunks ->
  chunks !! i = Some chunk -> chunks !! S i = Some next ->
  drop (Z.to_nat (chunk_size - overlap)) (PyStr.split chunk)
  = take (length (PyStr.split chunk) - Z.to_nat (chunk_size - overlap))
      (PyStr.split next).
Proof.
  intros Hstep Hsize Hrun Hchunk Hnext.
  pose proof (chunk_text_closed text chunk_size overlap
                (S (Nat.max fuel (length (PyStr.split text)))) Hstep Hsize
                ltac:(lia)) as Hclosed.
  rewrite (chunk_text_deterministic _ _ _ _ _ _ _ Hrun Hclosed) in Hchunk, Hnext.
  rewrite list_lookup_fmap in Hchunk, Hnext.
  destruct (seq _ _ !! i) as [k|] eqn:Hk; [|discriminate].
  destruct (seq _ _ !! S i) as [k'|] eqn:Hk'; [|discriminate].
  apply lookup_seq in Hk as [-> _]. apply lookup_seq in Hk' as [-> Hlt].
  inversion Hchunk; inversion Hnext; subst. cbn [Nat.add].
  rewrite !chunk_words_are_words. unfold chunk_words.
  set (s := Z.to_nat (chunk_size - overlap)).
  set (c := Z.to_nat chunk_size). set (words := PyStr.split text).
  rewrite length_take, length_drop, take_take.
  apply list_eq. intros p.
  rewrite lookup_drop.
  destruct (decide (p < c `min` (length words - i * s) - s)%nat) as [Hp|Hp].
  - rewrite !lookup_take_lt by lia. rewrite !lookup_drop. f_equal. lia.
  - rewrite (lookup_take_ge _ ((c `min` (length words - i * s) - s) `min` c)) by lia.
    destruct (decide (s + p < c)%nat) as [Hc|Hc].
    + rewrite lookup_take_lt by lia. rewrite lookup_drop.
      apply lookup_ge_None. lia.
    + apply lookup_take_ge. lia.
Qed.

Lemma chunk_text_neighbours_witness :
  drop (Z.to_nat (3 - 1)) (PyStr.split "c d e")
  = take (length (PyStr.split "c d e") - Z.to_nat (3 - 1)) (PyStr.split "e f g").
Proof.
  apply (chunk_text_neighbours "a b c d e f g" 3 1 8 ["a b c"; "c d e"; "e f g"; "g"] 1);
    [lia|lia|reflexivity|reflexivity|reflexivity].
Defined.

(** X5. A text of at least one word that fits both in a chunk and in a
    step is returned as a single chunk, with its whitespace normalised. *)
Theorem chunk_text_short (text : string) (chunk_size overlap : Z) (fuel : nat) :
  PyStr.split text <> [] ->
  Z.of_nat (length (PyStr.split text)) <= chunk_size ->
  Z.of_nat (length (PyStr.split text)) <= chunk_size - overlap ->
  (length (PyStr.split text) < fuel)%nat ->
  chunk_text fuel text chunk_size overlap = Returned [normalize_whitespace text].
Proof.
  intros Hwords Hsize Hstep Hfuel.
  assert (Hn : (0 < length (PyStr.split text))%nat).
  { destruct (PyStr.split text); [congruence|cbn; lia]. }
  rewrite chunk_text_closed by lia.
  assert (Hcount : chunk_count (length (PyStr.split text)) (chunk_size - overlap) = 1%nat).
  { unfold chunk_count.
    assert (Hq : (Z.of_nat (length (PyStr.split text)) + (chunk_size - overlap) - 1)
                 / (chunk_size - overlap) = 1); [|rewrite Hq; reflexivity].
    symmetry.
    apply Z.div_unique with (r := Z.of_nat (length (PyStr.split text)) - 1); lia. }
  rewrite Hcount. change (seq 0 1) with [0%nat].
  unfold chunk_words, normalize_whitespace. rewrite list_fmap_singleton.
  change (0 * Z.to_nat (chunk_size - overlap))%nat with 0%nat.
  change (drop 0 (PyStr.split text)) with (PyStr.split text).
  rewrite take_ge by lia. reflexivity.
Qed.

Lemma chunk_text_short_witness :
  chunk_text 4 "  one   two three " 800 120 = Returned ["one two three"].
Proof.
  apply (chunk_text_short "  one   two three " 800 120 4);
    [discriminate|vm_compute; discriminate|vm_compute; discriminate|vm_compute; lia].
Defined.

Lemma normalize_whitespace_twice (text : string) :
  normalize_whitespace (normalize_whitespace text) = normalize_whitespace text.
Proof.
  unfold normalize_whitespace. rewrite split_join by apply split_words. reflexivity.
Qed.

(** X6. [normalize_whitespace] is idempotent, and its result splits into
    the words of the text. *)
Theorem normalize_whitespace_idempotent (text : string) :
  normalize_whitespace (normalize_whitespace text) = normalize_whitespace text
  /\ PyStr.split (normalize_whitespace text) = PyStr.split text.
Proof.
  assert (Hsplit : PyStr.split (normalize_whitespace text) = PyStr.split text).
  { unfold normalize_whitespace. apply split_join, split_words. }
  split; [|exact Hsplit].
  unfold normalize_whitespace at 1. rewrite Hsplit. reflexivity.
Qed.

(** ** The extracted page *)

Section Extraction.
Context {W : World}.

Lemma walk_step_sections (w : Utils.walk) (elem : node) :
  Utils.walk_step w elem
  = if Utils.is_heading elem
    then Utils.mk_walk (normalize_whitespace (Utils.get_text elem))
           (Utils.w_headings w ++ [normalize_whitespace (Utils.get_text elem)])
           (Utils.w_paragraphs w) (Utils.w_sections w)
    else if yields_paragraph elem
    then Utils.mk_walk (Utils.current_heading w) (Utils.w_headings w)
           (Utils.w_paragraphs w ++ [normalize_whitespace (Utils.get_text elem)])
           (Utils.w_sections w
              ++ [mk_section (Utils.current_heading w)
                    (normalize_whitespace (Utils.get_text elem))])
    else w.
Proof.
  unfold Utils.walk_step, yields_paragraph.
  destruct (Utils.is_heading elem); [reflexivity|].
  destruct (Utils.has_name "p" elem); [|reflexivity].
  destruct (String.eqb _ _); reflexivity.
Qed.

Lemma walk_paragraphs_normal (elems : list node) :
  forall w,
    Forall (fun p => p <> "" /\ normalize_whitespace p = p) (Utils.w_paragraphs w) ->
    Forall (fun p => p <> "" /\ normalize_whitespace p = p)
      (Utils.w_paragraphs (fold_left Utils.walk_step elems w)).
Proof.
  induction elems as [|elem elems IH]; intros w Hw; [exact Hw|].
  cbn [fold_left]. apply IH. rewrite walk_step_sections.
  destruct (Utils.is_heading elem); [exact Hw|].
  destruct (yields_paragraph elem) eqn:Hp; [|exact Hw].
  cbn [Utils.w_paragraphs]. apply Forall_app. split; [exact Hw|].
  constructor; [|constructor].
  unfold yields_paragraph in Hp. apply andb_true_iff in Hp as [_ Hne].
  apply negb_true_iff, String.eqb_neq in Hne. split; [exact Hne|].
  apply normalize_whitespace_twice.
Qed.

(** X7. In every extracted page the sections list runs along the
    paragraph list, entry for entry, and no paragraph is empty or keeps
    whitespace other than single spaces between its words. *)
Theorem extracted_paragraphs (markup base_url : string) :
  sec_text <$> sections (Utils.extract_text_from_html markup base_url)
  = paragraphs (Utils.extract_text_from_html markup base_url)
  /\ Forall (fun p => p <> "" /\ normalize_whitespace p = p)
       (paragraphs (Utils.extract_text_from_html markup base_url)).
Proof.
  unfold Utils.extract_text_from_html. cbn [sections paragraphs].
  destruct (match Utils.find "article" (BeautifulSoup markup) with
            | Some a => Some a
            | None => Utils.find "body" (BeautifulSoup markup)
            end); [|split; [reflexivity|constructor]].
  split.
  - apply walk_aligned. reflexivity.
  - apply walk_paragraphs_normal. constructor.
Qed.

Lemma walk_app (pre post : list node) (w : Utils.walk) :
  fold_left Utils.walk_step (pre ++ post) w
  = fold_left Utils.walk_step post (fold_left Utils.walk_step pre w).
Proof. apply fold_left_app. Qed.

Lemma walk_sections_grow (elems : list node) :
  forall w, exists more,
    Utils.w_sections (fold_left Utils.walk_step elems w) = Utils.w_sections w ++ more.
Proof.
  induction elems as [|elem elems IH]; intros w.
  - exists []. rewrite app_nil_r. reflexivity.
  - cbn [fold_left]. destruct (IH (Utils.walk_step w elem)) as [more Hmore].
    rewrite Hmore, walk_step_sections.
    destruct (Utils.is_heading elem); [eauto|].
    destruct (yields_paragraph elem); [|eauto].
    cbn [Utils.w_sections]. rewrite <- app_assoc. eauto.
Qed.

Lemma walk_sections_count (elems : list node) :
  forall w,
    length (Utils.w_sections (fold_left Utils.walk_step elems w))
    = (length (Utils.w_sections w) + length (filter yields_paragraph elems))%nat.
Proof.
  induction elems as [|elem elems IH]; intros w; [cbn; lia|].
  cbn [fold_left]. rewrite IH, walk_step_sections.
  destruct (Utils.is_heading elem) eqn:Hh.
  - assert (Hp : yields_paragraph elem = false)
      by (unfold yields_paragraph; rewrite Hh; reflexivity).
    rewrite filter_cons_False by (rewrite Hp; auto). reflexivity.
  - destruct (yields_paragraph elem) eqn:Hp.
    + rewrite filter_cons_True by (rewrite Hp; exact I).
      cbn [Utils.w_sections]. rewrite length_app. cbn [length]. lia.
    + rewrite filter_cons_False by (rewrite Hp; auto). reflexivity.
Qed.

Lemma walk_no_heading (elems : list node) :
  Forall (fun e => Utils.is_heading e = false) elems ->
  forall w, Utils.current_heading (fold_left Utils.walk_step elems w)
            = Utils.current_heading w.
Proof.
  induction 1 as [|elem elems Hh _ IH]; intros w; [reflexivity|].
  cbn [fold_left]. rewrite IH, walk_step_sections, Hh.
  destruct (yields_paragraph elem); reflexivity.
Qed.

Lemma walk_last_heading (pre1 pre2 : list node) (h : node) (w : Utils.walk) :
  Utils.is_heading h = true ->
  Forall (fun e => Utils.is_heading e = false) pre2 ->
  Utils.current_heading (fold_left Utils.walk_step (pre1 ++ h :: pre2) w)
  = normalize_whitespace (Utils.get_text h).
Proof.
  intros Hh Hpre2. rewrite walk_app. cbn [fold_left].
  rewrite (walk_no_heading pre2 Hpre2), walk_step_sections, Hh. reflexivity.
Qed.

(** X8. Each section carries the nearest heading before its paragraph.
    When the elements under the article (or, without one, the body) are
    [before], then a paragraph [p], then [after], the section numbered by
    the paragraphs of [before] holds the text of [p], and its heading is the
    text of the last h1, h2 or h3 in [before], or the title when [before]
    has none. *)
Theorem section_heading_is_nearest (markup base_url : string) (article p : node)
    (before after : list node) :
  (Utils.find "article" (BeautifulSoup markup) = Some article
   \/ (Utils.find "article" (BeautifulSoup markup) = None
       /\ Utils.find "body" (BeautifulSoup markup) = Some article)) ->
  Utils.descendants article = before ++ p :: after ->
  yields_paragraph p = true ->
  exists sec,
    sections (Utils.extract_text_from_html markup base_url)
      !! length (filter yields_paragraph before) = Some sec
    /\ sec_text sec = normalize_whitespace (Utils.get_text p)
    /\ (Forall (fun e => Utils.is_heading e = false) before ->
        sec_heading sec = title (Utils.extract_text_from_html markup base_url))
    /\ (forall before1 h before2,
          before = before1 ++ h :: before2 ->
          Utils.is_heading h = true ->
          Forall (fun e => Utils.is_heading e = false) before2 ->
          sec_heading sec = normalize_whitespace (Utils.get_text h)).
Proof.
  intros Hscope Hdesc Hp.
  unfold Utils.extract_text_from_html. cbn [sections title].
  set (ttl := match Utils.find "h1" (BeautifulSoup markup) with
              | Some t => normalize_whitespace (Utils.get_text t)
              | None => "Untitled"
              end).
  assert (Hart : match Utils.find "article" (BeautifulSoup markup) with
                 | Some a => Some a
                 | None => Utils.find "body" (BeautifulSoup markup)
                 end = Some article).
  { destruct Hscope as [->|[-> ->]]; reflexivity. }
  rewrite Hart, Hdesc, walk_app. cbn [fold_left].
  set (w0 := Utils.mk_walk ttl [] [] []).
  set (w1 := fold_left Utils.walk_step before w0).
  assert (Hnot : Utils.is_heading p = false).
  { unfold yields_paragraph in Hp. destruct (Utils.is_heading p); [discriminate|reflexivity]. }
  assert (Hstep : Utils.w_sections (Utils.walk_step w1 p)
                  = Utils.w_sections w1
                    ++ [mk_section (Utils.current_heading w1)
                          (normalize_whitespace (Utils.get_text p))]).
  { rewrite walk_step_sections, Hnot, Hp. reflexivity. }
  destruct (walk_sections_grow after (Utils.walk_step w1 p)) as [more Hmore].
  exists (mk_section (Utils.current_heading w1) (normalize_whitespace (Utils.get_text p))).
  split; [|split; [reflexivity|split]].
  - rewrite Hmore, Hstep, <- app_assoc.
    assert (Hlen : length (Utils.w_sections w1) = length (filter yields_paragraph before)).
    { unfold w1. rewrite walk_sections_count. reflexivity. }
    rewrite <- Hlen. rewrite lookup_app_r by lia.
    rewrite Nat.sub_diag. reflexivity.
  - intros Hnone. cbn [sec_heading]. unfold w1.
    rewrite (walk_no_heading before Hnone). reflexivity.
  - intros before1 h before2 -> Hh Hnone. cbn [sec_heading]. unfold w1.
    apply walk_last_heading; assumption.
Qed.

End Extraction.

Lemma section_heading_is_nearest_witness :
  exists sec,
    sections (Utils.extract_text_from_html
                (W := demo_world demo_environ origin_ok) "<html>" "https://a")
      !! 1%nat = Some sec
    /\ sec_text sec = "x1 x2"
    /\ sec_heading sec = "B".
Proof.
  destruct (section_heading_is_nearest (W := demo_world demo_environ origin_ok)
              "<html>" "https://a"
              (Tag "body" []
                 [Tag "h1" [] [Text "Billing"]; Tag "h2" [] [Text "A"];
                  Tag "p" [] [Text "w1 w2 w3 w4"]; Tag "h2" [] [Text "B"];
                  Tag "p" [] [Text "x1 x2"]])
              (Tag "p" [] [Text "x1 x2"])
              [Tag "h1" [] [Text "Billing"]; Text "Billing";
               Tag "h2" [] [Text "A"]; Text "A";
               Tag "p" [] [Text "w1 w2 w3 w4"]; Text "w1 w2 w3 w4";
               Tag "h2" [] [Text "B"]; Text "B"]
              [Text "x1 x2"]
              ltac:(right; split; reflexivity) eq_refl eq_refl)
    as (sec & Hsec & Htext & _ & Hlast).
  exists sec. split; [exact Hsec|]. split; [exact Htext|].
  apply (Hlast [Tag "h1" [] [Text "Billing"]; Text "Billing";
                Tag "h2" [] [Text "A"]; Text "A";
                Tag "p" [] [Text "w1 w2 w3 w4"]; Text "w1 w2 w3 w4"]
               (Tag "h2" [] [Text "B"]) [Text "B"]);
    [reflexivity|reflexivity|repeat constructor].
Defined.

(** ** More on the fetch *)

Section FetchMore.
Context {W : World}.

Lemma fetch_once_succeeds (url : string) (st : state) :
  attempt_error url (requests_get (requests_made st) url) = None ->
  Utils.fetch_url_once url st
  = (Returned (attempt_value (requests_get (requests_made st) url)),
     attempt_log url (requests_get (requests_made st) url) (count_request st)).
Proof.
  unfold Utils.fetch_url_once, bind, Utils.do_request, attempt_error,
    attempt_value, attempt_log.
  destruct (requests_get (requests_made st) url) as [r|e]; [|discriminate].
  destruct (status_code r =? 404); [reflexivity|].
  intros ->. reflexivity.
Qed.

Lemma retrying_first_success (url : string) (k : nat) :
  forall remaining st,
    (k <= remaining)%nat ->
    (forall i, (i < k)%nat ->
       attempt_error url (requests_get (requests_made st + i) url) <> None) ->
    attempt_error url (requests_get (requests_made st + k) url) = None ->
    Utils.retrying (S remaining) url st
    = (Returned (attempt_value (requests_get (requests_made st + k) url)),
       attempt_log url (requests_get (requests_made st + k) url)
         (count_requests (S k) st)).
Proof.
  induction k as [|k IH]; intros remaining st Hk Hfail Hok.
  - rewrite Nat.add_0_r in *. cbn [Utils.retrying]. unfold try_except.
    rewrite (fetch_once_succeeds url st Hok). reflexivity.
  - destruct remaining as [|remaining]; [lia|].
    destruct (attempt_error url (requests_get (requests_made st) url)) as [e|] eqn:He.
    2:{ exfalso. apply (Hfail 0%nat ltac:(lia)). rewrite Nat.add_0_r. exact He. }
    change (Utils.retrying (S (S remaining)) url st)
      with (try_except (Utils.fetch_url_once url)
              (fun _ => Utils.retrying (S remaining) url) st).
    unfold try_except. rewrite (fetch_once_fails url st e He).
    rewrite (IH remaining (count_request st)); cbn [requests_made count_request].
    + replace (S (requests_made st) + k)%nat with (requests_made st + S k)%nat by lia.
      reflexivity.
    + lia.
    + intros i Hi.
      replace (S (requests_made st) + i)%nat with (requests_made st + S i)%nat by lia.
      apply Hfail. lia.
    + replace (S (requests_made st) + k)%nat with (requests_made st + S k)%nat by lia.
      exact Hok.
Qed.

(** X9. [fetch_url] returns what the first attempt that raises nothing
    returns, provided it is among the first five: no value on a 404, the
    body otherwise; the attempts before it were made and dropped, and no
    request is made after it. *)
Theorem fetch_url_first_success (url : string) (st : state) (k : nat) :
  (k < 5)%nat ->
  (forall i, (i < k)%nat ->
     attempt_error url (requests_get (requests_made st + i) url) <> None) ->
  attempt_error url (requests_get (requests_made st + k) url) = None ->
  exists st',
    Utils.fetch_url url st
    = (Returned (attempt_value (requests_get (requests_made st + k) url)), st')
    /\ requests_made st' = (requests_made st + k + 1)%nat.
Proof.
  intros Hk Hfail Hok. eexists. split.
  - unfold Utils.fetch_url, Utils.stop_after_attempt.
    apply (retrying_first_success url k 4 st); [lia|exact Hfail|exact Hok].
  - unfold attempt_log.
    destruct (requests_get (requests_made st + k) url) as [r|e];
      [destruct (status_code r =? 404)|];
      cbn [requests_made add_log]; rewrite requests_made_count; lia.
Qed.

End FetchMore.

Lemma fetch_url_first_success_witness :
  exists st',
    Utils.fetch_url (W := demo_world demo_environ origin_flaky) "https://a" initial_state
    = (Returned (Some "<html>"), st')
    /\ requests_made st' = 3%nat.
Proof.
  apply (fetch_url_first_success (W := demo_world demo_environ origin_flaky)
           "https://a" initial_state 2); [lia| |reflexivity].
  intros i Hi. destruct i as [|[|i]]; [discriminate|discriminate|lia].
Defined.

(** ** What a computation leaves alone *)

Section Keeps.

Variable R : state -> state -> Prop.
Hypothesis R_refl : forall st, R st st.
Hypothesis R_trans : forall st1 st2 st3, R st1 st2 -> R st2 st3 -> R st1 st3.

Lemma keeps_ret {A : Type} (a : A) : keeps R (ret a).
Proof. intros st. apply R_refl. Qed.

Lemma keeps_raise {A : Type} (e : exn) : keeps R (@raise A e).
Proof. intros st. apply R_refl. Qed.

Lemma keeps_lift {A : Type} (o : outcome A) : keeps R (lift o).
Proof. intros st. apply R_refl. Qed.

Lemma keeps_bind {A B : Type} (m : M A) (k : A -> M B) :
  keeps R m -> (forall a, keeps R (k a)) -> keeps R (bind m k).
Proof.
  intros Hm Hk st. unfold bind. specialize (Hm st).
  destruct (m st) as [[a|e|] st1]; cbn [snd] in *; try exact Hm.
  eapply R_trans; [exact Hm|apply Hk].
Qed.

Lemma keeps_try_except {A : Type} (m : M A) (handler : exn -> M A) :
  keeps R m -> (forall e, keeps R (handler e)) -> keeps R (try_except m handler).
Proof.
  intros Hm Hh st. unfold try_except. specialize (Hm st).
  destruct (m st) as [[a|e|] st1]; cbn [snd] in *; try exact Hm.
  eapply R_trans; [exact Hm|apply Hh].
Qed.

End Keeps.

Lemma only_fetches_refl (st : state) : only_fetches st st.
Proof.
  repeat split; try reflexivity. exists []. rewrite app_nil_r. reflexivity.
Qed.

Lemma only_fetches_trans (st1 st2 st3 : state) :
  only_fetches st1 st2 -> only_fetches st2 st3 -> only_fetches st1 st3.
Proof.
  intros (Hu1 & Hv1 & Hc1 & Ho1 & Hr1 & n1 & Hl1) (Hu2 & Hv2 & Hc2 & Ho2 & Hr2 & n2 & Hl2).
  repeat split; try congruence; [lia|].
  exists (n1 ++ n2). rewrite Hl2, Hl1, app_assoc. reflexivity.
Qed.

Lemma log_grows_refl (st : state) : log_grows st st.
Proof. exists []. rewrite app_nil_r. reflexivity. Qed.

Lemma log_grows_trans (st1 st2 st3 : state) :
  log_grows st1 st2 -> log_grows st2 st3 -> log_grows st1 st3.
Proof.
  intros [n1 Hl1] [n2 Hl2]. exists (n1 ++ n2). rewrite Hl2, Hl1, app_assoc. reflexivity.
Qed.

Lemma only_fetches_log_grows (st st' : state) : only_fetches st st' -> log_grows st st'.
Proof. intros (_ & _ & _ & _ & _ & Hl). exact Hl. Qed.

Lemma keeps_emit_fetch (r : log_record) : keeps only_fetches (emit r).
Proof.
  intros st. cbn. repeat split; try reflexivity. exists [r]. reflexivity.
Qed.

Lemma keeps_emit_log (r : log_record) : keeps log_grows (emit r).
Proof. intros st. exists [r]. reflexivity. Qed.

Ltac keeps_fetch :=
  repeat first
    [ apply keeps_emit_fetch
    | apply (keeps_ret only_fetches only_fetches_refl)
    | apply (keeps_raise only_fetches only_fetches_refl)
    | apply (keeps_lift only_fetches only_fetches_refl)
    | apply (keeps_bind only_fetches only_fetches_trans); [|intros ?]
    | apply (keeps_try_except only_fetches only_fetches_trans); [|intros ?] ].

Ltac keeps_log :=
  repeat first
    [ apply keeps_emit_log
    | apply (keeps_ret log_grows log_grows_refl)
    | apply (keeps_raise log_grows log_grows_refl)
    | apply (keeps_lift log_grows log_grows_refl)
    | apply (keeps_bind log_grows log_grows_trans); [|intros ?]
    | apply (keeps_try_except log_grows log_grows_trans); [|intros ?] ].

Section FetchFrame.
Context {W : World}.

Lemma keeps_do_request (url : string) : keeps only_fetches (Utils.do_request url).
Proof.
  intros st. unfold only_fetches. cbn. repeat split; try reflexivity; try lia.
  exists []. rewrite app_nil_r. reflexivity.
Qed.

Lemma keeps_fetch_once (url : string) : keeps only_fetches (Utils.fetch_url_once url).
Proof.
  unfold Utils.fetch_url_once.
  apply (keeps_bind only_fetches only_fetches_trans); [apply keeps_do_request|].
  intros [r|e]; [|keeps_fetch].
  destruct (status_code r =? 404); [unfold logger_warning; keeps_fetch|].
  destruct (Utils.raise_for_status url r); keeps_fetch.
Qed.

Lemma keeps_retrying (attempts : nat) (url : string) :
  keeps only_fetches (Utils.retrying attempts url).
Proof.
  induction attempts as [|remaining IH]; cbn [Utils.retrying]; [keeps_fetch|].
  apply (keeps_try_except only_fetches only_fetches_trans);
    [apply keeps_fetch_once|].
  intros e. destruct remaining; [keeps_fetch|exact IH].
Qed.

Lemma keeps_prepare_loop (fuel : nat) (urls : list string) (chunk_size overlap : Z) :
  forall docs, keeps only_fetches (Utils.prepare_loop fuel urls chunk_size overlap docs).
Proof.
  induction urls as [|url rest IH]; intros docs; cbn [Utils.prepare_loop];
    [keeps_fetch|].
  apply (keeps_bind only_fetches only_fetches_trans);
    [apply keeps_retrying|].
  intros [markup|].
  - cbv zeta. apply (keeps_bind only_fetches only_fetches_trans);
      [keeps_fetch|]. intros chunks. apply IH.
  - unfold logger_info.
    apply (keeps_bind only_fetches only_fetches_trans); [keeps_fetch|].
    intros _. apply IH.
Qed.

Lemma fetch_once_one_request (url : string) (st : state) :
  requests_made (Utils.fetch_url_once url st).2 = S (requests_made st)
  /\ (Utils.fetch_url_once url st).1 <> Diverged.
Proof.
  unfold Utils.fetch_url_once, bind, Utils.do_request.
  destruct (requests_get (requests_made st) url) as [r|e0];
    [|split; [reflexivity|discriminate]].
  destruct (status_code r =? 404); [split; [reflexivity|discriminate]|].
  destruct (Utils.raise_for_status url r); split; try reflexivity; discriminate.
Qed.

Lemma retrying_request_count (attempts : nat) (url : string) :
  forall st,
    (requests_made st < requests_made (Utils.retrying (S attempts) url st).2
     <= requests_made st + S attempts)%nat
    /\ (Utils.retrying (S attempts) url st).1 <> Diverged.
Proof.
  induction attempts as [|remaining IH]; intros st;
    destruct (fetch_once_one_request url st) as [Hone Hend].
  - cbn [Utils.retrying]. unfold try_except.
    destruct (Utils.fetch_url_once url st) as [[v|e|] st1]; cbn [fst snd] in *;
      try congruence; unfold raise; cbn [fst snd]; (split; [lia|discriminate]).
  - change (Utils.retrying (S (S remaining)) url st)
      with (try_except (Utils.fetch_url_once url)
              (fun _ => Utils.retrying (S remaining) url) st).
    unfold try_except.
    destruct (Utils.fetch_url_once url st) as [[v|e|] st1]; cbn [fst snd] in *;
      try congruence.
    + split; [lia|discriminate].
    + destruct (IH st1) as [Hcount Hout]. split; [lia|exact Hout].
Qed.

Lemma fetch_url_ends (url : string) (st : state) :
  (Utils.fetch_url url st).1 <> Diverged.
Proof. apply (retrying_request_count 4 url st). Qed.

(** X10. Whatever the origin does, [fetch_url] ends: it returns or raises
    tenacity's error, never anything else; it makes at least one request
    and at most five; and it leaves the vector store, the calls of
    [upsert_documents] and the initialisation flag alone. *)
Theorem fetch_url_bounded (url : string) (st : state) :
  (requests_made st < requests_made (Utils.fetch_url url st).2
   <= requests_made st + 5)%nat
  /\ only_fetches st (Utils.fetch_url url st).2
  /\ ((exists value, (Utils.fetch_url url st).1 = Returned value)
      \/ (exists root, (Utils.fetch_url url st).1 = Raised (TenacityRetryError root))).
Proof.
  unfold Utils.fetch_url, Utils.stop_after_attempt.
  destruct (retrying_request_count 4 url st) as [Hcount Hout].
  split; [exact Hcount|]. split; [apply keeps_retrying|].
  destruct (Utils.retrying 5 url st) as [[value|e|] st1] eqn:Hrun; cbn [fst] in *.
  - left. eauto.
  - right. destruct (retrying_raises 5 url st st1 e ltac:(lia) Hrun) as [root ->]. eauto.
  - congruence.
Qed.

End FetchFrame.

(** ** Preparing several pages *)

Section PrepareMore.
Context {W : World}.

Lemma prepare_loop_acc (fuel : nat) (urls : list string) (chunk_size overlap : Z) :
  forall docs st,
    Utils.prepare_loop fuel urls chunk_size overlap docs st
    = match Utils.prepare_loop fuel urls chunk_size overlap [] st with
      | (Returned more, st') => (Returned (docs ++ more), st')
      | (Raised e, st') => (Raised e, st')
      | (Diverged, st') => (Diverged, st')
      end.
Proof.
  induction urls as [|url rest IH]; intros docs st.
  - cbn. rewrite app_nil_r. reflexivity.
  - cbn [Utils.prepare_loop]. unfold bind, lift.
    destruct (Utils.fetch_url url st) as [[[markup|]|e|] st1]; try reflexivity.
    + cbv zeta.
      destruct (chunk_text fuel _ chunk_size overlap) as [chunks|e|]; try reflexivity.
      rewrite (IH (docs ++ _)), (IH ([] ++ _)).
      destruct (Utils.prepare_loop fuel rest chunk_size overlap [] st1)
        as [[more|e|] st2]; try reflexivity.
      rewrite app_assoc. reflexivity.
    + cbn [logger_info emit]. apply IH.
Qed.

(** X11. A list of URLs is prepared as its parts, one after the other:
    the documents come in the order of the URLs, the second part starts in
    the state the first one left, and when a part raises, what the parts
    before it gave is dropped. *)
Theorem prepare_documents_app (fuel : nat) (first second : list string)
    (chunk_size overlap : Z) (st : state) :
  Utils.prepare_documents fuel (first ++ second) chunk_size overlap st
  = match Utils.prepare_documents fuel first chunk_size overlap st with
    | (Returned docs1, st1) =>
        match Utils.prepare_documents fuel second chunk_size overlap st1 with
        | (Returned docs2, st2) => (Returned (docs1 ++ docs2), st2)
        | (Raised e, st2) => (Raised e, st2)
        | (Diverged, st2) => (Diverged, st2)
        end
    | (Raised e, st1) => (Raised e, st1)
    | (Diverged, st1) => (Diverged, st1)
    end.
Proof.
  unfold Utils.prepare_documents. revert st.
  induction first as [|url rest IH]; intros st.
  - cbn [app]. cbn [Utils.prepare_loop]. unfold ret.
    destruct (Utils.prepare_loop fuel second chunk_size overlap [] st)
      as [[docs2|e|] st2]; reflexivity.
  - cbn [app Utils.prepare_loop]. unfold bind, lift.
    destruct (Utils.fetch_url url st) as [[[markup|]|e|] st1]; try reflexivity.
    + cbv zeta.
      destruct (chunk_text fuel _ chunk_size overlap) as [chunks|e|]; try reflexivity.
      rewrite (prepare_loop_acc fuel (rest ++ second)), IH.
      rewrite (prepare_loop_acc fuel rest chunk_size overlap (Utils.assemble _ _ _ _)).
      destruct (Utils.prepare_loop fuel rest chunk_size overlap [] st1)
        as [[docs1|e|] st2]; try reflexivity.
      destruct (Utils.prepare_loop fuel second chunk_size overlap [] st2)
        as [[docs2|e|] st3]; try reflexivity.
      rewrite app_assoc. reflexivity.
    + cbn [logger_info emit]. apply IH.
Qed.

Lemma assemble_Forall (P : document -> Prop) (url : string)
    (parsed : extracted_page) (chunks : list string) :
  (forall idx chunk, chunks !! idx = Some chunk ->
     P (mk_document (uuid5_NAMESPACE_URL (uuid_seed url idx chunk)) (title parsed)
          url chunk (section_label parsed idx) idx)) ->
  Forall P (Utils.assemble url parsed 0 chunks).
Proof.
  intros HP. apply Forall_lookup. intros i doc Hdoc.
  destruct (assemble_lookup url parsed chunks 0 i doc Hdoc) as (chunk & Hchunk & ->).
  apply HP. exact Hchunk.
Qed.

Lemma prepare_loop_Forall (P : string -> document -> Prop) (fuel : nat)
    (chunk_size overlap : Z) (urls : list string) :
  (forall url markup chunks,
     chunk_text fuel
       (PyStr.join " " (paragraphs (Utils.extract_text_from_html markup url)))
       chunk_size overlap = Returned chunks ->
     Forall (P url)
       (Utils.assemble url (Utils.extract_text_from_html markup url) 0 chunks)) ->
  forall docs0 st docs st',
    Forall (fun d => exists url, url ∈ urls /\ P url d) docs0 ->
    Utils.prepare_loop fuel urls chunk_size overlap docs0 st = (Returned docs, st') ->
    Forall (fun d => exists url, url ∈ urls /\ P url d) docs.
Proof.
  intros HP. 
  assert (Hgen : forall todo, (forall u, u ∈ todo -> u ∈ urls) ->
            forall docs0 st docs st',
              Forall (fun d => exists url, url ∈ urls /\ P url d) docs0 ->
              Utils.prepare_loop fuel todo chunk_size overlap docs0 st = (Returned docs, st') ->
              Forall (fun d => exists url, url ∈ urls /\ P url d) docs).
  { induction todo as [|url rest IH]; intros Hsub docs0 st docs st' Hdocs0 Hrun.
    - inversion Hrun; subst. exact Hdocs0.
    - cbn [Utils.prepare_loop] in Hrun. unfold bind at 1 in Hrun.
      destruct (Utils.fetch_url url st) as [[[markup|]|e|] st1]; try discriminate.
      + cbv zeta in Hrun. unfold bind at 1 in Hrun. unfold lift in Hrun.
        destruct (chunk_text fuel _ chunk_size overlap) as [chunks|e|] eqn:Hchunks;
          try discriminate.
        apply (IH ltac:(intros u Hu; apply Hsub; right; exact Hu)) in Hrun;
          [exact Hrun|].
        apply Forall_app. split; [exact Hdocs0|].
        eapply Forall_impl; [apply (HP url markup chunks Hchunks)|].
        intros d Hd. exists url. split; [apply Hsub; left|exact Hd].
      + unfold bind at 1 in Hrun. cbn [logger_info emit] in Hrun.
        apply (IH ltac:(intros u Hu; apply Hsub; right; exact Hu)) in Hrun;
          [exact Hrun|exact Hdocs0]. }
  apply Hgen. auto.
Qed.

(** X12. Every document [prepare_documents] returns comes from one of the
    URLs it was given, and its identifier is the URL-namespace uuid5 of its
    own URL, chunk index and first 100 characters; and with
    [0 < chunk_size] and [overlap < chunk_size] its content holds at least
    one word and at most [chunk_size]. *)
Theorem prepared_documents_sound (fuel : nat) (urls : list string)
    (chunk_size overlap : Z) (st st' : state) (docs : list document) :
  Utils.prepare_documents fuel urls chunk_size overlap st = (Returned docs, st') ->
  Forall (fun d =>
            doc_url d ∈ urls
            /\ doc_id d
               = uuid5_NAMESPACE_URL
                   (uuid_seed (doc_url d) (doc_chunk_index d) (doc_content d)))
    docs
  /\ (overlap < chunk_size -> 0 < chunk_size ->
      Forall (fun d =>
                (1 <= length (PyStr.split (doc_content d)))%nat
                /\ Z.of_nat (length (PyStr.split (doc_content d))) <= chunk_size)
        docs).
Proof.
  intros Hrun. unfold Utils.prepare_documents in Hrun. split.
  - pose proof (prepare_loop_Forall
                  (fun url d =>
                     doc_url d = url
                     /\ doc_id d
                        = uuid5_NAMESPACE_URL
                            (uuid_seed (doc_url d) (doc_chunk_index d) (doc_content d)))
                  fuel chunk_size overlap urls) as Hinv.
    eapply Forall_impl; [eapply Hinv; [|constructor|exact Hrun]|].
    + intros url markup chunks _. apply assemble_Forall.
      intros idx chunk _. split; reflexivity.
    + intros d (url & Hin & <- & Hid). split; assumption.
  - intros Hstep Hsize.
    pose proof (prepare_loop_Forall
                  (fun _ d =>
                     (1 <= length (PyStr.split (doc_content d)))%nat
                     /\ Z.of_nat (length (PyStr.split (doc_content d))) <= chunk_size)
                  fuel chunk_size overlap urls) as Hinv.
    eapply Forall_impl; [eapply Hinv; [|constructor|exact Hrun]|].
    + intros url markup chunks Hchunks. apply assemble_Forall.
      intros idx chunk Hidx. cbn [doc_content].
      pose proof (chunk_sizes _ _ _ _ _ Hstep Hsize Hchunks) as Hall.
      rewrite Forall_lookup in Hall. exact (Hall idx chunk Hidx).
    + intros d (url & _ & Hd). exact Hd.
Qed.

End PrepareMore.

Lemma prepared_documents_sound_witness :
  Forall (fun d =>
            doc_url d ∈ ["https://a"; "https://b"]
            /\ doc_id d
               = @uuid5_NAMESPACE_URL (demo_world demo_environ origin_mixed)
                   (uuid_seed (doc_url d) (doc_chunk_index d) (doc_content d)))
    (match (Utils.prepare_documents (W := demo_world demo_environ origin_mixed)
              10 ["https://a"; "https://b"] 2 0 initial_state).1 with
     | Returned docs => docs
     | _ => []
     end).
Proof.
  refine (proj1 (prepared_documents_sound (W := demo_world demo_environ origin_mixed)
                   10 ["https://a"; "https://b"] 2 0 initial_state _ _ _)).
  vm_compute. reflexivity.
Defined.

(** ** More on the ingestion endpoint *)

Section IngestMore.
Context {W : World}.

Lemma ingest_unfold (fuel : nat) (req : request) (st : state) :
  Main.ingest_stripe_docs fuel req st
  = try_except (Main.ingest_body fuel req) Main.on_ingest_error
      (add_log (log_received req) st).
Proof. reflexivity. Qed.

(** X13. With a token configured and not empty, a request whose
    [X-Ingest-Token] header is missing or different gets 401 before any
    configuration is read: the run logs the request and the refusal, and
    fetches and stores nothing. *)
Theorem ingest_unauthorized (fuel : nat) (req : request) (st : state) (token : string) :
  environ !! "INGEST_FUNCTION_TOKEN" = Some token -> token <> "" ->
  headers_get "X-Ingest-Token" (headers req) <> Some token ->
  Main.ingest_stripe_docs fuel req st
  = (Returned unauthorized_response,
     add_log log_unauthorized (add_log (log_received req) st)).
Proof.
  intros Henv Hne Hheader. rewrite ingest_unfold. unfold try_except, Main.ingest_body.
  unfold bind at 1. unfold lift at 1. rewrite get_env_optional, Henv.
  assert (Htest : truthy (Main.option_json (Some token))
                  && negb (option_string_eqb (headers_get "X-Ingest-Token" (headers req))
                             (Some token)) = true).
  { apply andb_true_iff. split.
    - cbn. destruct (String.eqb_spec token ""); [contradiction|reflexivity].
    - destruct (headers_get "X-Ingest-Token" (headers req)) as [given|]; [|reflexivity].
      cbn. destruct (String.eqb_spec given token); [congruence|reflexivity]. }
  rewrite Htest. reflexivity.
Qed.

Lemma on_ingest_error_returns (exc : exn) (st : state) :
  exists r st', Main.on_ingest_error exc st = (Returned r, st') /\ resp_status r = 500.
Proof.
  unfold Main.on_ingest_error.
  destruct (is_google_RetryError exc).
  - destruct (last_attempt_exception exc); eexists; eexists; split; reflexivity.
  - eexists; eexists; split; reflexivity.
Qed.

(** X14. The endpoint lets no exception out: whenever a run ends it ends
    in a response, and the status is 200, 400, 401 or 500. *)
Theorem ingest_always_answers (fuel : nat) (req : request) (st : state) :
  (Main.ingest_stripe_docs fuel req st).1 = Diverged
  \/ exists r,
       (Main.ingest_stripe_docs fuel req st).1 = Returned r
       /\ (resp_status r = 200 \/ resp_status r = 400
           \/ resp_status r = 401 \/ resp_status r = 500).
Proof.
  rewrite ingest_unfold. unfold try_except.
  destruct (Main.ingest_body fuel req (add_log (log_received req) st))
    as [[r|e|] st1] eqn:Hbody.
  - right. exists r. split; [reflexivity|].
    destruct (ingest_body_status _ _ _ _ _ Hbody) as [Hs|[Hs|Hs]]; auto.
  - right. destruct (on_ingest_error_returns e st1) as (r & st2 & Hr & Hs).
    rewrite Hr. exists r. split; [reflexivity|]. auto.
  - left. reflexivity.
Qed.

(** X15. With [STRIPE_DOC_URLS] unset or empty, a request that passes the
    token check gets 500 with the message naming the variable; nothing is
    fetched or stored. *)
Theorem ingest_without_urls (fuel : nat) (req : request) (st : state) :
  authorized req ->
  environ !! "STRIPE_DOC_URLS" = None \/ environ !! "STRIPE_DOC_URLS" = Some "" ->
  Main.ingest_stripe_docs fuel req st
  = (Returned
       (error_response "Missing required environment variable: STRIPE_DOC_URLS"),
     add_log
       (log_unhandled
          (RuntimeError "Missing required environment variable: STRIPE_DOC_URLS"))
       (add_log (log_received req) st)).
Proof.
  intros Hauth Hurls. rewrite ingest_unfold. unfold try_except, Main.ingest_body.
  unfold bind at 1. unfold lift at 1.
  rewrite get_env_optional, (authorized_passes req Hauth).
  unfold bind at 1. unfold Main.get_env_required, bind, lift, Utils.get_env.
  destruct Hurls as [-> | ->]; reflexivity.
Qed.

Lemma lstrip_all_space (s : string) :
  PyStr.all_space s = true -> PyStr.lstrip s = "".
Proof.
  induction s as [|c s IH]; [reflexivity|]. cbn.
  intros Hs. apply andb_true_iff in Hs as [-> Hs]. exact (IH Hs).
Qed.

Lemma split_on_separators (s : string) :
  only_separators s = true ->
  Forall (fun piece => PyStr.all_space piece = true) (PyStr.split_on "," s).
Proof.
  induction s as [|c s IH]; cbn [only_separators PyStr.split_on].
  - intros _. repeat constructor.
  - intros Hs. apply andb_true_iff in Hs as [Hc Hs]. specialize (IH Hs).
    destruct (Ascii.eqb c ",") eqn:Hcomma.
    + constructor; [reflexivity|exact IH].
    + rewrite orb_false_r in Hc.
      destruct (PyStr.split_on "," s) as [|w ws].
      * constructor; [|constructor]. cbn. rewrite Hc. reflexivity.
      * inversion IH; subst. constructor; [|assumption]. cbn. rewrite Hc. assumption.
Qed.

Lemma parse_urls_separators (urls_csv : string) :
  only_separators urls_csv = true -> Main.parse_urls urls_csv = [].
Proof.
  intros Hs. unfold Main.parse_urls.
  pose proof (split_on_separators urls_csv Hs) as Hall.
  induction Hall as [|piece pieces Hpiece _ IH]; [reflexivity|].
  rewrite filter_cons_False; [exact IH|].
  intros Hne. apply Hne. unfold PyStr.strip.
  rewrite (lstrip_all_space piece Hpiece). reflexivity.
Qed.

(** X16. With a URL list that is not empty but holds only commas and
    whitespace, and a chunk size and overlap that read as integers, a
    request that passes the token check gets 400 [No URLs provided];
    nothing is fetched or stored. *)
Theorem ingest_blank_url_list (fuel : nat) (req : request) (st : state)
    (urls_csv size_text overlap_text : string) (chunk_size overlap : Z) :
  authorized req ->
  environ !! "STRIPE_DOC_URLS" = Some urls_csv ->
  urls_csv <> "" -> only_separators urls_csv = true ->
  environ !! "CHUNK_SIZE" = Some size_text -> py_int size_text = Returned chunk_size ->
  environ !! "CHUNK_OVERLAP" = Some overlap_text ->
  py_int overlap_text = Returned overlap ->
  Main.ingest_stripe_docs fuel req st
  = (Returned no_urls_response,
     add_log log_no_urls (add_log (log_received req) st)).
Proof.
  intros Hauth Hcsv Hne Hsep Hsize Hsz Hoverlap Hov.
  rewrite ingest_unfold. unfold try_except, Main.ingest_body.
  unfold bind at 1. unfold lift at 1.
  rewrite get_env_optional, (authorized_passes req Hauth).
  unfold bind at 1. rewrite (get_env_required_set _ _ _ Hcsv Hne).
  unfold bind at 1.
  rewrite (get_env_required_set _ _ _ Hsize (py_int_not_empty _ _ Hsz)).
  unfold bind at 1. unfold lift at 1. rewrite Hsz.
  unfold bind at 1.
  rewrite (get_env_required_set _ _ _ Hoverlap (py_int_not_empty _ _ Hov)).
  unfold bind at 1. unfold lift at 1. rewrite Hov.
  cbv zeta. rewrite (parse_urls_separators urls_csv Hsep). reflexivity.
Qed.

End IngestMore.

Lemma ingest_unauthorized_witness :
  Main.ingest_stripe_docs (W := demo_world token_environ origin_ok)
    10 (mk_request [("X-Ingest-Token", "wrong")] None) initial_state
  = (Returned unauthorized_response,
     add_log log_unauthorized
       (add_log (log_received (mk_request [("X-Ingest-Token", "wrong")] None))
          initial_state)).
Proof.
  apply (ingest_unauthorized (W := demo_world token_environ origin_ok)
           10 (mk_request [("X-Ingest-Token", "wrong")] None) initial_state "secret");
    first [reflexivity|discriminate].
Defined.

Lemma ingest_without_urls_witness :
  Main.ingest_stripe_docs (W := demo_world ∅ origin_ok)
    10 (mk_request [] None) initial_state
  = (Returned
       (error_response "Missing required environment variable: STRIPE_DOC_URLS"),
     add_log
       (log_unhandled
          (RuntimeError "Missing required environment variable: STRIPE_DOC_URLS"))
       (add_log (log_received (mk_request [] None)) initial_state)).
Proof.
  apply (ingest_without_urls (W := demo_world ∅ origin_ok)
           10 (mk_request [] None) initial_state);
    first [exact I|left; reflexivity].
Defined.

Lemma ingest_blank_url_list_witness :
  Main.ingest_stripe_docs (W := demo_world blank_urls_environ origin_ok)
    10 (mk_request [] None) initial_state
  = (Returned no_urls_response,
     add_log log_no_urls (add_log (log_received (mk_request [] None)) initial_state)).
Proof.
  apply (ingest_blank_url_list (W := demo_world blank_urls_environ origin_ok)
           10 (mk_request [] None) initial_state " , ," "800" "120" 800 120);
    first [reflexivity|exact I|discriminate].
Defined.

Section IngestFrames.
Context {W : World}.





Lemma keeps_prepare_documents (fuel : nat) (urls : list string) (chunk_size overlap : Z) :
  keeps only_fetches (Utils.prepare_documents fuel urls chunk_size overlap).
Proof. apply keeps_prepare_loop. Qed.

Lemma keeps_on_prepare_error (url : string) (docs : list document)
    (skipped : list Main.skip_record) (exc : exn) :
  keeps only_fetches (Main.on_prepare_error url docs skipped exc).
Proof.
  unfold Main.on_prepare_error, Main._skip_url, logger_warning, logger_exception.
  destruct (is_google_RetryError exc).
  { destruct (Main._unwrap_retry_http_error exc) as [http_error|]; [|keeps_fetch].
    destruct (Main.is_404 http_error); keeps_fetch. }
  destruct (is_HTTPError exc).
  { destruct (Main.is_404 exc); keeps_fetch. }
  destruct (is_RequestException exc); keeps_fetch.
Qed.

Lemma keeps_ingest_loop (fuel : nat) (urls : list string) (chunk_size overlap : Z) :
  forall docs skipped,
    keeps only_fetches (Main.ingest_loop fuel urls chunk_size overlap docs skipped).
Proof.
  induction urls as [|url rest IH]; intros docs skipped; cbn [Main.ingest_loop];
    [keeps_fetch|].
  apply (keeps_bind only_fetches only_fetches_trans); [|intros acc; apply IH].
  apply (keeps_try_except only_fetches only_fetches_trans);
    [|intros e; apply keeps_on_prepare_error].
  apply (keeps_bind only_fetches only_fetches_trans);
    [apply keeps_prepare_documents|].
  intros new. unfold logger_info. keeps_fetch.
Qed.



End IngestFrames.



(** ** The log of a run *)

Section IngestLog.
Context {W : World}.

Lemma keeps_log_of_fetches {A : Type} (m : M A) : keeps only_fetches m -> keeps log_grows m.
Proof. intros Hm st. apply only_fetches_log_grows, Hm. Qed.

Lemma keeps_log_silent {A : Type} (m : M A) :
  (forall st, logged (m st).2 = logged st) -> keeps log_grows m.
Proof. intros Hm st. exists []. rewrite app_nil_r. apply Hm. Qed.

Lemma keeps_log_init_vertex : keeps log_grows Vectorstore.init_vertex_client.
Proof.
  intros st. unfold Vectorstore.init_vertex_client.
  destruct (vertex_client_initialized st); [apply log_grows_refl|].
  revert st. change (keeps log_grows
    (let* project_id := lift (Utils.get_env "VERTEX_PROJECT_ID" None true) in
     let* location := lift (Utils.get_env "VERTEX_LOCATION" None true) in
     match vertexai_init (default "" project_id) (default "" location) with
     | Some e => raise e
     | None => Vectorstore.set_vertex_initialized
     end)).
  keeps_log. destruct (vertexai_init _ _); [keeps_log|].
  apply keeps_log_silent. reflexivity.
Qed.

Lemma keeps_log_add_all (pairs : list (document * list Z)) :
  keeps log_grows (Vectorstore.add_all pairs).
Proof.
  induction pairs as [|[doc vector] rest IH]; cbn [Vectorstore.add_all]; [keeps_log|].
  apply (keeps_bind log_grows log_grows_trans); [|intros _; exact IH].
  apply keeps_log_silent. reflexivity.
Qed.

Lemma keeps_log_upsert (docs : list document) :
  keeps log_grows (Vectorstore.upsert_documents docs).
Proof.
  unfold Vectorstore.upsert_documents.
  apply (keeps_bind log_grows log_grows_trans);
    [apply keeps_log_silent; reflexivity|].
  intros _. destruct docs as [|doc docs]; [keeps_log|].
  unfold Vectorstore.init_weaviate_client, Vectorstore.build_embeddings.
  apply (keeps_bind log_grows log_grows_trans); [keeps_log|]. intros _.
  apply (keeps_bind log_grows log_grows_trans).
  { apply keeps_log_silent. intros st. unfold Vectorstore.ensure_schema.
    destruct (bool_decide _); reflexivity. }
  intros _. apply (keeps_bind log_grows log_grows_trans);
    [|intros embeddings; apply keeps_log_add_all].
  apply (keeps_bind log_grows log_grows_trans); [apply keeps_log_init_vertex|].
  intros _. destruct (from_pretrained _); keeps_log.
Qed.

Lemma keeps_log_respond (docs : list document) (skipped : list Main.skip_record) :
  keeps log_grows (Main.respond docs skipped).
Proof.
  assert (Hok : keeps log_grows
    (logger_info "Upserting documents" []
       [("document_count", JInt (Z.of_nat (length docs)));
        ("skipped_count", JInt (Z.of_nat (length skipped)))] ;;
     Vectorstore.upsert_documents docs ;;
     logger_info "Ingestion completed successfully" []
       [("ingested_documents", JInt (Z.of_nat (length docs)));
        ("skipped_urls", JList (Main.skip_json <$> skipped))] ;;
     ret (mk_response
            (JDict [("status", JStr "ok");
                    ("ingested", JInt (Z.of_nat (length docs)));
                    ("skipped", JList (Main.skip_json <$> skipped))])
            200))).
  { apply (keeps_bind log_grows log_grows_trans); [apply keeps_emit_log|intros _].
    apply (keeps_bind log_grows log_grows_trans); [apply keeps_log_upsert|intros _].
    apply (keeps_bind log_grows log_grows_trans); [apply keeps_emit_log|intros _].
    apply (keeps_ret log_grows log_grows_refl). }
  unfold Main.respond.
  destruct docs as [|doc docs]; [destruct skipped as [|s skipped]|]; try exact Hok.
  unfold logger_warning. keeps_log.
Qed.

Lemma keeps_log_ingest_body (fuel : nat) (req : request) :
  keeps log_grows (Main.ingest_body fuel req).
Proof.
  assert (Henv : forall name, keeps log_grows (Main.get_env_required name)).
  { intros name. unfold Main.get_env_required.
    apply (keeps_bind log_grows log_grows_trans); [keeps_log|].
    intros [v|]; keeps_log. }
  unfold Main.ingest_body.
  apply (keeps_bind log_grows log_grows_trans); [keeps_log|]. intros expected.
  destruct (truthy _ && negb _); [unfold logger_warning; keeps_log|].
  apply (keeps_bind log_grows log_grows_trans); [apply Henv|]. intros urls_csv.
  apply (keeps_bind log_grows log_grows_trans); [apply Henv|]. intros size_text.
  apply (keeps_bind log_grows log_grows_trans); [keeps_log|]. intros chunk_size.
  apply (keeps_bind log_grows log_grows_trans); [apply Henv|]. intros overlap_text.
  apply (keeps_bind log_grows log_grows_trans); [keeps_log|]. intros overlap.
  cbv zeta. destruct (Main.parse_urls urls_csv) as [|url rest];
    [unfold logger_warning; keeps_log|].
  apply (keeps_bind log_grows log_grows_trans); [apply keeps_emit_log|intros _].
  apply (keeps_bind log_grows log_grows_trans);
    [apply keeps_log_of_fetches, keeps_ingest_loop|].
  intros acc. apply keeps_log_respond.
Qed.

Lemma keeps_log_on_ingest_error (exc : exn) : keeps log_grows (Main.on_ingest_error exc).
Proof.
  unfold Main.on_ingest_error, logger_exception, logger_error.
  destruct (is_google_RetryError exc); [|keeps_log].
  keeps_log. destruct (last_attempt_exception exc); keeps_log.
Qed.

Lemma redacted_log (hs : list (string * string)) :
  Main.headers_json (Main._redact_headers (dict_of_headers hs))
  = JDict ((fun kv => (kv.1, JStr (if Main.is_sensitive (PyStr.lower kv.1)
                                   then "***REDACTED***" else kv.2)))
             <$> dict_of_headers hs).
Proof.
  rewrite (redact_headers_map _ (dict_of_headers_NoDup hs)).
  unfold Main.headers_json. rewrite <- list_fmap_compose. reflexivity.
Qed.

(** X19. Every run of the endpoint logs the request first, with the value
    of each header named [authorization] or [x-ingest-token] (case aside)
    replaced by the mask and every other header as it came; whatever the
    run logs after that is added behind it, and nothing logged before the
    run is lost. *)
Theorem ingest_logs_request_first (fuel : nat) (req : request) (st : state) :
  exists later,
    logged (Main.ingest_stripe_docs fuel req st).2
    = logged st
      ++ mk_log INFO "Ingest request received" []
           [("headers",
             JDict ((fun kv => (kv.1, JStr (if Main.is_sensitive (PyStr.lower kv.1)
                                            then "***REDACTED***" else kv.2)))
                      <$> dict_of_headers (headers req)))]
           None
         :: later.
Proof.
  rewrite ingest_unfold.
  destruct (keeps_try_except log_grows log_grows_trans
              (Main.ingest_body fuel req) Main.on_ingest_error
              (keeps_log_ingest_body fuel req) keeps_log_on_ingest_error
              (add_log (log_received req) st)) as [later Hlater].
  exists later. rewrite Hlater. cbn [logged add_log]. rewrite <- app_assoc.
  unfold log_received. rewrite redacted_log. reflexivity.
Qed.

End IngestLog.

(** ** The vector store adapter *)

Section Store.
Context {W : World}.

Lemma add_all_run (pairs : list (document * list Z)) :
  forall st,
    Vectorstore.add_all pairs st
    = (Returned tt,
       {| requests_made := requests_made st; logged := logged st;
          upsert_calls := upsert_calls st;
          vertex_client_initialized := vertex_client_initialized st;
          store_classes := store_classes st;
          store_objects := put_all pairs (store_objects st) |}).
Proof.
  induction pairs as [|[doc vector] rest IH]; intros st.
  - destruct st; reflexivity.
  - cbn [Vectorstore.add_all]. unfold bind, Vectorstore.add_data_object.
    rewrite IH. reflexivity.
Qed.

Lemma put_all_other (pairs : list (document * list Z)) (id : string) :
  forall objects,
    id ∉ (doc_id ∘ fst) <$> pairs -> put_all pairs objects !! id = objects !! id.
Proof.
  induction pairs as [|p rest IH]; intros objects Hid; [reflexivity|].
  rewrite fmap_cons, not_elem_of_cons in Hid. destruct Hid as [Hne Hid].
  unfold put_all. cbn [fold_left]. fold (put_all rest (<[doc_id p.1:=p]> objects)).
  rewrite IH by exact Hid. apply lookup_insert_ne. cbn in Hne. congruence.
Qed.

Lemma put_all_last (before after : list (document * list Z)) (p : document * list Z) :
  forall objects,
    doc_id p.1 ∉ (doc_id ∘ fst) <$> after ->
    put_all (before ++ p :: after) objects !! doc_id p.1 = Some p.
Proof.
  intros objects Hafter. unfold put_all. rewrite fold_left_app. cbn [fold_left].
  fold (put_all after (<[doc_id p.1:=p]> (fold_left (fun m q => <[doc_id q.1:=q]> m)
                                            before objects))).
  rewrite put_all_other by exact Hafter. apply lookup_insert_eq.
Qed.

Lemma fst_zip_take {A B : Type} (l : list A) (k : list B) :
  fst <$> zip l k = take (length k) l.
Proof.
  revert k. induction l as [|a l IH]; intros [|b k]; cbn; try reflexivity.
  rewrite <- IH. reflexivity.
Qed.

Lemma get_env_set (name value : string) :
  environ !! name = Some value -> value <> "" ->
  Utils.get_env name None true = Returned (Some value).
Proof.
  intros Henv Hne. unfold Utils.get_env. rewrite Henv.
  destruct (String.eqb_spec value ""); [contradiction|reflexivity].
Qed.

Lemma get_env_unset (name : string) :
  unset name ->
  Utils.get_env name None true
  = Raised (RuntimeError ("Missing required environment variable: " +:+ name)).
Proof.
  unfold Utils.get_env. intros [-> | ->]; reflexivity.
Qed.

Lemma init_vertex_ready (st : state) :
  vertex_ready st ->
  exists st',
    Vectorstore.init_vertex_client st = (Returned tt, st')
    /\ vertex_client_initialized st' = true
    /\ store_objects st' = store_objects st
    /\ store_classes st' = store_classes st
    /\ upsert_calls st' = upsert_calls st
    /\ logged st' = logged st.
Proof.
  unfold Vectorstore.init_vertex_client.
  intros [Hinit|(project_id & location & Hp & Hpne & Hl & Hlne & Hvertex)].
  - rewrite Hinit. exists st. repeat split; assumption.
  - destruct (vertex_client_initialized st) eqn:Hflag;
      [exists st; repeat split; assumption|].
    unfold bind, lift. rewrite (get_env_set _ _ Hp Hpne), (get_env_set _ _ Hl Hlne).
    cbn [default from_option id]. rewrite Hvertex.
    eexists. split; [reflexivity|]. repeat split.
Qed.

(** X20. When the configuration is there and the embedding call returns,
    [upsert_documents] on a list that is not empty creates the class
    [StripeDocPage] if it is missing and writes each document under its own
    identifier, paired with the vector at the same position; of two
    documents with one identifier the later one stays.  A document past the
    last vector is not written, and no other object of the store changes. *)
Theorem upsert_documents_writes (docs : list document) (vectors : list (list Z))
    (st : state) (endpoint api_key : string) :
  docs <> [] ->
  environ !! "WEAVIATE_ENDPOINT" = Some endpoint -> endpoint <> "" ->
  environ !! "WEAVIATE_API_KEY" = Some api_key -> api_key <> "" ->
  vertex_ready st -> from_pretrained "text-embedding-004" = None ->
  get_embeddings (JStr <$> (doc_content <$> docs)) = Returned vectors ->
  exists st',
    Vectorstore.upsert_documents docs st = (Returned tt, st')
    /\ upsert_calls st' = upsert_calls st ++ [docs]
    /\ "StripeDocPage" ∈ store_classes st'
    /\ (forall i doc vector,
          docs !! i = Some doc -> vectors !! i = Some vector ->
          doc_id doc ∉ doc_id <$> drop (S i) (take (length vectors) docs) ->
          store_objects st' !! doc_id doc = Some (doc, vector))
    /\ (forall id, id ∉ written_ids docs vectors ->
          store_objects st' !! id = store_objects st !! id).
Proof.
  intros Hdocs Hendpoint Hene Hkey Hkne Hready Hmodel Hvectors.
  unfold Vectorstore.upsert_documents. unfold bind at 1.
  cbn [Vectorstore.note_upsert_call].
  destruct docs as [|doc0 docs0] eqn:Hd; [congruence|]. rewrite <- Hd in *.
  unfold bind at 1. unfold Vectorstore.init_weaviate_client, bind at 1, lift at 1.
  rewrite (get_env_set _ _ Hendpoint Hene). unfold bind at 1, lift at 1.
  rewrite (get_env_set _ _ Hkey Hkne). cbn [ret].
  unfold bind at 1.
  set (st1 := Vectorstore.add_upsert_call docs st).
  destruct (Vectorstore.ensure_schema st1) as [o2 st2] eqn:Hschema.
  assert (Hs2 : o2 = Returned tt /\ "StripeDocPage" ∈ store_classes st2
                /\ store_objects st2 = store_objects st
                /\ upsert_calls st2 = upsert_calls st ++ [docs]
                /\ vertex_client_initialized st2 = vertex_client_initialized st).
  { unfold Vectorstore.ensure_schema in Hschema.
    destruct (bool_decide_reflect ("StripeDocPage" ∈ store_classes st1)) as [Hin|Hnin];
      inversion Hschema; subst; repeat split; try assumption.
    cbn. apply elem_of_app. right. left. }
  destruct Hs2 as (-> & Hclass & Hobj2 & Hcalls2 & Hflag2).
  unfold bind at 1. unfold Vectorstore.build_embeddings, bind at 1.
  destruct (init_vertex_ready st2) as (st3 & Hinit & _ & Hobj3 & Hclass3 & Hcalls3 & _).
  { destruct Hready as [Hflag|Henv]; [left; congruence|right; exact Henv]. }
  rewrite Hinit, Hmodel. unfold lift. rewrite Hvectors, add_all_run.
  eexists. split; [reflexivity|]. cbn [upsert_calls store_classes store_objects].
  split; [congruence|]. split; [congruence|]. split.
  - intros i doc vector Hdoc Hvec Hlater.
    assert (Hzip : zip docs vectors !! i = Some (doc, vector)).
    { rewrite lookup_zip_with, Hdoc. cbn. rewrite Hvec. reflexivity. }
    apply list_elem_of_split_length in Hzip as (before & after & Hsplit & Hlen).
    rewrite Hsplit.
    change (doc_id doc) with (doc_id (doc, vector).1).
    apply put_all_last. cbn [fst].
    intros Hin. apply Hlater.
    assert (Hafter : after = drop (S i) (zip docs vectors)).
    { rewrite Hsplit, Hlen, cons_middle, app_assoc.
      symmetry. apply drop_app_length'. rewrite length_app. cbn. lia. }
    rewrite Hafter in Hin.
    rewrite list_fmap_compose in Hin. rewrite fmap_drop in Hin.
    rewrite fst_zip_take in Hin. exact Hin.
  - intros id Hid. rewrite Hobj3, <- Hobj2. apply put_all_other.
    rewrite list_fmap_compose, fst_zip_take. exact Hid.
Qed.

(** X21. On a list that is not empty, [upsert_documents] reads
    [WEAVIATE_ENDPOINT] first and [WEAVIATE_API_KEY] next; when one of them
    is unset or empty it raises the error that names the first such one,
    having touched neither the store nor the embedding client. *)
Theorem upsert_documents_unconfigured (docs : list document) (st : state) :
  docs <> [] ->
  unset "WEAVIATE_ENDPOINT" \/ unset "WEAVIATE_API_KEY" ->
  exists name,
    Vectorstore.upsert_documents docs st
    = (Raised (RuntimeError ("Missing required environment variable: " +:+ name)),
       Vectorstore.add_upsert_call docs st)
    /\ unset name
    /\ (name = "WEAVIATE_ENDPOINT"
        \/ (name = "WEAVIATE_API_KEY" /\ ~ unset "WEAVIATE_ENDPOINT")).
Proof.
  intros Hdocs Hunset.
  assert (Hcases : unset "WEAVIATE_ENDPOINT"
                   \/ (~ unset "WEAVIATE_ENDPOINT" /\ unset "WEAVIATE_API_KEY")).
  { unfold unset in *.
    destruct (environ !! "WEAVIATE_ENDPOINT") as [v|] eqn:He; [|left; auto].
    destruct (String.eqb_spec v "") as [->|Hne]; [left; auto|].
    right. split; [intros [?|?]; congruence|].
    destruct Hunset as [[?|?]|?]; [congruence|congruence|assumption]. }
  unfold Vectorstore.upsert_documents. unfold bind at 1.
  cbn [Vectorstore.note_upsert_call].
  destruct docs as [|doc0 docs0] eqn:Hd; [congruence|]. rewrite <- Hd in *.
  unfold bind at 1. unfold Vectorstore.init_weaviate_client, bind at 1, lift at 1.
  destruct Hcases as [Hendpoint|[Hset Hkey]].
  - exists "WEAVIATE_ENDPOINT". rewrite (get_env_unset _ Hendpoint).
    split; [reflexivity|]. split; [exact Hendpoint|]. left. reflexivity.
  - exists "WEAVIATE_API_KEY".
    assert (Hvalue : exists v, Utils.get_env "WEAVIATE_ENDPOINT" None true
                               = Returned (Some v)).
    { unfold unset in Hset. unfold Utils.get_env.
      destruct (environ !! "WEAVIATE_ENDPOINT") as [v|]; [|exfalso; auto].
      destruct (String.eqb_spec v "") as [->|Hne]; [exfalso; auto|]. eauto. }
    destruct Hvalue as [v ->]. unfold bind at 1, lift at 1.
    rewrite (get_env_unset _ Hkey).
    split; [reflexivity|]. split; [exact Hkey|]. right. split; [reflexivity|exact Hset].
Qed.

End Store.

Lemma upsert_documents_writes_witness :
  exists st',
    Vectorstore.upsert_documents (W := demo_world demo_environ origin_ok)
      [demo_doc0; demo_doc1] initial_state = (Returned tt, st')
    /\ upsert_calls st' = [[demo_doc0; demo_doc1]]
    /\ "StripeDocPage" ∈ store_classes st'
    /\ store_objects st' !! doc_id demo_doc1 = Some (demo_doc1, [0]).
Proof.
  destruct (upsert_documents_writes (W := demo_world demo_environ origin_ok)
              [demo_doc0; demo_doc1] [[0]; [0]] initial_state "https://store" "key")
    as (st' & Hrun & Hcalls & Hclass & Hwritten & _);
    try reflexivity; try discriminate.
  - right. exists "project", "region". repeat split; try reflexivity; discriminate.
  - exists st'. split; [exact Hrun|]. split; [exact Hcalls|]. split; [exact Hclass|].
    apply (Hwritten 1%nat demo_doc1 [0]); [reflexivity|reflexivity|].
    cbn. apply not_elem_of_nil.
Defined.

Lemma upsert_documents_unconfigured_witness :
  exists name,
    Vectorstore.upsert_documents (W := demo_world ∅ origin_ok) [demo_doc0] initial_state
    = (Raised (RuntimeError ("Missing required environment variable: " +:+ name)),
       Vectorstore.add_upsert_call [demo_doc0] initial_state)
    /\ unset (H := demo_world ∅ origin_ok) name
    /\ (name = "WEAVIATE_ENDPOINT"
        \/ (name = "WEAVIATE_API_KEY"
            /\ ~ unset (H := demo_world ∅ origin_ok) "WEAVIATE_ENDPOINT")).
Proof.
  apply (upsert_documents_unconfigured (W := demo_world ∅ origin_ok)
           [demo_doc0] initial_state); [discriminate|].
  left. left. reflexivity.
Defined.

(** ** More on the embedding proxy *)

Section ProxyMore.
Context {W : World}.

Lemma init_returned_sets_flag (initialized : bool) :
  (EmbedTexts.init_vertex_client initialized).1 = Returned tt ->
  (EmbedTexts.init_vertex_client initialized).2 = true.
Proof.
  unfold EmbedTexts.init_vertex_client.
  destruct initialized; [reflexivity|].
  destruct (environ !! "VERTEX_PROJECT_ID"); [|discriminate].
  destruct (environ !! "VERTEX_LOCATION"); [|discriminate].
  destruct (vertexai_init _ _); [discriminate|].
  destruct (from_pretrained _); [discriminate|reflexivity].
Qed.

Lemma embed_warm (req : request) :
  EmbedTexts.embed req true = (EmbedTexts.embed_checked req, true).
Proof. reflexivity. Qed.

Lemma serve_warm (reqs : list request) :
  EmbedTexts.serve reqs true = EmbedTexts.embed_checked <$> reqs.
Proof.
  induction reqs as [|req reqs IH]; [reflexivity|].
  cbn [EmbedTexts.serve]. rewrite embed_warm. cbn [fst snd]. rewrite IH. reflexivity.
Qed.

Lemma embed_sets_flag (req : request) (initialized : bool) :
  (EmbedTexts.init_vertex_client initialized).1 = Returned tt ->
  EmbedTexts.embed req initialized = (EmbedTexts.embed_checked req, true).
Proof.
  intros Hinit. pose proof (init_returned_sets_flag initialized Hinit) as Hflag.
  unfold EmbedTexts.embed.
  destruct (EmbedTexts.init_vertex_client initialized) as [[[]|e|] flag];
    cbn [fst snd] in *; try discriminate.
  subst flag. reflexivity.
Qed.

Lemma serve_initialised (reqs : list request) (initialized : bool) :
  (EmbedTexts.init_vertex_client initialized).1 = Returned tt ->
  EmbedTexts.serve reqs initialized = EmbedTexts.embed_checked <$> reqs.
Proof.
  intros Hinit. destruct reqs as [|req reqs]; [reflexivity|].
  cbn [EmbedTexts.serve]. rewrite (embed_sets_flag req initialized Hinit).
  cbn [fst snd]. rewrite serve_warm. reflexivity.
Qed.

(** The token and body checks read the proxy token and the embedding call,
    and nothing else of the world. *)
Lemma embed_checked_reads (W' : World) (req : request) :
  @environ W' !! "EMBED_FUNCTION_TOKEN" = @environ W !! "EMBED_FUNCTION_TOKEN" ->
  (forall items, @get_embeddings W' items = @get_embeddings W items) ->
  EmbedTexts.embed_checked (W := W') req = EmbedTexts.embed_checked (W := W) req.
Proof.
  intros Htoken Hmodel. unfold EmbedTexts.embed_checked.
  rewrite Htoken.
  destruct (truthy _ && negb _); [reflexivity|].
  destruct (body_json req) as [payload|]; [|reflexivity].
  destruct (EmbedTexts.payload_get payload "texts") as [texts|e|]; try reflexivity.
  destruct (negb (truthy texts) || negb (EmbedTexts.is_list texts)); [reflexivity|].
  rewrite Hmodel. reflexivity.
Qed.

(** X22. The embedding client is initialised once.  When the
    initialisation of a request returns, the flag is set: that request
    leaves it set, and every request of the process, that one and a refused
    one included, is answered by the token and body checks alone.  With the
    flag set, [init_vertex_client] returns at once, and the Vertex
    configuration is not read again: a process with the flag set in any
    other world [W'] that has the same proxy token and the same embedding
    call, whatever its Vertex variables and whatever [vertexai.init] and
    [from_pretrained] would do there, gives the same outcomes. *)
Theorem serve_initialises_once (W' : World) (reqs : list request)
    (initialized : bool) :
  (EmbedTexts.init_vertex_client (W := W) initialized).1 = Returned tt ->
  @environ W' !! "EMBED_FUNCTION_TOKEN" = @environ W !! "EMBED_FUNCTION_TOKEN" ->
  (forall items, @get_embeddings W' items = @get_embeddings W items) ->
  (EmbedTexts.init_vertex_client (W := W) initialized).2 = true
  /\ (forall req,
        EmbedTexts.embed (W := W) req initialized
        = (EmbedTexts.embed_checked (W := W) req, true))
  /\ EmbedTexts.serve (W := W) reqs initialized
     = EmbedTexts.embed_checked (W := W) <$> reqs
  /\ EmbedTexts.init_vertex_client (W := W') true = (Returned tt, true)
  /\ (forall req,
        EmbedTexts.embed (W := W') req true
        = (EmbedTexts.embed_checked (W := W) req, true))
  /\ EmbedTexts.serve (W := W') reqs true
     = EmbedTexts.serve (W := W) reqs initialized.
Proof.
  intros Hinit Htoken Hmodel.
  split; [exact (init_returned_sets_flag initialized Hinit)|].
  split; [intros req; exact (embed_sets_flag req initialized Hinit)|].
  split; [exact (serve_initialised reqs initialized Hinit)|].
  split; [reflexivity|].
  split.
  - intros req. cbn. rewrite (embed_checked_reads W' req Htoken Hmodel). reflexivity.
  - rewrite (serve_initialised reqs initialized Hinit).
    clear Hinit. induction reqs as [|req reqs IH]; [reflexivity|].
    cbn [EmbedTexts.serve]. cbn [EmbedTexts.embed EmbedTexts.init_vertex_client fst snd].
    rewrite IH, (embed_checked_reads W' req Htoken Hmodel). reflexivity.
Qed.

(** X23. With a token configured and not empty, a request whose
    [X-Internal-Token] header is missing or different gets 401 whatever its
    body, also a body that is not JSON or not an object: the token is
    checked before the body is read. *)
Theorem embed_unauthorized (req : request) (initialized : bool) (token : string) :
  (EmbedTexts.init_vertex_client initialized).1 = Returned tt ->
  environ !! "EMBED_FUNCTION_TOKEN" = Some token -> token <> "" ->
  headers_get "X-Internal-Token" (headers req) <> Some token ->
  (EmbedTexts.embed req initialized).1 = Returned unauthorized_response.
Proof.
  intros Hinit Henv Hne Hheader. rewrite (embed_initialised req initialized Hinit).
  unfold EmbedTexts.embed_checked. rewrite Henv.
  assert (Htest : truthy (Main.option_json (Some token))
                  && negb (option_string_eqb (headers_get "X-Internal-Token" (headers req))
                             (Some token)) = true).
  { apply andb_true_iff. split.
    - cbn. destruct (String.eqb_spec token ""); [contradiction|reflexivity].
    - destruct (headers_get "X-Internal-Token" (headers req)) as [given|]; [|reflexivity].
      cbn. destruct (String.eqb_spec given token); [congruence|reflexivity]. }
  rewrite Htest. reflexivity.
Qed.

(** X24. An authorized request whose body is JSON but not an object (a
    list, a string, a number, [true], [null]) gets no response: reading
    [texts] off it raises [AttributeError], which nothing catches. *)
Theorem embed_body_not_object (req : request) (initialized : bool) (payload : json) :
  (EmbedTexts.init_vertex_client initialized).1 = Returned tt ->
  embed_authorized req ->
  body_json req = Some payload -> not_object payload ->
  (EmbedTexts.embed req initialized).1
  = Raised (AttributeError "object has no attribute 'get'").
Proof.
  intros Hinit Hauth Hbody Hpayload. rewrite (embed_initialised req initialized Hinit).
  unfold EmbedTexts.embed_checked. rewrite (embed_authorized_passes req Hauth), Hbody.
  destruct payload; try contradiction; reflexivity.
Qed.

End ProxyMore.

Lemma serve_initialises_once_witness :
  (EmbedTexts.embed (W := demo_world proxy_environ origin_ok)
     (texts_request [("X-Internal-Token", "wrong")] (JList [JStr "a"])) false).2
  = true
  /\ EmbedTexts.serve (W := demo_world proxy_environ origin_ok)
       [texts_request [("X-Internal-Token", "wrong")] (JList [JStr "a"]);
        texts_request [("X-Internal-Token", "secret")] (JList [JStr "a"])]
       false
     = [Returned unauthorized_response; Returned (embeddings_response [[0]])]
  /\ EmbedTexts.serve (W := demo_world unconfigured_environ origin_ok)
       [texts_request [("X-Internal-Token", "wrong")] (JList [JStr "a"]);
        texts_request [("X-Internal-Token", "secret")] (JList [JStr "a"])]
       true
     = [Returned unauthorized_response; Returned (embeddings_response [[0]])].
Proof.
  destruct (serve_initialises_once (W := demo_world proxy_environ origin_ok)
              (demo_world unconfigured_environ origin_ok)
              [texts_request [("X-Internal-Token", "wrong")] (JList [JStr "a"]);
               texts_request [("X-Internal-Token", "secret")] (JList [JStr "a"])]
              false)
    as (_ & Hflag & Hserve & _ & _ & Hother);
    [reflexivity|reflexivity|intros items; reflexivity|].
  split; [rewrite Hflag; reflexivity|].
  split; [rewrite Hserve; reflexivity|].
  rewrite Hother, Hserve. reflexivity.
Defined.

Lemma embed_unauthorized_witness :
  (EmbedTexts.embed (W := demo_world proxy_environ origin_ok)
     (mk_request [] None) false).1
  = Returned unauthorized_response.
Proof.
  apply (embed_unauthorized (W := demo_world proxy_environ origin_ok)
           (mk_request [] None) false "secret");
    first [reflexivity|discriminate].
Defined.

Lemma embed_body_not_object_witness :
  (EmbedTexts.embed (W := demo_world proxy_environ origin_ok)
     (mk_request [("x-internal-token", "secret")] (Some (JList [JStr "a"]))) false).1
  = Raised (AttributeError "object has no attribute 'get'").
Proof.
  apply (embed_body_not_object (W := demo_world proxy_environ origin_ok)
           (mk_request [("x-internal-token", "secret")] (Some (JList [JStr "a"])))
           false (JList [JStr "a"]));
    first [reflexivity|exact I|(right; reflexivity)].
Defined.

(** ** The endpoint ends *)

Section IngestEnds.
Context {W : World}.

Lemma ends_ret {A : Type} (a : A) : ends (ret a).
Proof. intros st. discriminate. Qed.

Lemma ends_raise {A : Type} (e : exn) : ends (@raise A e).
Proof. intros st. discriminate. Qed.

Lemma ends_emit (r : log_record) : ends (emit r).
Proof. intros st. discriminate. Qed.

Lemma ends_bind {A B : Type} (m : M A) (k : A -> M B) :
  ends m -> (forall a, ends (k a)) -> ends (bind m k).
Proof.
  intros Hm Hk st. unfold bind. specialize (Hm st).
  destruct (m st) as [[a|e|] st1]; cbn [fst] in *;
    [apply Hk|discriminate|congruence].
Qed.

Lemma ends_on_prepare_error (url : string) (docs : list document)
    (skipped : list Main.skip_record) (exc : exn) :
  ends (Main.on_prepare_error url docs skipped exc).
Proof.
  unfold Main.on_prepare_error, Main._skip_url, logger_warning, logger_exception.
  destruct (is_google_RetryError exc).
  { destruct (Main._unwrap_retry_http_error exc) as [http_error|];
      [destruct (Main.is_404 http_error)|];
      repeat first [apply ends_bind; [|intros ?] | apply ends_emit
                   | apply ends_ret | apply ends_raise]. }
  destruct (is_HTTPError exc).
  { destruct (Main.is_404 exc);
      repeat first [apply ends_bind; [|intros ?] | apply ends_emit
                   | apply ends_ret | apply ends_raise]. }
  destruct (is_RequestException exc);
    repeat first [apply ends_bind; [|intros ?] | apply ends_emit
                 | apply ends_ret | apply ends_raise].
Qed.

Lemma prepare_single_ends (url : string) (chunk_size overlap : Z) (st : state) :
  overlap < chunk_size ->
  exists fuel0 result,
    result.1 <> Diverged
    /\ forall fuel, (fuel0 <= fuel)%nat ->
         Utils.prepare_documents fuel [url] chunk_size overlap st = result.
Proof.
  intros Hstep.
  pose proof (fetch_url_ends url st) as Hout.
  destruct (Utils.fetch_url url st) as [[[markup|]|e|] st1] eqn:Hfetch.
  - destruct (chunk_text_returns
                (PyStr.join " " (paragraphs (Utils.extract_text_from_html markup url)))
                chunk_size overlap Hstep) as [chunks Hchunks].
    exists (S (length (PyStr.split
                         (PyStr.join " "
                            (paragraphs (Utils.extract_text_from_html markup url)))))).
    eexists (_, _). split; [|intros fuel Hfuel].
    2:{ rewrite prepare_documents_single, Hfetch. cbv zeta.
        rewrite Hchunks by lia. reflexivity. }
    discriminate.
  - exists 0%nat. eexists (_, _). split; [|intros fuel _].
    2:{ rewrite prepare_documents_single, Hfetch. reflexivity. }
    discriminate.
  - exists 0%nat. eexists (_, _). split; [|intros fuel _].
    2:{ rewrite prepare_documents_single, Hfetch. reflexivity. }
    discriminate.
  - exfalso. apply Hout. reflexivity.
Qed.

Lemma ingest_loop_ends (urls : list string) (chunk_size overlap : Z) :
  overlap < chunk_size ->
  forall docs skipped st,
    exists fuel0 result,
      result.1 <> Diverged
      /\ forall fuel, (fuel0 <= fuel)%nat ->
           Main.ingest_loop fuel urls chunk_size overlap docs skipped st = result.
Proof.
  intros Hstep. induction urls as [|url rest IH]; intros docs skipped st.
  - exists 0%nat. eexists (_, _). split; [|intros fuel _; reflexivity]. discriminate.
  - destruct (prepare_single_ends url chunk_size overlap st Hstep)
      as (fuel1 & [[new|e|] st1] & Hend1 & Hrun1); cbn [fst] in Hend1;
      [| |congruence].
    + destruct (IH (docs ++ new) skipped (add_log (log_prepared url (length new)) st1))
        as (fuel2 & result & Hend2 & Hrun2).
      exists (Nat.max fuel1 fuel2), result. split; [exact Hend2|].
      intros fuel Hfuel. rewrite ingest_loop_cons, Hrun1 by lia. apply Hrun2. lia.
    + pose proof (ends_on_prepare_error url docs skipped e st1) as Hhandler.
      destruct (Main.on_prepare_error url docs skipped e st1) as [[acc|e'|] st2] eqn:Hh;
        cbn [fst] in Hhandler; [| |congruence].
      * destruct (IH acc.1 acc.2 st2) as (fuel2 & result & Hend2 & Hrun2).
        exists (Nat.max fuel1 fuel2), result. split; [exact Hend2|].
        intros fuel Hfuel. rewrite ingest_loop_cons, Hrun1 by lia. rewrite Hh.
        apply Hrun2. lia.
      * exists fuel1. eexists (_, _). split; [|intros fuel Hfuel].
        2:{ rewrite ingest_loop_cons, Hrun1 by lia. rewrite Hh. reflexivity. }
        discriminate.
Qed.

Lemma ends_init_vertex : ends Vectorstore.init_vertex_client.
Proof.
  intros st. unfold Vectorstore.init_vertex_client.
  destruct (vertex_client_initialized st); [discriminate|].
  unfold bind, lift.
  destruct (Utils.get_env "VERTEX_PROJECT_ID" None true) as [p|e|] eqn:Hp;
    [|discriminate|].
  - destruct (Utils.get_env "VERTEX_LOCATION" None true) as [l|e|] eqn:Hl;
      [|discriminate|].
    + destruct (vertexai_init _ _); discriminate.
    + unfold Utils.get_env in Hl.
      destruct (environ !! "VERTEX_LOCATION") as [v|]; [destruct (true && _)|];
        discriminate.
  - unfold Utils.get_env in Hp.
    destruct (environ !! "VERTEX_PROJECT_ID") as [v|]; [destruct (true && _)|];
      discriminate.
Qed.

Lemma ends_upsert (docs : list document) :
  (forall items, get_embeddings items <> Diverged) ->
  ends (Vectorstore.upsert_documents docs).
Proof.
  intros Hmodel. unfold Vectorstore.upsert_documents.
  apply ends_bind; [intros st; discriminate|]. intros _.
  destruct docs as [|doc docs]; [apply ends_ret|].
  apply ends_bind.
  { intros st. unfold Vectorstore.init_weaviate_client, bind, lift, Utils.get_env.
    destruct (environ !! "WEAVIATE_ENDPOINT") as [v|];
      [destruct (true && _)|]; try discriminate.
    destruct (environ !! "WEAVIATE_API_KEY") as [k|];
      [destruct (true && _)|]; discriminate. }
  intros _. apply ends_bind.
  { intros st. unfold Vectorstore.ensure_schema. destruct (bool_decide _); discriminate. }
  intros _. apply ends_bind.
  { unfold Vectorstore.build_embeddings. apply ends_bind; [apply ends_init_vertex|].
    intros _. destruct (from_pretrained _); [apply ends_raise|].
    intros st. apply Hmodel. }
  intros embeddings st. rewrite add_all_run. discriminate.
Qed.

Lemma ends_respond (docs : list document) (skipped : list Main.skip_record) :
  (forall items, get_embeddings items <> Diverged) ->
  ends (Main.respond docs skipped).
Proof.
  intros Hmodel.
  assert (Hok : ends
    (logger_info "Upserting documents" []
       [("document_count", JInt (Z.of_nat (length docs)));
        ("skipped_count", JInt (Z.of_nat (length skipped)))] ;;
     Vectorstore.upsert_documents docs ;;
     logger_info "Ingestion completed successfully" []
       [("ingested_documents", JInt (Z.of_nat (length docs)));
        ("skipped_urls", JList (Main.skip_json <$> skipped))] ;;
     ret (mk_response
            (JDict [("status", JStr "ok");
                    ("ingested", JInt (Z.of_nat (length docs)));
                    ("skipped", JList (Main.skip_json <$> skipped))])
            200))).
  { apply ends_bind; [apply ends_emit|intros _].
    apply ends_bind; [apply ends_upsert, Hmodel|intros _].
    apply ends_bind; [apply ends_emit|intros _]. apply ends_ret. }
  unfold Main.respond.
  destruct docs as [|doc docs]; [destruct skipped as [|s skipped]|]; try exact Hok.
  apply ends_bind; [apply ends_emit|intros _]. apply ends_ret.
Qed.

(** X25. With [overlap < chunk_size] the endpoint always answers: for a
    request that passes the token check, under a configuration that reads,
    and with an embedding call that ends, there is a bound on the fuel from
    which on every run returns one and the same response. *)
Theorem ingest_ends (req : request) (urls : list string) (chunk_size overlap : Z)
    (st : state) :
  authorized req -> configured urls chunk_size overlap -> overlap < chunk_size ->
  (forall items, get_embeddings items <> Diverged) ->
  exists fuel0 r st',
    forall fuel, (fuel0 <= fuel)%nat ->
      Main.ingest_stripe_docs fuel req st = (Returned r, st').
Proof.
  intros Hauth Hconf Hstep Hmodel.
  destruct (ingest_loop_ends urls chunk_size overlap Hstep [] []
              (add_log (log_preparing urls chunk_size overlap)
                 (add_log (log_received req) st)))
    as (fuel0 & [[acc|e|] st1] & Hend & Hrun); cbn [fst] in Hend; [| |congruence].
  - pose proof (ends_respond acc.1 acc.2 Hmodel st1) as Hresp.
    destruct (Main.respond acc.1 acc.2 st1) as [[r|e|] st2] eqn:Hr;
      cbn [fst] in Hresp; [| |congruence].
    + exists fuel0, r, st2. intros fuel Hfuel.
      rewrite ingest_unfold. unfold try_except.
      rewrite (ingest_body_configured fuel req urls chunk_size overlap _ Hauth Hconf).
      unfold bind. rewrite (Hrun fuel Hfuel), Hr. reflexivity.
    + destruct (on_ingest_error_returns e st2) as (r & st3 & Hhandler & _).
      exists fuel0, r, st3. intros fuel Hfuel.
      rewrite ingest_unfold. unfold try_except.
      rewrite (ingest_body_configured fuel req urls chunk_size overlap _ Hauth Hconf).
      unfold bind. rewrite (Hrun fuel Hfuel), Hr. exact Hhandler.
  - destruct (on_ingest_error_returns e st1) as (r & st3 & Hhandler & _).
    exists fuel0, r, st3. intros fuel Hfuel.
    rewrite ingest_unfold. unfold try_except.
    rewrite (ingest_body_configured fuel req urls chunk_size overlap _ Hauth Hconf).
    unfold bind. rewrite (Hrun fuel Hfuel). exact Hhandler.
Qed.

End IngestEnds.

Lemma ingest_ends_witness :
  exists fuel0 r st',
    forall fuel, (fuel0 <= fuel)%nat ->
      Main.ingest_stripe_docs (W := demo_world demo_environ origin_mixed)
        fuel (mk_request [] None) initial_state = (Returned r, st').
Proof.
  apply (ingest_ends (W := demo_world demo_environ origin_mixed)
           (mk_request [] None) ["https://a"; "https://b"] 2 0 initial_state).
  - exact I.
  - exists "https://a, https://b", "2", "0".
    repeat split; try (vm_compute; reflexivity). discriminate.
  - lia.
  - intros items. discriminate.
Defined.

(** ** The seed of an identifier *)

Section Seeds.

Lemma digit_code (k : nat) : (k < 10)%nat -> nat_of_ascii (PyStr.digit k) = (48 + k)%nat.
Proof.
  intros Hk. unfold PyStr.digit. apply nat_ascii_embedding. lia.
Qed.

Lemma all_digits_app (a b : string) :
  all_digits (a +:+ b) = all_digits a && all_digits b.
Proof.
  induction a as [|c a IH]; [reflexivity|].
  change (String c a +:+ b) with (String c (a +:+ b)). cbn [all_digits].
  rewrite IH, andb_assoc. reflexivity.
Qed.

Lemma digits_value_app (a b : string) :
  forall acc, digits_value (a +:+ b) acc = digits_value b (digits_value a acc).
Proof.
  induction a as [|c a IH]; intros acc; [reflexivity|].
  change (String c a +:+ b) with (String c (a +:+ b)). cbn [digits_value]. apply IH.
Qed.

Lemma append_assoc (a b c : string) : (a +:+ b) +:+ c = a +:+ (b +:+ c).
Proof.
  induction a as [|x a IH]; [reflexivity|].
  change ((String x a +:+ b) +:+ c) with (String x ((a +:+ b) +:+ c)).
  rewrite IH. reflexivity.
Qed.

(** [str(n)] is the decimal numeral of [n]. *)
Lemma str_pos_fuel_digits (fuel : nat) :
  forall n acc,
    (n < fuel)%nat ->
    exists d,
      PyStr.str_pos_fuel fuel n acc = d +:+ acc
      /\ all_digits d = true /\ digits_value d 0 = n.
Proof.
  induction fuel as [|fuel IH]; intros n acc Hn; [lia|].
  cbn [PyStr.str_pos_fuel]. cbv zeta.
  pose proof (Nat.mod_upper_bound n 10 ltac:(lia)) as Hmod.
  destruct (Nat.ltb_spec n 10) as [Hsmall|Hbig].
  - exists (String (PyStr.digit (n mod 10)) EmptyString). split; [reflexivity|].
    cbn [all_digits digits_value]. rewrite digit_code by lia.
    rewrite Nat.mod_small by lia. split.
    + destruct (Nat.leb_spec 48 (48 + n)); [|lia].
      destruct (Nat.leb_spec (48 + n) 57); [reflexivity|lia].
    + lia.
  - assert (Hdiv : (n / 10 < fuel)%nat).
    { pose proof (Nat.div_lt n 10 ltac:(lia) ltac:(lia)). lia. }
    destruct (IH (n / 10)%nat (String (PyStr.digit (n mod 10)) acc) Hdiv)
      as (d & Hrun & Hdigits & Hvalue).
    exists (d +:+ String (PyStr.digit (n mod 10)) EmptyString).
    rewrite Hrun, append_assoc. split; [reflexivity|].
    rewrite all_digits_app, digits_value_app, Hdigits, Hvalue.
    cbn [all_digits digits_value]. rewrite digit_code by lia. split.
    + destruct (Nat.leb_spec 48 (48 + n mod 10)); [|lia].
      destruct (Nat.leb_spec (48 + n mod 10) 57); [reflexivity|lia].
    + pose proof (Nat.div_mod_eq n 10). lia.
Qed.

Lemma str_nat_digits (n : nat) :
  all_digits (PyStr.str_nat n) = true /\ digits_value (PyStr.str_nat n) 0 = n.
Proof.
  unfold PyStr.str_nat.
  destruct (str_pos_fuel_digits (S n) n EmptyString ltac:(lia)) as (d & Hrun & Hd & Hv).
  rewrite Hrun, append_empty. split; assumption.
Qed.

Lemma append_cancel_l (a x y : string) : a +:+ x = a +:+ y -> x = y.
Proof.
  induction a as [|c a IH]; [auto|].
  change (String c a +:+ x) with (String c (a +:+ x)).
  change (String c a +:+ y) with (String c (a +:+ y)).
  intros H. inversion H. auto.
Qed.

(** Two numerals followed by a dash agree as soon as what they open does. *)
Lemma digits_then_dash (a b x y : string) :
  all_digits a = true -> all_digits b = true ->
  a +:+ String "-" x = b +:+ String "-" y -> a = b /\ x = y.
Proof.
  revert b. induction a as [|c a IH]; intros [|c' b] Ha Hb Heq.
  - inversion Heq. split; reflexivity.
  - exfalso. change (EmptyString +:+ String "-" x) with (String "-" x) in Heq.
    change (String c' b +:+ String "-" y) with (String c' (b +:+ String "-" y)) in Heq.
    inversion Heq; subst. cbn in Hb. discriminate.
  - exfalso. change (EmptyString +:+ String "-" y) with (String "-" y) in Heq.
    change (String c a +:+ String "-" x) with (String c (a +:+ String "-" x)) in Heq.
    inversion Heq; subst. cbn in Ha. discriminate.
  - change (String c a +:+ String "-" x) with (String c (a +:+ String "-" x)) in Heq.
    change (String c' b +:+ String "-" y) with (String c' (b +:+ String "-" y)) in Heq.
    inversion Heq; subst.
    cbn [all_digits] in Ha, Hb.
    apply andb_true_iff in Ha as [_ Ha]. apply andb_true_iff in Hb as [_ Hb].
    destruct (IH b Ha Hb) as [-> ->]; [assumption|]. split; reflexivity.
Qed.

(** X26. Within one URL the seed of an identifier tells the position and
    the first 100 characters of the chunk: two chunks of a page get the same
    seed only at the same index and with the same first 100 characters. *)
Theorem uuid_seed_injective (url : string) (i j : nat) (chunk chunk' : string) :
  uuid_seed url i chunk = uuid_seed url j chunk' ->
  i = j /\ PyStr.prefix 100 chunk = PyStr.prefix 100 chunk'.
Proof.
  unfold uuid_seed. intros Heq.
  apply append_cancel_l in Heq.
  change ("-" +:+ ?s) with (String "-" s) in Heq.
  inversion Heq as [Hrest]. clear Heq.
  destruct (str_nat_digits i) as [Hdi Hvi]. destruct (str_nat_digits j) as [Hdj Hvj].
  apply digits_then_dash in Hrest as [Hnum Hprefix]; [|assumption|assumption].
  split; [|exact Hprefix]. rewrite <- Hvi, <- Hvj, Hnum. reflexivity.
Qed.

End Seeds.

Lemma uuid_seed_injective_witness :
  3%nat = 3%nat /\ PyStr.prefix 100 "w1 w2" = PyStr.prefix 100 "w1 w2".
Proof.
  apply (uuid_seed_injective "https://a" 3 3 "w1 w2" "w1 w2"). reflexivity.
Defined.
